(** * finance-tracker: receipt and statement ingestion

    A shallow embedding of the backend controllers of the finance tracker
    ([backend/controllers/uploadController.js] and the transaction
    controller) together with the properties their specification states.

    Conventions of the embedding:
    - a JavaScript string is a list of code units; only code units below
      256 are represented ([ascii]);
    - a JavaScript number is [JSNum]: NaN, the infinities, or the exact
      rational a decimal literal denotes.  The rounding of a finite
      non-zero value to the nearest double is not represented, the
      underflow to zero and the overflow to Infinity are;
    - the database collections are lists in insertion order, the file
      system is a finite map from resolved paths to contents;
    - an [async] handler is a function from the request and the state of
      the world to a response and the new state. *)

From Stdlib Require Import String Ascii List ZArith QArith Qabs Bool Lia.
From Stdlib Require Import DecimalString.
From stdpp Require Import gmap strings.
Import ListNotations.

Local Open Scope list_scope.

(** ** JavaScript strings *)

Abbreviation str := (list ascii).

Coercion list_ascii_of_string : string >-> list.

Module JS.

Definition code (c : ascii) : N := N_of_ascii c.

Definition ch (n : N) : ascii := ascii_of_N n.

(** White space and line terminators below 256, as [String.prototype.trim]
    and the regular expression class [\s] see them. *)
Definition is_ws (c : ascii) : bool :=
  let n := code c in
  ((9 <=? n) && (n <=? 13) || (n =? 32) || (n =? 160))%N.

Fixpoint trimStart (s : str) : str :=
  match s with
  | c :: r => if is_ws c then trimStart r else s
  | [] => []
  end.

Definition trimEnd (s : str) : str := rev (trimStart (rev s)).

Definition trim (s : str) : str := trimEnd (trimStart s).

(** [s.split(d)] for a separator of one code unit: the fields between the
    occurrences of [d]; never empty. *)
Fixpoint split (d : ascii) (s : str) : list str :=
  match s with
  | [] => [[]]
  | c :: r =>
      if Ascii.eqb c d then [] :: split d r
      else match split d r with
           | f :: fs => (c :: f) :: fs
           | [] => [[c]]
           end
  end.

Definition includes_char (d : ascii) (s : str) : bool :=
  existsb (Ascii.eqb d) s.

Fixpoint startsWith (p s : str) : bool :=
  match p, s with
  | [], _ => true
  | a :: p', b :: s' => Ascii.eqb a b && startsWith p' s'
  | _ :: _, [] => false
  end.

(** [s.includes(p)] *)
Fixpoint includes (p s : str) : bool :=
  startsWith p s ||
  match s with
  | [] => false
  | _ :: r => includes p r
  end.

(** [s.replace(/[...]/g, '')] for a class of code units. *)
Definition remove_all (cls : ascii -> bool) (s : str) : str :=
  List.filter (fun c => negb (cls c)) s.

(** [s.split(/\s{2,}/)]: the separator is a maximal run of two or more
    white-space code units.  [in_run] tells that such a run is being
    skipped; [cur] is the field read so far, in reverse. *)
Fixpoint split_ws2_from (in_run : bool) (cur : str) (s : str) : list str :=
  match s with
  | [] => [rev cur]
  | c :: r =>
      if in_run then
        if is_ws c then split_ws2_from true cur r
        else split_ws2_from false [c] r
      else
        match r with
        | c' :: _ =>
            if is_ws c && is_ws c'
            then rev cur :: split_ws2_from true [] r
            else split_ws2_from false (c :: cur) r
        | [] => split_ws2_from false (c :: cur) r
        end
  end.

Definition split_ws2 (s : str) : list str := split_ws2_from false [] s.

Definition toLowerCase_char (c : ascii) : ascii :=
  let n := code c in
  if ((65 <=? n) && (n <=? 90) ||
      (192 <=? n) && (n <=? 222) && negb (n =? 215))%N
  then ch (n + 32) else c.

Definition toLowerCase (s : str) : str := map toLowerCase_char s.

(** ** JavaScript numbers *)

Inductive JSNum :=
| NaN
| Inf (negative : bool)
| Num (q : Q).

Definition is_digit (c : ascii) : bool :=
  ((48 <=? code c) && (code c <=? 57))%N.

Fixpoint take_digits (s : str) : str * str :=
  match s with
  | c :: r =>
      if is_digit c then let (d, rest) := take_digits r in (c :: d, rest)
      else ([], s)
  | [] => ([], [])
  end.

Definition digits_value (ds : str) : Z :=
  fold_left (fun acc d => 10 * acc + (Z.of_N (code d) - 48))%Z ds 0%Z.

(** The rational [m * 10^k]. *)
Definition decimal (m k : Z) : Q :=
  Qred (if (0 <=? k)%Z then inject_Z (m * 10 ^ k)
        else Qmake m (Z.to_pos (10 ^ (- k)))).

(** Conversion of an exact value to a double, up to the rounding of finite
    non-zero values: at most 2^-1075 rounds to zero, at least
    2^1024 - 2^970 rounds to an infinity. *)
Definition to_double (q : Q) : JSNum :=
  if Qle_bool (Qabs q) (1 # (2 ^ 1075)) then Num 0
  else if Qle_bool (inject_Z (2 ^ 1024 - 2 ^ 970)) (Qabs q)
       then Inf (negb (Qle_bool 0 q))
       else Num q.

Definition take_sign (s : str) : bool * str :=
  match s with
  | "-"%char :: r => (true, r)
  | "+"%char :: r => (false, r)
  | _ => (false, s)
  end.

Definition exponent_part (s : str) : Z :=
  match s with
  | c :: r =>
      if Ascii.eqb c "e" || Ascii.eqb c "E" then
        let (neg, r') := take_sign r in
        let (ed, _) := take_digits r' in
        match ed with
        | [] => 0
        | _ => if neg then - digits_value ed else digits_value ed
        end
      else 0
  | [] => 0
  end%Z.

(** [parseFloat(s)]: the longest prefix of the trimmed input that is a
    decimal literal. *)
Definition parseFloat (s : str) : JSNum :=
  let (neg, s1) := take_sign (trimStart s) in
  if startsWith "Infinity" s1 then Inf neg else
  let (ip, s2) := take_digits s1 in
  let (fp, s3) :=
    match s2 with
    | "."%char :: r => take_digits r
    | _ => ([], s2)
    end in
  match ip ++ fp with
  | [] => NaN
  | ds =>
      let m := digits_value ds in
      to_double
        (decimal (if neg then - m else m)
                 (exponent_part s3 - Z.of_nat (length fp)))
  end.

Definition abs (x : JSNum) : JSNum :=
  match x with
  | NaN => NaN
  | Inf _ => Inf false
  | Num q => Num (Qabs q)
  end.

Definition isNaN (x : JSNum) : bool :=
  match x with NaN => true | _ => false end.

(** [x === 0] *)
Definition is_zero (x : JSNum) : bool :=
  match x with Num q => Qeq_bool q 0 | _ => false end.

(** Milliseconds since the epoch. *)
Definition Time := Z.

(** The values a JSON request body or a document field can hold.  Arrays
    and plain objects are not represented. *)
Inductive JSValue :=
| JUndefined
| JNull
| JBool (b : bool)
| JNumber (n : JSNum)
| JString (s : str)
| JDate (t : option Time).

(** ToBoolean *)
Definition truthy (v : JSValue) : bool :=
  match v with
  | JUndefined | JNull => false
  | JBool b => b
  | JNumber NaN => false
  | JNumber (Inf _) => true
  | JNumber (Num q) => negb (Qeq_bool q 0)
  | JString s => match s with [] => false | _ => true end
  | JDate _ => true
  end.

(** [a || b] *)
Definition or_else (a b : JSValue) : JSValue := if truthy a then a else b.

(** [parseFloat(v)]: [v] is first converted to a string; the string form
    of a number parses back to that number, and the string forms of the
    other values start with no digit. *)
Definition parseFloat_value (v : JSValue) : JSNum :=
  match v with
  | JString s => parseFloat s
  | JNumber n => n
  | _ => NaN
  end.

End JS.

Import JS.

(** ** Regular expressions built from a category name

    [new RegExp(`^${name}$`, 'i')] interpolates the name as pattern source.
    The constructor and the match are embedded for the patterns written
    with literal code units, [.] and the quantifiers [*], [+], [?] (also
    in their lazy form); what the engine does with the other
    metacharacters is a parameter of the development. *)
Module RegExp.

Inductive Atom := AChar (c : ascii) | AAny.

Inductive Quant := One | Star | Plus | Opt.

Definition Piece : Type := Atom * Quant.

Definition is_quantifier (c : ascii) : bool :=
  Ascii.eqb c "*" || Ascii.eqb c "+" || Ascii.eqb c "?".

Definition quant_of (c : ascii) : Quant :=
  if Ascii.eqb c "*" then Star else if Ascii.eqb c "+" then Plus else Opt.

(** Metacharacters outside the embedded fragment. *)
Definition beyond_char (c : ascii) : bool :=
  existsb (Ascii.eqb c)
    [ch 92; "^"; "$"; "("; ")"; "["; "]"; "{"; "}"; "|"]%char.

(** Code units that stand for themselves in a pattern. *)
Definition literal_char (c : ascii) : bool :=
  negb (beyond_char c || is_quantifier c || Ascii.eqb c ".").

Definition literal (s : str) : bool := forallb literal_char s.

(** What the parser has just read. *)
Inductive Last :=
| Nothing      (* an assertion: nothing to repeat *)
| AnAtom       (* an atom, which a quantifier may follow *)
| AQuantifier  (* a quantifier, which ? may make lazy *)
| ALazy.       (* a lazy quantifier *)

(** Pieces are accumulated in reverse; [None] is a SyntaxError. *)
Fixpoint parse (s : str) (last : Last) (acc : list Piece)
  : option (list Piece) :=
  match s with
  | [] => Some (rev acc)
  | c :: r =>
      if is_quantifier c then
        match last, acc with
        | AnAtom, (a, _) :: acc' => parse r AQuantifier ((a, quant_of c) :: acc')
        | AQuantifier, _ =>
            if Ascii.eqb c "?" then parse r ALazy acc else None
        | _, _ => None
        end
      else if Ascii.eqb c "." then parse r AnAtom ((AAny, One) :: acc)
      else parse r AnAtom ((AChar c, One) :: acc)
  end.

(** Canonicalisation under the [i] flag. *)
Definition canonicalize (c : ascii) : ascii :=
  let n := code c in
  if ((97 <=? n) && (n <=? 122) ||
      (224 <=? n) && (n <=? 254) && negb (n =? 247))%N
  then ch (n - 32) else c.

Definition atom_matches (a : Atom) (c : ascii) : bool :=
  match a with
  | AChar x => Ascii.eqb (canonicalize x) (canonicalize c)
  | AAny => negb (Ascii.eqb c (ch 10) || Ascii.eqb c (ch 13))
  end.

(** Match of the whole subject, as the pattern is anchored at both ends. *)
Fixpoint matches (ps : list Piece) (s : str) {struct ps} : bool :=
  match ps with
  | [] => match s with [] => true | _ :: _ => false end
  | (a, q) :: ps' =>
      let fix star (s : str) : bool :=
        matches ps' s ||
        match s with
        | c :: r => atom_matches a c && star r
        | [] => false
        end in
      match q with
      | One =>
          match s with
          | c :: r => atom_matches a c && matches ps' r
          | [] => false
          end
      | Opt =>
          matches ps' s ||
          match s with
          | c :: r => atom_matches a c && matches ps' r
          | [] => false
          end
      | Star => star s
      | Plus =>
          match s with
          | c :: r => atom_matches a c && star r
          | [] => false
          end
      end
  end.

Section Engine.

(** The engine on a name with metacharacters outside the fragment:
    [None] when the constructor throws, else the anchored match. *)
Variable beyond : str -> option (str -> bool).

(** [new RegExp(`^${name}$`, 'i')], as a test on the subject. *)
Definition anchored_i (name : str) : option (str -> bool) :=
  if existsb beyond_char name then beyond name
  else match parse name Nothing [] with
       | Some ps => Some (matches ps)
       | None => None
       end.

End Engine.

End RegExp.

(** ** Data model *)

Inductive Exn :=
| SyntaxError                 (* the RegExp constructor *)
| TypeError (msg : str)       (* a property of null or undefined, a non-string path *)
| ENOENT | ENOTDIR | EISDIR   (* the file system *)
| Error (msg : str).

Inductive Result (A : Type) :=
| Ok (a : A)
| Throw (e : Exn).

Arguments Ok {A} a.
Arguments Throw {A} e.

Definition bind {A B} (r : Result A) (k : A -> Result B) : Result B :=
  match r with
  | Ok a => k a
  | Throw e => Throw e
  end.

Notation "'let*' x ':=' r 'in' k" := (bind r (fun x => k))
  (at level 10, x pattern, r at level 100, k at level 200).

(** [error.message], up to the details that the runtime appends to the
    text of its own errors (the pattern after 'Invalid regular
    expression', the system call and the paths after the text of a file
    system error). *)
Definition message (e : Exn) : str :=
  match e with
  | SyntaxError => "Invalid regular expression"
  | TypeError m => m
  | ENOENT => "ENOENT: no such file or directory"
  | ENOTDIR => "ENOTDIR: not a directory"
  | EISDIR => "EISDIR: illegal operation on a directory"
  | Error m => m
  end.

Record Category := {
  cat_id : N;
  cat_name : str;
  cat_type : str;               (* 'income', 'expense' or 'both' *)
  cat_userId : option N;
  cat_isDefault : bool;
  cat_color : option str;
  cat_icon : option str
}.

Record Item := { item_name : JSValue; item_price : JSValue; item_quantity : JSValue }.

Record Receipt := {
  rc_filename : JSValue;
  rc_originalName : JSValue;
  rc_mimetype : JSValue;
  rc_size : JSValue;
  rc_path : JSValue;
  rc_storeName : JSValue;
  rc_total : JSValue;
  rc_tax : JSValue;
  rc_subtotal : JSValue;
  rc_items : list Item;
  rc_ocrConfidence : JSValue;
  rc_ocrEngine : JSValue;
  rc_needsReview : JSValue;
  rc_reviewReason : JSValue;
  rc_processedAt : JSValue;
  rc_extractedAt : JSValue
}.

(** The fields handed to [Transaction.create]. *)
Record TransactionData := {
  td_userId : N;
  td_type : JSValue;
  td_amount : JSValue;
  td_description : JSValue;
  td_categoryId : N;
  td_date : JSValue;
  td_paymentMethod : JSValue;
  td_tags : JSValue;
  td_notes : JSValue;
  td_currency : JSValue;
  td_recurring : JSValue;
  td_receipt : option Receipt;
  td_isImported : bool
}.

Record Transaction := { tx_id : N; tx_data : TransactionData }.

(** The two collections, in insertion order, and the next document id.
    The store accepts every write: a [create] or [insertMany] that the
    database rejects (schema validation, a lost connection) is outside
    the embedding, and so is what a handler does after it. *)
Record DB := {
  categories : list Category;
  transactions : list Transaction;
  next_id : N
}.

(** [$or: [{ userId: req.user.id }, { isDefault: true }]] *)
Definition in_scope (uid : N) (c : Category) : bool :=
  match cat_userId c with
  | Some u => (u =? uid)%N || cat_isDefault c
  | None => cat_isDefault c
  end.

Definition str_eqb (a b : str) : bool :=
  bool_decide (a = b).

(** [type: { $in: ['expense', 'both'] }] *)
Definition expense_or_both (c : Category) : bool :=
  str_eqb (cat_type c) "expense" || str_eqb (cat_type c) "both".

Definition Category_findOne (filter : Category -> bool) (db : DB)
  : option Category :=
  find filter (categories db).

Definition Category_create (name type : str) (color icon : option str)
  (uid : N) (db : DB) : Category * DB :=
  let c := {| cat_id := next_id db; cat_name := name; cat_type := type;
              cat_userId := Some uid; cat_isDefault := false;
              cat_color := color; cat_icon := icon |} in
  (c, {| categories := categories db ++ [c];
         transactions := transactions db;
         next_id := N.succ (next_id db) |}).

Definition Transaction_create (td : TransactionData) (db : DB)
  : Transaction * DB :=
  let t := {| tx_id := next_id db; tx_data := td |} in
  (t, {| categories := categories db;
         transactions := transactions db ++ [t];
         next_id := N.succ (next_id db) |}).

Fixpoint Transaction_insertMany (tds : list TransactionData) (db : DB)
  : list Transaction * DB :=
  match tds with
  | [] => ([], db)
  | td :: rest =>
      let (t, db1) := Transaction_create td db in
      let (ts, db2) := Transaction_insertMany rest db1 in
      (t :: ts, db2)
  end.

(** ** Tabular import (uploadController.js, [parseTabularData] and
       [uploadTransactionHistory]) *)

(** The object [parseTabularData] pushes for an accepted line. *)
Record Candidate := {
  cd_userId : N;
  cd_type : str;
  cd_amount : JSNum;
  cd_description : str;
  cd_categoryName : str;
  cd_date : Time;
  cd_isImported : bool
}.

(** What happens to one data line.  Only [Parsed] leaves a trace in the
    value the parser returns; the other outcomes are a [console.warn] or
    nothing at all. *)
Inductive LineOutcome :=
| TooFewFields
| InvalidDate (dateStr : str)
| InvalidAmount (amountStr : str)
| Parsed (t : Candidate).

Definition tab : ascii := ch 9.
Definition newline : ascii := ch 10.
Definition dquote : ascii := ch 34.

(** Delimiter detection: comma, else tab, else runs of spaces. *)
Definition split_fields (line : str) : list str :=
  if includes_char "," line then
    map (fun p => remove_all (Ascii.eqb dquote) (trim p)) (split "," line)
  else if includes_char tab line then
    map trim (split tab line)
  else
    map trim (split_ws2 line).

(** [parts[2].replace(/[$,]/g, '')] *)
Definition amount_string (field : str) : str :=
  remove_all (fun c => Ascii.eqb c "$" || Ascii.eqb c ",") field.

Definition infer_type (amountStr description : str) : str :=
  if includes_char "-" amountStr || includes "payment" (toLowerCase description)
  then "expense" else "income".

Section Parser.

(** [new Date(s)], [None] when [isNaN(date.getTime())]. *)
Variable Date_parse : str -> option Time.

(** The body of the loop of [parseTabularData] for one trimmed line. *)
Definition parse_line (userId : N) (line : str) : LineOutcome :=
  let parts := split_fields line in
  if (3 <=? length parts)%nat then
    let dateStr := nth 0 parts [] in
    let description := nth 1 parts [] in
    let amountStr := amount_string (nth 2 parts []) in
    let categoryName :=
      match nth_error parts 3 with
      | Some (c :: r) => c :: r
      | _ => "Imported" : str
      end in
    match Date_parse dateStr with
    | None => InvalidDate dateStr
    | Some date =>
        let amount := JS.abs (parseFloat amountStr) in
        if isNaN amount || is_zero amount then InvalidAmount amountStr
        else Parsed {| cd_userId := userId;
                       cd_type := infer_type amountStr description;
                       cd_amount := amount;
                       cd_description := trim description;
                       cd_categoryName := trim categoryName;
                       cd_date := date;
                       cd_isImported := true |}
    end
  else TooFewFields.

(** [text.split('\n').filter(line => line.trim())] *)
Definition nonblank_lines (text : str) : list str :=
  List.filter (fun line => match trim line with [] => false | _ => true end)
         (split newline text).

(** One iteration of the loop: [transactions.push] on an accepted line,
    [continue] otherwise. *)
Definition parse_step (userId : N) (transactions : list Candidate)
  (line : str) : list Candidate :=
  match parse_line userId (trim line) with
  | Parsed t => transactions ++ [t]
  | _ => transactions
  end.

(** The loop starts at index 1: the first non-blank line is a header. *)
Definition parseTabularData (text : str) (userId : N) : list Candidate :=
  fold_left (parse_step userId) (tl (nonblank_lines text)) [].

End Parser.

(** The uploaded statement: [req.file] and what [readFile] yields for it. *)
Record HistoryFile := {
  hf_mimetype : str;
  hf_originalname : str;
  hf_text : Result str
}.

Inductive HistoryResponse :=
| HistoryNoFile                              (* 400 *)
| HistoryFailed (message : str)              (* 500 *)
| HistoryImported                            (* 201 *)
    (imported : nat)
    (errors : list (Candidate * str))
    (saved : list Transaction).

Definition candidate_data (t : Candidate) (categoryId : N) : TransactionData :=
  {| td_userId := cd_userId t;
     td_type := JString (cd_type t);
     td_amount := JNumber (cd_amount t);
     td_description := JString (cd_description t);
     td_categoryId := categoryId;
     td_date := JDate (Some (cd_date t));
     td_paymentMethod := JUndefined;
     td_tags := JUndefined;
     td_notes := JUndefined;
     td_currency := JUndefined;
     td_recurring := JUndefined;
     td_receipt := None;
     td_isImported := cd_isImported t |}.

Section Handlers.

Variable Date_parse : str -> option Time.
Variable RegExp_beyond : str -> option (str -> bool).

(** [{ name: { $regex: new RegExp(`^${name}$`, 'i') } }]: the constructor
    runs in the handler and may throw; the store then tests each name, as
    [RegExp.prototype.test] would. *)
Definition name_regex (name : str) : Result (str -> bool) :=
  match RegExp.anchored_i RegExp_beyond name with
  | Some test => Ok test
  | None => Throw SyntaxError
  end.

(** Find-or-create of the import loop (lines 738-749): by name within the
    scope of the owner, whatever the type; else a new category named as
    the record says, of the record's type. *)
Definition import_category (name type : str) (uid : N) (db : DB)
  : Result (Category * DB) :=
  let* test := name_regex name in
  match Category_findOne (fun c => test (cat_name c) && in_scope uid c) db with
  | Some c => Ok (c, db)
  | None => Ok (Category_create name type None None uid db)
  end.

(** The state of the [for ... of] loop over the parsed records. *)
Record ImportLoop := {
  il_processed : list TransactionData;
  il_errors : list (Candidate * str);
  il_db : DB
}.

Definition import_step (uid : N) (st : ImportLoop) (t : Candidate)
  : ImportLoop :=
  match import_category (cd_categoryName t) (cd_type t) uid (il_db st) with
  | Ok (category, db') =>
      {| il_processed := il_processed st ++ [candidate_data t (cat_id category)];
         il_errors := il_errors st;
         il_db := db' |}
  | Throw e =>
      {| il_processed := il_processed st;
         il_errors := il_errors st ++ [(t, message e)];
         il_db := il_db st |}
  end.

Definition uploadTransactionHistory (file : option HistoryFile) (uid : N)
  (db : DB) : HistoryResponse * DB :=
  match file with
  | None => (HistoryNoFile, db)
  | Some f =>
      if str_eqb (hf_mimetype f) "application/pdf" then
        (HistoryFailed "PDF table extraction not yet implemented. Please export your data as CSV format and upload that instead.", db)
      else
        match hf_text f with
        | Throw e => (HistoryFailed (message e), db)
        | Ok extractedText =>
            let transactions := parseTabularData Date_parse extractedText uid in
            match transactions with
            | [] => (HistoryFailed "No valid transactions found in the uploaded file", db)
            | _ =>
                let st := fold_left (import_step uid) transactions
                            {| il_processed := []; il_errors := []; il_db := db |} in
                let (saved, db') :=
                  Transaction_insertMany (il_processed st) (il_db st) in
                (HistoryImported (length saved) (il_errors st) saved, db')
            end
        end
  end.

End Handlers.

(** ** Receipt extraction (uploadController.js, [extractReceiptData] and
       [uploadReceipt]) *)

Inductive ServiceId := Tesseract | Textract.

(** The result object of an engine, with both naming conventions. *)
Record Extracted := {
  ex_storeName : JSValue;
  ex_vendor : JSValue;
  ex_date : JSValue;
  ex_items : option (list Item);
  ex_total : JSValue;
  ex_tax : JSValue;
  ex_subtotal : JSValue;
  ex_confidence : JSValue;
  ex_ocrConfidence : JSValue;
  ex_engine : JSValue;
  ex_ocrEngine : JSValue;
  ex_needsReview : JSValue;
  ex_reviewReason : JSValue
}.

(** [req.file], with what [fs.readFileSync(req.file.path)] yields. *)
Record UploadedFile := {
  uf_filename : str;
  uf_originalname : str;
  uf_mimetype : str;
  uf_size : N;
  uf_path : str;
  uf_buffer : Result str
}.

(** How the promise of an engine settles; it may resolve to null. *)
Inductive EngineOutcome :=
| Resolves (data : option Extracted)
| Rejects (e : Exn).

(** The interface of [tesseractOcrService] and [textractOcrService]
    ([processReceipt] and [processReceiptWithTextract] are both [process]
    here). *)
Record OcrService := {
  process : UploadedFile -> EngineOutcome;
  generateTransactionData : Extracted -> N -> N -> Result TransactionData
}.

(** The variables of a handler after its extraction block, and the engine
    invocations made, oldest first. *)
Record Extraction := {
  extractedData : option Extracted;
  processingError : option str;
  ocrService : option ServiceId;
  calls : list ServiceId
}.

Definition null_message : str :=
  "Cannot read properties of null (reading 'ocrEngine')".

Section Receipts.

Variable tesseractOcrService textractOcrService : OcrService.

Definition service (id : ServiceId) : OcrService :=
  match id with
  | Tesseract => tesseractOcrService
  | Textract => textractOcrService
  end.

(** The [try] block: the value assigned to [extractedData], the exception
    that leaves the block if any, and the engines invoked.  The log line
    after the call reads a property of the result and throws on null. *)
Definition primary (id : ServiceId) (file : UploadedFile)
  : option Extracted * option Exn * list ServiceId :=
  let invoke :=
    match process (service id) file with
    | Resolves (Some d) => (Some d, None, [id])
    | Resolves None => (None, Some (TypeError null_message), [id])
    | Rejects e => (None, Some e, [id])
    end in
  match id with
  | Tesseract => invoke
  | Textract =>
      match uf_buffer file with
      | Throw e => (None, Some e, [])
      | Ok _ => invoke
      end
  end.

(** The [catch] block: the fallback to Tesseract runs when the request
    named 'textract' and nothing was extracted. *)
Definition recover (ocrEngine : str) (file : UploadedFile)
  (chosen : ServiceId) (p : option Extracted * option Exn * list ServiceId)
  : Extraction :=
  match p with
  | (data, None, trace) =>
      {| extractedData := data; processingError := None;
         ocrService := Some chosen; calls := trace |}
  | (data, Some error, trace) =>
      if str_eqb ocrEngine "textract" &&
         match data with None => true | Some _ => false end
      then
        match process tesseractOcrService file with
        | Resolves d =>
            {| extractedData := d; processingError := None;
               ocrService := Some chosen; calls := trace ++ [Tesseract] |}
        | Rejects fallbackError =>
            {| extractedData := data;
               processingError :=
                 Some ("Primary OCR failed: " ++ message error ++
                       ". Fallback also failed: " ++ message fallbackError);
               ocrService := Some chosen; calls := trace ++ [Tesseract] |}
        end
      else
        {| extractedData := data; processingError := Some (message error);
           ocrService := Some chosen; calls := trace |}
  end.

(** [const { ocrEngine = 'textract' } = req.body] *)
Definition engine_or_default (hint : option str) : str :=
  match hint with
  | Some e => e
  | None => "textract"
  end.

(** Lines 170-206 of [extractReceiptData]. *)
Definition extract (hint : option str) (file : UploadedFile) : Extraction :=
  let ocrEngine := engine_or_default hint in
  let chosen := if str_eqb ocrEngine "tesseract" then Tesseract else Textract in
  recover ocrEngine file chosen (primary chosen file).

Inductive ExtractResponse :=
| ExtractNoFile                                         (* 400 *)
| ExtractSucceeded (data : Extracted)                   (* 200, success: true *)
| ExtractFailed (processingError : option str).         (* 200, success: false *)

Definition extractReceiptData (file : option UploadedFile)
  (hint : option str) : ExtractResponse * list ServiceId :=
  match file with
  | None => (ExtractNoFile, [])
  | Some f =>
      let x := extract hint f in
      match extractedData x, processingError x with
      | Some d, None => (ExtractSucceeded d, calls x)
      | _, err => (ExtractFailed err, calls x)
      end
  end.

(** Lines 282-341 of [uploadReceipt]: the same two blocks behind the
    [autoProcess] switch, the engine chosen with [forceOcrEngine]. *)
Definition forceOcrEngine : str := "textract".

Definition upload_extract (autoProcess : str) (hint : option str)
  (file : UploadedFile) : Extraction :=
  let ocrEngine := engine_or_default hint in
  if str_eqb autoProcess "true" then
    let chosen :=
      if str_eqb forceOcrEngine "tesseract" || str_eqb ocrEngine "tesseract"
      then Tesseract
      else if str_eqb forceOcrEngine "textract" || str_eqb ocrEngine "textract"
      then Textract
      else Textract in
    recover ocrEngine file chosen (primary chosen file)
  else
    {| extractedData := None; processingError := None;
       ocrService := None; calls := [] |}.

End Receipts.

(** ** Filing a receipt (uploadController.js, [uploadReceipt] and
       [createTransactionFromReceipt]) *)

(** [receiptInfo]: the five file fields copied onto the receipt. *)
Record ReceiptInfo := {
  ri_filename : JSValue;
  ri_originalName : JSValue;
  ri_mimetype : JSValue;
  ri_size : JSValue;
  ri_path : JSValue
}.

Definition add_file_info (info : ReceiptInfo) (r : Receipt) : Receipt :=
  {| rc_filename := ri_filename info;
     rc_originalName := ri_originalName info;
     rc_mimetype := ri_mimetype info;
     rc_size := ri_size info;
     rc_path := ri_path info;
     rc_storeName := rc_storeName r;
     rc_total := rc_total r;
     rc_tax := rc_tax r;
     rc_subtotal := rc_subtotal r;
     rc_items := rc_items r;
     rc_ocrConfidence := rc_ocrConfidence r;
     rc_ocrEngine := rc_ocrEngine r;
     rc_needsReview := rc_needsReview r;
     rc_reviewReason := rc_reviewReason r;
     rc_processedAt := rc_processedAt r;
     rc_extractedAt := rc_extractedAt r |}.

(** [transactionData.receipt.filename = ...] and the four assignments
    after it; a missing receipt object makes the first one throw. *)
Definition attach_file_info (info : ReceiptInfo) (td : TransactionData)
  : Result TransactionData :=
  match td_receipt td with
  | None => Throw (TypeError "Cannot set properties of undefined (setting 'filename')")
  | Some r =>
      Ok {| td_userId := td_userId td; td_type := td_type td;
            td_amount := td_amount td; td_description := td_description td;
            td_categoryId := td_categoryId td; td_date := td_date td;
            td_paymentMethod := td_paymentMethod td; td_tags := td_tags td;
            td_notes := td_notes td; td_currency := td_currency td;
            td_recurring := td_recurring td;
            td_receipt := Some (add_file_info info r);
            td_isImported := td_isImported td |}
  end.

Definition set_amount (v : JSValue) (td : TransactionData) : TransactionData :=
  {| td_userId := td_userId td; td_type := td_type td;
     td_amount := v; td_description := td_description td;
     td_categoryId := td_categoryId td; td_date := td_date td;
     td_paymentMethod := td_paymentMethod td; td_tags := td_tags td;
     td_notes := td_notes td; td_currency := td_currency td;
     td_recurring := td_recurring td; td_receipt := td_receipt td;
     td_isImported := td_isImported td |}.

Definition set_description (v : JSValue) (td : TransactionData) : TransactionData :=
  {| td_userId := td_userId td; td_type := td_type td;
     td_amount := td_amount td; td_description := v;
     td_categoryId := td_categoryId td; td_date := td_date td;
     td_paymentMethod := td_paymentMethod td; td_tags := td_tags td;
     td_notes := td_notes td; td_currency := td_currency td;
     td_recurring := td_recurring td; td_receipt := td_receipt td;
     td_isImported := td_isImported td |}.

Definition set_date (v : JSValue) (td : TransactionData) : TransactionData :=
  {| td_userId := td_userId td; td_type := td_type td;
     td_amount := td_amount td; td_description := td_description td;
     td_categoryId := td_categoryId td; td_date := v;
     td_paymentMethod := td_paymentMethod td; td_tags := td_tags td;
     td_notes := td_notes td; td_currency := td_currency td;
     td_recurring := td_recurring td; td_receipt := td_receipt td;
     td_isImported := td_isImported td |}.

Definition set_receipt (r : option Receipt) (td : TransactionData) : TransactionData :=
  {| td_userId := td_userId td; td_type := td_type td;
     td_amount := td_amount td; td_description := td_description td;
     td_categoryId := td_categoryId td; td_date := td_date td;
     td_paymentMethod := td_paymentMethod td; td_tags := td_tags td;
     td_notes := td_notes td; td_currency := td_currency td;
     td_recurring := td_recurring td; td_receipt := r;
     td_isImported := td_isImported td |}.

(** The default names tried by [uploadReceipt] and by
    [createTransactionFromReceipt]. *)
Definition upload_defaults : list str :=
  ["Groceries" : str; "Shopping" : str; "Other Expenses" : str; "Food & Dining" : str].

Definition create_defaults : list str :=
  ["Groceries" : str; "Shopping" : str; "Other Expenses" : str].

(** [name: { $in: [...] }] *)
Definition name_in (names : list str) (c : Category) : bool :=
  existsb (str_eqb (cat_name c)) names.

(** A string hint is used when it is truthy. *)
Definition given (hint : option str) : option str :=
  match hint with
  | Some (c :: r) => Some (c :: r)
  | _ => None
  end.

(** The overrides of [createTransactionFromReceipt]. *)
Record Overrides := {
  ov_amount : JSValue;
  ov_description : JSValue;
  ov_date : JSValue;
  ov_categoryName : option str;
  ov_categoryId : option N
}.

Inductive UploadResponse :=
| UploadNoFile                                          (* 400 *)
| UploadCreated (t : Transaction) (data : Extracted)    (* 201 *)
| UploadReview                                          (* 200 *)
    (data : option Extracted) (processingError : option str).

Inductive CreateFromReceiptResponse :=
| FromReceiptBadRequest                                 (* 400 *)
| FromReceiptCreated (t : Transaction)                  (* 201 *)
| FromReceiptError (message : str).                     (* 500 *)

Section Filing.

Variable Date_parse : str -> option Time.
Variable RegExp_beyond : str -> option (str -> bool).
Variable tesseractOcrService textractOcrService : OcrService.

(** [new Date(v)], [None] for an Invalid Date. *)
Definition new_Date (v : JSValue) : option Time :=
  match v with
  | JString s => Date_parse s
  | JNumber (Num q) =>
      let t := Z.quot (Qnum q) (Zpos (Qden q)) in
      if (Z.abs t <=? 8640000000000000)%Z then Some t else None
  | JNumber _ => None
  | JBool true => Some 1%Z
  | JBool false => Some 0%Z
  | JNull => Some 0%Z
  | JUndefined => None
  | JDate t => t
  end.

(** Find-or-create of the two receipt handlers (lines 346-383 and
    560-597), which differ in the default names only. *)
Definition receipt_category (defaults : list str)
  (categoryName : option str) (categoryId : option N) (uid : N) (db : DB)
  : Result (Category * DB) :=
  let* category :=
    match given categoryName, categoryId with
    | Some name, None =>
        let* test := name_regex RegExp_beyond name in
        Ok (Category_findOne
              (fun c => test (cat_name c) && in_scope uid c && expense_or_both c) db)
    | _, Some id =>
        Ok (Category_findOne
              (fun c => (cat_id c =? id)%N && in_scope uid c) db)
    | None, None => Ok None
    end in
  let category :=
    match category with
    | Some c => Some c
    | None =>
        Category_findOne
          (fun c => name_in defaults c && in_scope uid c && expense_or_both c) db
    end in
  match category with
  | Some c => Ok (c, db)
  | None =>
      Ok (Category_create "Other Expenses" "expense"
            (Some ("#6366F1" : str)) (Some ("shopping-bag" : str)) uid db)
  end.

(** The [try] block of [uploadReceipt] that files the receipt (lines
    345-415).  Both branches on the service call the same method of the
    selected service. *)
Definition file_receipt (x : Extraction) (data : Extracted)
  (info : ReceiptInfo) (categoryName : option str) (categoryId : option N)
  (uid : N) (db : DB) : Result (Transaction * DB) :=
  let* (category, db1) :=
    receipt_category upload_defaults categoryName categoryId uid db in
  let svc :=
    match ocrService x with
    | Some Tesseract => tesseractOcrService
    | _ => textractOcrService
    end in
  let* transactionData :=
    generateTransactionData svc data uid (cat_id category) in
  let* transactionData := attach_file_info info transactionData in
  Ok (Transaction_create transactionData db1).

(** A failure while filing is caught and logged.  The category created
    before the failure stays in the store. *)
Definition db_after_failure (categoryName : option str)
  (categoryId : option N) (uid : N) (db : DB) : DB :=
  match receipt_category upload_defaults categoryName categoryId uid db with
  | Ok (_, db1) => db1
  | Throw _ => db
  end.

Definition uploadReceipt (file : option UploadedFile)
  (categoryName : option str) (categoryId : option N)
  (autoProcess : option str) (hint : option str) (uid : N) (db : DB)
  : UploadResponse * DB * list ServiceId :=
  match file with
  | None => (UploadNoFile, db, [])
  | Some f =>
      let autoProcess := match autoProcess with Some a => a | None => "true" : str end in
      let info := {| ri_filename := JString (uf_filename f);
                     ri_originalName := JString (uf_originalname f);
                     ri_mimetype := JString (uf_mimetype f);
                     ri_size := JNumber (Num (inject_Z (Z.of_N (uf_size f))));
                     ri_path := JString (uf_path f) |} in
      let x := upload_extract tesseractOcrService textractOcrService
                 autoProcess hint f in
      match extractedData x, processingError x with
      | Some data, None =>
          match file_receipt x data info categoryName categoryId uid db with
          | Ok (t, db') =>
              (* the 201 response reads [extractedData.items.length], after
                 the transaction is written *)
              match ex_items data with
              | Some _ => (UploadCreated t data, db', calls x)
              | None => (UploadReview (Some data) None, db', calls x)
              end
          | Throw _ =>
              (UploadReview (Some data) None,
               db_after_failure categoryName categoryId uid db, calls x)
          end
      | data, err => (UploadReview data err, db, calls x)
      end
  end.

(** [if (overrides.amount) ...] and the two lines after it. *)
Definition apply_overrides (o : Overrides) (td : TransactionData)
  : TransactionData :=
  let td := if truthy (ov_amount o)
            then set_amount (JNumber (parseFloat_value (ov_amount o))) td
            else td in
  let td := if truthy (ov_description o)
            then set_description (ov_description o) td
            else td in
  if truthy (ov_date o)
  then set_date (JDate (new_Date (ov_date o))) td
  else td.

(** [extractedData.engine || extractedData.ocrEngine || 'textract'], then
    the choice of the service by name. *)
Definition service_of_extracted (data : Extracted) : OcrService :=
  match or_else (or_else (ex_engine data) (ex_ocrEngine data))
                (JString "textract") with
  | JString e => if str_eqb e "tesseract" then tesseractOcrService
                 else textractOcrService
  | _ => textractOcrService
  end.

Definition createTransactionFromReceipt (data : option Extracted)
  (info : option ReceiptInfo) (overrides : Overrides) (uid : N) (db : DB)
  : CreateFromReceiptResponse * DB :=
  match data, info with
  | Some extracted, Some receiptInfo =>
      match receipt_category create_defaults (ov_categoryName overrides)
              (ov_categoryId overrides) uid db with
      | Throw e => (FromReceiptError (message e), db)
      | Ok (category, db1) =>
          match
            (let* transactionData :=
               generateTransactionData (service_of_extracted extracted)
                 extracted uid (cat_id category) in
             attach_file_info receiptInfo
               (apply_overrides overrides transactionData))
          with
          | Throw e => (FromReceiptError (message e), db1)
          | Ok transactionData =>
              let (t, db2) := Transaction_create transactionData db1 in
              (FromReceiptCreated t, db2)
          end
      end
  | _, _ => (FromReceiptBadRequest, db)
  end.

End Filing.

(** ** The file system

    A path is kept resolved, as the list of its components from the
    root.  Only regular files are moved; directories are tracked for
    existence. *)

Abbreviation Path := (list str).

Record FS := {
  files : gmap Path str;
  dirs : gset Path
}.

Definition is_file (p : Path) (fs : FS) : bool :=
  match files fs !! p with Some _ => true | None => false end.

Definition is_dir (p : Path) (fs : FS) : bool :=
  match p with [] => true | _ => bool_decide (p ∈ dirs fs) end.

Definition existsSync (p : Path) (fs : FS) : bool :=
  is_file p fs || is_dir p fs.

(** [path.dirname] *)
Definition dirname (p : Path) : Path := removelast p.

(** The proper and improper prefixes of a path, shortest first. *)
Definition ancestors (p : Path) : list Path :=
  map (fun n => firstn n p) (seq 1 (length p)).

(** [fs.mkdirSync(p, { recursive: true })] *)
Definition mkdirSync (p : Path) (fs : FS) : Result FS :=
  if existsb (fun a => is_file a fs) (ancestors p) then Throw ENOTDIR
  else Ok {| files := files fs;
             dirs := dirs fs ∪ list_to_set (ancestors p) |}.

(** [fs.renameSync(src, dst)] for a source that is no directory: an
    existing file at [dst] is replaced without notice.  The move of a
    directory is outside the embedding; a source path that is a directory
    is answered like a missing one. *)
Definition renameSync (src dst : Path) (fs : FS) : Result FS :=
  match files fs !! src with
  | None => Throw ENOENT
  | Some content =>
      if negb (is_dir (dirname dst) fs) then Throw ENOENT
      else if bool_decide (dst ∈ dirs fs) then Throw EISDIR
      else Ok {| files := <[dst := content]> (delete src (files fs));
                 dirs := dirs fs |}
  end.

(** [path.extname] of a file name: from the last dot of the last
    component, unless that dot opens the component. *)
Fixpoint strip_slashes (r : str) : str :=
  match r with
  | "/"%char :: r' => strip_slashes r'
  | _ => r
  end.

Fixpoint ext_scan (r : str) (acc : str) : str :=
  match r with
  | [] => []
  | "/"%char :: _ => []
  | "."%char :: before =>
      match before with
      | [] => []
      | "/"%char :: _ => []
      | ["."%char] => match acc with [] => [] | _ => "."%char :: acc end
      | "."%char :: "/"%char :: _ => match acc with [] => [] | _ => "."%char :: acc end
      | _ => "."%char :: acc
      end
  | c :: before => ext_scan before (c :: acc)
  end.

Definition extname (name : str) : str :=
  ext_scan (strip_slashes (rev name)) [].

(** Decimal notation of an integer, as in a template literal. *)
Definition decimal_string (z : Z) : str :=
  list_ascii_of_string (DecimalString.NilZero.string_of_int (Z.to_int z)).

(** ** Creating a transaction (the transaction controller,
       [createTransaction]) *)

(** [req.body.receiptFileInfo] *)
Record ReceiptFileInfo := {
  rf_tempPath : option Path;
  rf_originalName : option str;
  rf_mimetype : JSValue;
  rf_size : JSValue;
  rf_uploadedAt : JSValue
}.

(** [req.body.receiptData] *)
Record ReceiptData := {
  rd_storeName : JSValue;
  rd_total : JSValue;
  rd_tax : JSValue;
  rd_subtotal : JSValue;
  rd_items : option (list Item);
  rd_ocrConfidence : JSValue;
  rd_ocrEngine : JSValue;
  rd_needsReview : JSValue;
  rd_reviewReason : JSValue
}.

Record CreateBody := {
  b_type : JSValue;
  b_amount : JSValue;
  b_description : JSValue;
  b_categoryId : option N;
  b_categoryName : option str;
  b_category : option str;
  b_date : JSValue;
  b_paymentMethod : JSValue;
  b_tags : JSValue;
  b_notes : JSValue;
  b_currency : JSValue;
  b_recurring : JSValue;
  b_receiptFileInfo : option ReceiptFileInfo;
  b_receiptData : option ReceiptData
}.

(** [req.user] *)
Record User := { u_id : N; u_currency : JSValue }.

(** What the handler reads from its environment besides the stores. *)
Record Env := {
  now : Time;            (* Date.now() and new Date() *)
  random : Z             (* Math.round(Math.random() * 1E9) *)
}.

Record World := { db : DB; fs : FS }.

Inductive CreateResponse :=
| CategoryNameNotFound (name : str)                     (* 404 *)
| CategoryNotFound                                      (* 404 *)
| CategoryRequired                                      (* 400 *)
| CategoryConflict (name : str) (type : JSValue)        (* 400 *)
| Created (t : Transaction)                             (* 201 *)
| ServerError (e : Exn).                                (* error middleware *)

(** [`receipt-${Date.now()}-${Math.round(Math.random() * 1E9)}${ext}`] *)
Definition permanentFilename (env : Env) (originalName : str) : str :=
  "receipt-" ++ decimal_string (now env) ++ "-" ++
  decimal_string (random env) ++ extname originalName.

(** [path.join(path.dirname(tempPath), '..', 'receipts')] *)
Definition permanentDir (tempPath : Path) : Path :=
  dirname (dirname tempPath) ++ ["receipts" : str].

(** The first statements of the [try] block (lines 107-121): the temp file
    is moved under a fresh name.  Gives the name and the path of the
    permanent file, or the exception, and the file system left behind. *)
Definition promoteReceiptFile (info : ReceiptFileInfo) (env : Env) (fs : FS)
  : Result (str * Path) * FS :=
  match rf_tempPath info with
  | None => (Throw (TypeError "The 'path' argument must be of type string. Received undefined"), fs)
  | Some tempPath =>
      let dir := permanentDir tempPath in
      match (if existsSync dir fs then Ok fs else mkdirSync dir fs) with
      | Throw e => (Throw e, fs)
      | Ok fs1 =>
          match rf_originalName info with
          | None => (Throw (TypeError "The 'path' argument must be of type string. Received undefined"), fs1)
          | Some originalName =>
              let name := permanentFilename env originalName in
              let permanentPath := dir ++ [name] in
              match renameSync tempPath permanentPath fs1 with
              | Throw e => (Throw e, fs1)
              | Ok fs2 => (Ok (name, permanentPath), fs2)
              end
          end
      end
  end.

(** [path.join] of resolved components, for the stored receipt. *)
Definition path_string (p : Path) : str :=
  concat (map (fun c => "/"%char :: c) p).

Definition or_absent (o : option str) : JSValue :=
  match o with Some s => JString s | None => JUndefined end.

(** The [transactionData.receipt] object of lines 126-143. *)
Definition receipt_of (info : ReceiptFileInfo) (data : ReceiptData)
  (env : Env) (name : str) (permanentPath : Path) : Receipt :=
  {| rc_filename := JString name;
     rc_originalName := or_absent (rf_originalName info);
     rc_mimetype := rf_mimetype info;
     rc_size := rf_size info;
     rc_path := JString (path_string permanentPath);
     rc_storeName := rd_storeName data;
     rc_total := rd_total data;
     rc_tax := rd_tax data;
     rc_subtotal := rd_subtotal data;
     rc_items := match rd_items data with Some l => l | None => [] end;
     rc_ocrConfidence := rd_ocrConfidence data;
     rc_ocrEngine := rd_ocrEngine data;
     rc_needsReview := rd_needsReview data;
     rc_reviewReason := rd_reviewReason data;
     rc_processedAt := JDate (Some (now env));
     rc_extractedAt := rf_uploadedAt info |}.

(** [category.type !== 'both' && category.type !== type] *)
Definition type_conflict (c : Category) (type : JSValue) : bool :=
  negb (str_eqb (cat_type c) "both") &&
  negb (match type with JString t => str_eqb (cat_type c) t | _ => false end).

Section Create.

Variable RegExp_beyond : str -> option (str -> bool).

(** [categoryName || category] *)
Definition providedCategoryName (body : CreateBody) : option str :=
  match given (b_categoryName body) with
  | Some n => Some n
  | None => given (b_category body)
  end.

(** Lines 35-74: the category by name, else by id, else a 400. *)
Definition lookup_category (body : CreateBody) (user : User) (d : DB)
  : Result (Category + CreateResponse) :=
  match providedCategoryName body, b_categoryId body with
  | Some name, None =>
      let* test := name_regex RegExp_beyond name in
      match Category_findOne
              (fun c => test (cat_name c) && in_scope (u_id user) c) d with
      | Some c => Ok (inl c)
      | None => Ok (inr (CategoryNameNotFound name))
      end
  | _, Some id =>
      match Category_findOne
              (fun c => (cat_id c =? id)%N && in_scope (u_id user) c) d with
      | Some c => Ok (inl c)
      | None => Ok (inr CategoryNotFound)
      end
  | None, None => Ok (inr CategoryRequired)
  end.

(** Lines 85-97. *)
Definition base_data (body : CreateBody) (user : User) (env : Env)
  (c : Category) : TransactionData :=
  {| td_userId := u_id user;
     td_type := b_type body;
     td_amount := b_amount body;
     td_description := b_description body;
     td_categoryId := cat_id c;
     td_date := or_else (b_date body) (JDate (Some (now env)));
     td_paymentMethod := b_paymentMethod body;
     td_tags := b_tags body;
     td_notes := b_notes body;
     td_currency := or_else (or_else (b_currency body) (u_currency user))
                            (JString "USD");
     td_recurring := b_recurring body;
     td_receipt := None;
     td_isImported := false |}.

(** Lines 100-150: the receipt is attached when the move succeeds; any
    exception of the block is logged and the data stays as it was. *)
Definition with_receipt (body : CreateBody) (env : Env) (f : FS)
  (td : TransactionData) : TransactionData * FS :=
  match b_receiptFileInfo body, b_receiptData body with
  | Some info, Some data =>
      match promoteReceiptFile info env f with
      | (Ok (name, permanentPath), f') =>
          (set_receipt (Some (receipt_of info data env name permanentPath)) td, f')
      | (Throw _, f') => (td, f')
      end
  | _, _ => (td, f)
  end.

Definition createTransaction (body : CreateBody) (user : User) (env : Env)
  (w : World) : CreateResponse * World :=
  match lookup_category body user (db w) with
  | Throw e => (ServerError e, w)
  | Ok (inr response) => (response, w)
  | Ok (inl category) =>
      if type_conflict category (b_type body) then
        (CategoryConflict (cat_name category) (b_type body), w)
      else
        let (transactionData, fs') :=
          with_receipt body env (fs w) (base_data body user env category) in
        let (t, db') := Transaction_create transactionData (db w) in
        (Created t, {| db := db'; fs := fs' |})
  end.

End Create.

(** ** Upload filters and the upload router (uploadController.js,
       [fileFilter] and [historyFileFilter]; the router of
       [/api/upload]) *)

Definition receipt_types : list str :=
  ["image/jpeg" : str; "image/jpg" : str; "image/png" : str;
   "image/gif" : str; "image/bmp" : str; "image/tiff" : str;
   "application/pdf" : str].

(** [allowedTypes.includes(file.mimetype)]: the filter of [upload] and of
    [tempUpload]. *)
Definition fileFilter (mimetype : str) : bool :=
  existsb (str_eqb mimetype) receipt_types.

Definition history_types : list str :=
  ["text/csv" : str; "text/plain" : str; "text/tab-separated-values" : str;
   "application/csv" : str; "application/vnd.ms-excel" : str;
   "text/x-csv" : str].

(** [s.endsWith(suffix)] *)
Definition endsWith (suffix s : str) : bool :=
  startsWith (rev suffix) (rev s).

(** The filter of [historyUpload]: by type, or by the extension of the
    lower-cased name. *)
Definition historyFileFilter (mimetype originalname : str) : bool :=
  let extension := toLowerCase originalname in
  let hasValidExtension :=
    existsb (fun ext => endsWith ext extension)
            [".csv" : str; ".txt" : str; ".tsv" : str] in
  existsb (str_eqb mimetype) history_types || hasValidExtension.

Inductive MulterError :=
| InvalidFileType      (* the filter called back with an error *)
| FileTooLarge.        (* limits.fileSize *)

(** What a route answers: the error of the upload middleware, or the
    response of the handler. *)
Inductive Routed (A : Type) :=
| Refused (e : MulterError)
| Handled (a : A).

Arguments Refused {A} e.
Arguments Handled {A} a.

Section Router.

Variable Date_parse : str -> option Time.
Variable RegExp_beyond : str -> option (str -> bool).

(** [router.post('/transaction-history', upload.single('file'),
    uploadTransactionHistory)]: the middleware is [upload], whose filter
    is [fileFilter]; [within_limit] tells whether the file passes the size
    limit. *)
Definition transaction_history_route (within_limit : bool)
  (file : option HistoryFile) (uid : N) (d : DB)
  : Routed HistoryResponse * DB :=
  match file with
  | None =>
      let (r, d') := uploadTransactionHistory Date_parse RegExp_beyond None uid d in
      (Handled r, d')
  | Some f =>
      if negb (fileFilter (hf_mimetype f)) then (Refused InvalidFileType, d)
      else if negb within_limit then (Refused FileTooLarge, d)
      else
        let (r, d') :=
          uploadTransactionHistory Date_parse RegExp_beyond (Some f) uid d in
        (Handled r, d')
  end.

End Router.

(** ** The receipt route (the router of [/api/upload], [/receipt]) *)

(** [.optional()]: the validator runs when the field is in the body. *)
Definition optional (check : str -> bool) (field : option str) : bool :=
  match field with
  | Some v => check v
  | None => true
  end.

(** [.isIn(values)] *)
Definition isIn (values : list str) (v : str) : bool :=
  existsb (str_eqb v) values.

(** What the validation chain answers. *)
Inductive Validated (A : Type) :=
| Invalid (errors : list str)     (* 400 *)
| Valid (a : A).

Arguments Invalid {A} errors.
Arguments Valid {A} a.

Section ReceiptRoute.

Variable RegExp_beyond : str -> option (str -> bool).
Variable tesseractOcrService textractOcrService : OcrService.

(** [.isBoolean()] of express-validator, on the text of a form field. *)
Variable isBoolean : str -> bool.

(** The messages of the validators that fail.  A category id of the
    embedding is well-formed and a form field is a string, so the
    validators of [categoryId] and [categoryName] pass. *)
Definition receipt_validators (autoProcess ocrEngine : option str)
  : list str :=
  (if optional isBoolean autoProcess then []
   else ["autoProcess must be a boolean" : str]) ++
  (if optional (isIn ["tesseract" : str; "textract" : str]) ocrEngine then []
   else ["OCR engine must be either tesseract or textract" : str]).

(** Modelled from the spec: [handleValidationErrors]
    (middleware/validation.js) is not among the sources.  As the README
    says of the validation middleware ('Validation error responses'), it
    answers a request that fails a validator with 400 and the messages,
    and passes any other request on to the handler.

    [router.post('/receipt', upload.single('receipt'), [...],
    uploadReceipt)]: the upload middleware, the validators and the
    handler; [within_limit] tells whether the file passes the size
    limit. *)
Definition receipt_route (within_limit : bool) (file : option UploadedFile)
  (categoryName : option str) (categoryId : option N)
  (autoProcess ocrEngine : option str) (uid : N) (d : DB)
  : Routed (Validated UploadResponse) * DB * list ServiceId :=
  let handle :=
    match receipt_validators autoProcess ocrEngine with
    | [] =>
        let '(r, d', trace) :=
          uploadReceipt RegExp_beyond tesseractOcrService textractOcrService
            file categoryName categoryId autoProcess ocrEngine uid d in
        (Handled (Valid r), d', trace)
    | errors => (Handled (Invalid errors), d, [])
    end in
  match file with
  | None => handle
  | Some f =>
      if negb (fileFilter (uf_mimetype f)) then (Refused InvalidFileType, d, [])
      else if negb within_limit then (Refused FileTooLarge, d, [])
      else handle
  end.

End ReceiptRoute.

(** ** Processing a stored receipt (uploadController.js,
       [processUploadedReceipt]) *)

Inductive ProcessResponse :=
| ProcessNotFound                         (* 404 *)
| ProcessSucceeded (data : Extracted)     (* 200 *)
| ProcessFailed (message : str).          (* 500 *)

Section Process.

Variable tesseractOcrService textractOcrService : OcrService.

(** The engine calls of the [try] block (lines 494-512): the value of
    [extractedData] or the exception, and the engines invoked.  A null
    result under the hint 'textract' is followed by a Tesseract call; a
    rejection is not. *)
Definition process_stored (ocrEngine : str) (file : UploadedFile)
  : Result (option Extracted) * list ServiceId :=
  if str_eqb ocrEngine "tesseract" then
    match process tesseractOcrService file with
    | Resolves d => (Ok d, [Tesseract])
    | Rejects e => (Throw e, [Tesseract])
    end
  else
    match uf_buffer file with
    | Throw e => (Throw e, [])
    | Ok _ =>
        match process textractOcrService file with
        | Rejects e => (Throw e, [Textract])
        | Resolves (Some d) => (Ok (Some d), [Textract])
        | Resolves None =>
            if str_eqb ocrEngine "textract" then
              match process tesseractOcrService file with
              | Resolves d => (Ok d, [Textract; Tesseract])
              | Rejects e => (Throw e, [Textract; Tesseract])
              end
            else (Ok None, [Textract])
        end
    end.

(** [stored] tells whether the file exists under the receipts directory.
    The response reads [extractedData.storeName] and
    [extractedData.items.length], which throw on a null result and on a
    result without items. *)
Definition processUploadedReceipt (stored : bool) (file : UploadedFile)
  (hint : option str) : ProcessResponse * list ServiceId :=
  if negb stored then (ProcessNotFound, [])
  else
    let (r, trace) := process_stored (engine_or_default hint) file in
    match r with
    | Throw e => (ProcessFailed (message e), trace)
    | Ok None =>
        (ProcessFailed "Cannot read properties of null (reading 'storeName')", trace)
    | Ok (Some d) =>
        match ex_items d with
        | None =>
            (ProcessFailed "Cannot read properties of undefined (reading 'length')", trace)
        | Some _ => (ProcessSucceeded d, trace)
        end
    end.

End Process.

(** ** Serving a receipt file (uploadController.js, [getReceiptFile]) *)

(** [path.join(dir, name)] for a resolved directory: the segments of
    [name] are applied one by one. *)
Definition join_segment (dir : Path) (segment : str) : Path :=
  if str_eqb segment ".." then removelast dir
  else if str_eqb segment "." || str_eqb segment [] then dir
  else dir ++ [segment].

Definition path_join (dir : Path) (name : str) : Path :=
  fold_left join_segment (split "/" name) dir.

Inductive FileResponse :=
| FileNotFound             (* 404 *)
| FileDenied               (* 403 *)
| FileSent (p : Path)      (* the file is streamed *)
| FileError.               (* sendFile fails *)

(** [res.sendFile(p)] streams a regular file; it refuses a directory, and
    a path with a component that starts with a dot. *)
Definition sendFile (p : Path) (f : FS) : FileResponse :=
  if existsb (startsWith ".") p then FileError
  else if is_file p f then FileSent p
  else FileError.

(** ['receipt.filename': filename] *)
Definition has_receipt_file (filename : str) (t : Transaction) : bool :=
  match td_receipt (tx_data t) with
  | Some r =>
      match rc_filename r with
      | JString s => str_eqb s filename
      | _ => false
      end
  | None => false
  end.

(** [uploads] is the resolved uploads directory of the server. *)
Definition getReceiptFile (uploads : Path) (filename : str) (uid : N)
  (w : World) : FileResponse :=
  let receiptPath := path_join (uploads ++ ["receipts" : str]) filename in
  if negb (existsSync receiptPath (fs w)) then FileNotFound
  else
    match find (fun t => (td_userId (tx_data t) =? uid)%N &&
                         has_receipt_file filename t)
               (transactions (db w)) with
    | None => FileDenied
    | Some _ => sendFile receiptPath (fs w)
    end.

(** ** Initial categories (categoryController.js,
       [initializeDefaultCategories]) *)

(** Name, type, color and icon of the categories a new user receives. *)
Definition defaultCategories : list (str * str * str * str) :=
  [ ("Salary" : str, "income" : str, "#10B981" : str, "money" : str);
    ("Freelance" : str, "income" : str, "#059669" : str, "briefcase" : str);
    ("Investment" : str, "income" : str, "#047857" : str, "trending-up" : str);
    ("Other Income" : str, "income" : str, "#065F46" : str, "plus" : str);
    ("Food & Dining" : str, "expense" : str, "#EF4444" : str, "utensils" : str);
    ("Transportation" : str, "expense" : str, "#F97316" : str, "car" : str);
    ("Shopping" : str, "expense" : str, "#8B5CF6" : str, "shopping-bag" : str);
    ("Entertainment" : str, "expense" : str, "#EC4899" : str, "film" : str);
    ("Bills & Utilities" : str, "expense" : str, "#6B7280" : str, "file-text" : str);
    ("Healthcare" : str, "expense" : str, "#14B8A6" : str, "heart" : str);
    ("Education" : str, "expense" : str, "#3B82F6" : str, "book" : str);
    ("Other Expenses" : str, "expense" : str, "#6366F1" : str, "more-horizontal" : str) ].

Fixpoint Category_insertMany (docs : list (str * str * str * str)) (uid : N)
  (d : DB) : list Category * DB :=
  match docs with
  | [] => ([], d)
  | (name, type, color, icon) :: rest =>
      let (c, d1) := Category_create name type (Some color) (Some icon) uid d in
      let (cs, d2) := Category_insertMany rest uid d1 in
      (c :: cs, d2)
  end.

(** [Category.countDocuments({ userId })] *)
Definition owned_categories (uid : N) (d : DB) : list Category :=
  List.filter (fun c => match cat_userId c with
                        | Some u => (u =? uid)%N
                        | None => false
                        end) (categories d).

Inductive InitResponse :=
| AlreadyInitialized                       (* 400 *)
| Initialized (created : list Category).   (* 201 *)

Definition initializeDefaultCategories (uid : N) (d : DB) : InitResponse * DB :=
  if (0 <? length (owned_categories uid d))%nat then (AlreadyInitialized, d)
  else
    let (created, d') := Category_insertMany defaultCategories uid d in
    (Initialized created, d').

(** ** Updating a transaction (the transaction controller,
       [updateTransaction]) *)

(** The fields of the stored documents that [TransactionData] does not
    carry: the ids of the soft-deleted transactions and the status of a
    transaction, where one was set. *)
Record Ledger := {
  lg_db : DB;
  lg_deleted : gset N;
  lg_status : gmap N JSValue
}.

Record UpdateBody := {
  ub_type : JSValue;
  ub_amount : JSValue;
  ub_description : JSValue;
  ub_categoryId : option N;
  ub_categoryName : option str;
  ub_category : option str;
  ub_date : JSValue;
  ub_paymentMethod : JSValue;
  ub_tags : JSValue;
  ub_notes : JSValue;
  ub_currency : JSValue;
  ub_status : JSValue
}.

Inductive UpdateResponse :=
| UpdateNotFound                                         (* 404 *)
| UpdateCategoryNameNotFound (name : str)                (* 404 *)
| UpdateCategoryNotFound                                 (* 404 *)
| UpdateConflict (name : str) (type : JSValue)           (* 400 *)
| Updated (t : Transaction)                              (* 200 *)
| UpdateError (e : Exn).                                 (* error middleware *)

(** [{ _id: req.params.id, userId: req.user.id, isDeleted: false }] *)
Definition live_transaction (id uid : N) (l : Ledger) (t : Transaction) : bool :=
  (tx_id t =? id)%N && (td_userId (tx_data t) =? uid)%N &&
  negb (bool_decide (tx_id t ∈ lg_deleted l)).

(** [if (v) field = v] *)
Definition or_keep (v old : JSValue) : JSValue := if truthy v then v else old.

(** Lines 364-373, the status apart. *)
Definition updated_data (body : UpdateBody) (newCategoryId : option N)
  (td : TransactionData) : TransactionData :=
  {| td_userId := td_userId td;
     td_type := or_keep (ub_type body) (td_type td);
     td_amount := or_keep (ub_amount body) (td_amount td);
     td_description := or_keep (ub_description body) (td_description td);
     td_categoryId := match newCategoryId with
                      | Some id => id
                      | None => td_categoryId td
                      end;
     td_date := or_keep (ub_date body) (td_date td);
     td_paymentMethod := or_keep (ub_paymentMethod body) (td_paymentMethod td);
     td_tags := or_keep (ub_tags body) (td_tags td);
     td_notes := match ub_notes body with
                 | JUndefined => td_notes td
                 | v => v
                 end;
     td_currency := or_keep (ub_currency body) (td_currency td);
     td_recurring := td_recurring td;
     td_receipt := td_receipt td;
     td_isImported := td_isImported td |}.

(** [transaction.save()]: the document found is written back in place. *)
Fixpoint save_first (found : Transaction -> bool) (t' : Transaction)
  (l : list Transaction) : list Transaction :=
  match l with
  | [] => []
  | t :: rest => if found t then t' :: rest else t :: save_first found t' rest
  end.

Section Update.

Variable RegExp_beyond : str -> option (str -> bool).

(** Lines 307-361: the id of the new category, if the request names one
    that passes the checks; [None] when it names none, or names by id the
    category the transaction has. *)
Definition new_category (body : UpdateBody) (uid : N) (t : Transaction)
  (d : DB) : Result (option N + UpdateResponse) :=
  let providedCategoryName :=
    match given (ub_categoryName body) with
    | Some n => Some n
    | None => given (ub_category body)
    end in
  let transactionType := or_else (ub_type body) (td_type (tx_data t)) in
  match providedCategoryName, ub_categoryId body with
  | Some name, None =>
      let* test := name_regex RegExp_beyond name in
      match Category_findOne
              (fun c => test (cat_name c) && in_scope uid c) d with
      | None => Ok (inr (UpdateCategoryNameNotFound name))
      | Some category =>
          if type_conflict category transactionType
          then Ok (inr (UpdateConflict (cat_name category) transactionType))
          else Ok (inl (Some (cat_id category)))
      end
  | _, Some categoryId =>
      if (categoryId =? td_categoryId (tx_data t))%N then Ok (inl None)
      else
        match Category_findOne
                (fun c => (cat_id c =? categoryId)%N && in_scope uid c) d with
        | None => Ok (inr UpdateCategoryNotFound)
        | Some category =>
            if type_conflict category transactionType
            then Ok (inr (UpdateConflict (cat_name category) transactionType))
            else Ok (inl (Some categoryId))
        end
  | None, None => Ok (inl None)
  end.

Definition updateTransaction (id : N) (body : UpdateBody) (uid : N)
  (l : Ledger) : UpdateResponse * Ledger :=
  match find (live_transaction id uid l) (transactions (lg_db l)) with
  | None => (UpdateNotFound, l)
  | Some transaction =>
      match new_category body uid transaction (lg_db l) with
      | Throw e => (UpdateError e, l)
      | Ok (inr response) => (response, l)
      | Ok (inl newCategoryId) =>
          let t' := {| tx_id := tx_id transaction;
                       tx_data := updated_data body newCategoryId
                                    (tx_data transaction) |} in
          (Updated t',
           {| lg_db :=
                {| categories := categories (lg_db l);
                   transactions := save_first (live_transaction id uid l) t'
                                     (transactions (lg_db l));
                   next_id := next_id (lg_db l) |};
              lg_deleted := lg_deleted l;
              lg_status := if truthy (ub_status body)
                           then <[tx_id transaction := ub_status body]> (lg_status l)
                           else lg_status l |})
      end
  end.

End Update.

(** ** Vocabulary of the specification *)

(** The string holds a minus sign. *)
Definition has_minus (s : str) : Prop := In "-"%char s.

(** The small letters, and each of them with its capital. *)
Definition small_letters : str := "abcdefghijklmnopqrstuvwxyz".

Definition capitals : list (ascii * ascii) :=
  combine small_letters ("ABCDEFGHIJKLMNOPQRSTUVWXYZ" : str).

Definition small (l : ascii) : Prop := In l small_letters.

(** The code unit is the small letter or its capital. *)
Definition letter_of (l c : ascii) : Prop := c = l \/ In (l, c) capitals.

(** [letter_of], decided; and the 256 code units of the embedding. *)
Definition letter_ofb (l c : ascii) : bool :=
  Ascii.eqb c l ||
  existsb (fun p => Ascii.eqb (fst p) l && Ascii.eqb (snd p) c) capitals.

Definition code_units : list ascii := map ascii_of_nat (seq 0 256).

(** The string holds the word, which is written in small letters,
    whatever the case of its letters in the string. *)
Definition has_token (word s : str) : Prop :=
  exists pre w post, s = pre ++ w ++ post /\ Forall2 letter_of word w.

(** Equality of names up to the case of the letters. *)
Definition same_name (a b : str) : bool :=
  str_eqb (map RegExp.canonicalize a) (map RegExp.canonicalize b).

(** The records of the accepted lines: what one line contributes. *)
Definition accepted (Date_parse : str -> option Time) (uid : N) (line : str)
  : list Candidate :=
  match parse_line Date_parse uid (trim line) with
  | Parsed t => [t]
  | _ => []
  end.

(** The data lines of a statement, the header left out. *)
Definition data_lines (text : str) : list str := tl (nonblank_lines text).

(** A line of the statement that the parser does not turn into a record. *)
Definition rejected (Date_parse : str -> option Time) (uid : N) (line : str)
  : bool :=
  match parse_line Date_parse uid (trim line) with
  | Parsed _ => false
  | _ => true
  end.

(** A name hint without regular-expression metacharacters, or no hint. *)
Definition plain_hint (hint : option str) : bool :=
  match hint with
  | Some name => RegExp.literal name
  | None => true
  end.

(** A handle issued by [tempStorage]: the file name starts with
    'temp-receipt-'. *)
Definition is_temp_handle (info : ReceiptFileInfo) : bool :=
  match rf_tempPath info with
  | Some p => startsWith "temp-receipt-" (List.last p [])
  | None => false
  end.

Definition same_service (a b : ServiceId) : bool :=
  match a, b with
  | Tesseract, Tesseract | Textract, Textract => true
  | _, _ => false
  end.

(** How many times an engine was invoked. *)
Definition invocations (id : ServiceId) (trace : list ServiceId) : nat :=
  length (List.filter (same_service id) trace).

(** Resolution of a receipt category in the words of the specification:
    a category of the scope named like the hint and fit for expenses,
    else the first stored one that bears a default name, else a new
    'Other Expenses' category of the owner. *)
Definition resolve_by_name (defaults : list str) (hint : option str)
  (uid : N) (d : DB) : Category * DB :=
  let named :=
    match given hint with
    | Some name =>
        find (fun c => same_name name (cat_name c) && in_scope uid c &&
                       expense_or_both c) (categories d)
    | None => None
    end in
  match named with
  | Some c => (c, d)
  | None =>
      match find (fun c => name_in defaults c && in_scope uid c &&
                           expense_or_both c) (categories d) with
      | Some c => (c, d)
      | None =>
          Category_create "Other Expenses" "expense"
            (Some ("#6366F1" : str)) (Some ("shopping-bag" : str)) uid d
      end
  end.

(** Resolution of an imported record: a category of the scope named like
    the hint, else a new category of that name and of the record's type. *)
Definition resolve_imported (name type : str) (uid : N) (d : DB)
  : Category * DB :=
  match find (fun c => same_name name (cat_name c) && in_scope uid c)
             (categories d) with
  | Some c => (c, d)
  | None => Category_create name type None None uid d
  end.

(** The pattern of a name that is matched code unit by code unit. *)
Definition plain_pieces (name : str) : list RegExp.Piece :=
  map (fun c => (RegExp.AChar c, RegExp.One)) name.

(** A magnitude: a number above zero, or Infinity. *)
Definition positive_amount (x : JSNum) : Prop :=
  match x with
  | NaN => False
  | Inf negative => negative = false
  | Num q => (0 < q)%Q
  end.

(** The number of occurrences of a code unit. *)
Definition occurrences (d : ascii) (s : str) : nat :=
  length (List.filter (fun c => Ascii.eqb c d) s).

(** The call traces a receipt handler can leave. *)
Definition sequential_trace (trace : list ServiceId) : Prop :=
  trace = [] \/ trace = [Tesseract] \/ trace = [Textract] \/
  trace = [Textract; Tesseract].

(** The value is what the engine returned for the file, and the engine
    was invoked. *)
Definition produced_by (tess text : OcrService) (file : UploadedFile)
  (trace : list ServiceId) (d : Extracted) : Prop :=
  (In Tesseract trace /\ process tess file = Resolves (Some d)) \/
  (In Textract trace /\ process text file = Resolves (Some d)).

(** The data of an imported transaction filed under a category of the
    store that the user may use. *)
Definition imported_for (uid : N) (d : DB) (td : TransactionData) : Prop :=
  td_userId td = uid /\ td_isImported td = true /\ td_receipt td = None /\
  exists c, In c (categories d) /\ cat_id c = td_categoryId td /\
            in_scope uid c = true.

(** The category that the receipt handlers create when none fits. *)
Definition fallback_category (uid : N) (c : Category) : Prop :=
  cat_name c = ("Other Expenses" : str) /\ cat_type c = ("expense" : str) /\
  cat_userId c = Some uid.

(** The request without its category names. *)
Definition without_names (body : CreateBody) : CreateBody :=
  {| b_type := b_type body; b_amount := b_amount body;
     b_description := b_description body; b_categoryId := b_categoryId body;
     b_categoryName := None; b_category := None; b_date := b_date body;
     b_paymentMethod := b_paymentMethod body; b_tags := b_tags body;
     b_notes := b_notes body; b_currency := b_currency body;
     b_recurring := b_recurring body;
     b_receiptFileInfo := b_receiptFileInfo body;
     b_receiptData := b_receiptData body |}.

(** The documents that [Category.insertMany] stores for a user, the
    first one under the id [id]. *)
Fixpoint inserted_categories (id uid : N) (docs : list (str * str * str * str))
  : list Category :=
  match docs with
  | [] => []
  | (name, type, color, icon) :: rest =>
      {| cat_id := id; cat_name := name; cat_type := type;
         cat_userId := Some uid; cat_isDefault := false;
         cat_color := Some color; cat_icon := Some icon |}
      :: inserted_categories (N.succ id) uid rest
  end.

(** The transaction belongs to the user and its receipt carries the file
    name. *)
Definition names_receipt (uid : N) (filename : str) (t : Transaction) : Prop :=
  td_userId (tx_data t) = uid /\
  exists r, td_receipt (tx_data t) = Some r /\ rc_filename r = JString filename.

(** A file name without a separator. *)
Definition plain (s : str) : Prop := Forall (fun c => c <> "/"%char) s.

(** The import has no record to work on: there is no file, the file is
    a PDF or cannot be read, or its text holds no valid record. *)
Definition nothing_to_import (Date_parse : str -> option Time) (uid : N)
  (file : option HistoryFile) : Prop :=
  match file with
  | None => True
  | Some f =>
      hf_mimetype f = ("application/pdf" : str) \/
      match hf_text f with
      | Throw _ => True
      | Ok text => parseTabularData Date_parse text uid = []
      end
  end.

(** A file name that [path.join] appends as it is: it holds no separator
    and is neither empty nor a dot name. *)
Definition simple_name (name : str) : Prop :=
  plain name /\ name <> [] /\ name <> ("." : str) /\ name <> (".." : str).

(** ** Sample environment for the examples *)

(** Days from 1970-01-01 to a date of the proleptic Gregorian calendar. *)
Definition days_from_civil (y m d : Z) : Z :=
  let y' := if (m <=? 2)%Z then (y - 1)%Z else y in
  let era := (y' / 400)%Z in
  let yoe := (y' - era * 400)%Z in
  let mp := ((m + 9) mod 12)%Z in
  let doy := ((153 * mp + 2) / 5 + d - 1)%Z in
  let doe := (yoe * 365 + yoe / 4 - yoe / 100 + doy)%Z in
  (era * 146097 + doe - 719468)%Z.

(** A date parser that knows the date-only form YYYY-MM-DD of the
    ECMAScript date-time string format and nothing else. *)
Definition iso_date (s : str) : option Time :=
  match s with
  | [y1; y2; y3; y4; "-"%char; m1; m2; "-"%char; d1; d2] =>
      if forallb is_digit [y1; y2; y3; y4; m1; m2; d1; d2] then
        let y := digits_value [y1; y2; y3; y4] in
        let m := digits_value [m1; m2] in
        let d := digits_value [d1; d2] in
        if ((1 <=? m) && (m <=? 12) && (1 <=? d) && (d <=? 31))%Z
        then Some (days_from_civil y m d * 86400000)%Z
        else None
      else None
  | _ => None
  end.

(** A regular-expression engine that rejects every pattern outside the
    embedded fragment. *)
Definition strict_engine : str -> option (str -> bool) := fun _ => None.

Definition empty_db : DB :=
  {| categories := []; transactions := []; next_id := 1 |}.

Definition lines (ls : list str) : str :=
  match ls with
  | [] => []
  | l :: rest => l ++ concat (map (fun x => newline :: x) rest)
  end.

Definition statement (ls : list str) : HistoryFile :=
  {| hf_mimetype := "text/csv"; hf_originalname := "statement.csv";
     hf_text := Ok (lines ls) |}.

(** The statement of the specification's example. *)
Definition example_statement : str :=
  lines ["Date,Description,Amount,Category" : str;
         "2024-01-05,Grocery Store,-45.20,Groceries" : str;
         "2024-01-06,Paycheck,2000,Salary" : str].

(** A stand-in for the two OCR services, whose sources lie outside the
    controllers: the engine settles as told, and the transaction data is
    an expense of the extracted total. *)
Definition sample_extracted : Extracted :=
  {| ex_storeName := JString "Corner Shop";
     ex_vendor := JUndefined;
     ex_date := JString "2024-01-05";
     ex_items := Some [];
     ex_total := JNumber (Num (25 # 2));
     ex_tax := JUndefined;
     ex_subtotal := JUndefined;
     ex_confidence := JUndefined;
     ex_ocrConfidence := JNumber (Num 90);
     ex_engine := JUndefined;
     ex_ocrEngine := JString "AWS Textract";
     ex_needsReview := JBool false;
     ex_reviewReason := JUndefined |}.

Definition sample_generate (data : Extracted) (uid cid : N)
  : Result TransactionData :=
  Ok {| td_userId := uid;
        td_type := JString "expense";
        td_amount := ex_total data;
        td_description := or_else (ex_storeName data) (ex_vendor data);
        td_categoryId := cid;
        td_date := ex_date data;
        td_paymentMethod := JUndefined;
        td_tags := JUndefined;
        td_notes := JUndefined;
        td_currency := JUndefined;
        td_recurring := JUndefined;
        td_receipt :=
          Some {| rc_filename := JUndefined; rc_originalName := JUndefined;
                  rc_mimetype := JUndefined; rc_size := JUndefined;
                  rc_path := JUndefined;
                  rc_storeName := or_else (ex_storeName data) (ex_vendor data);
                  rc_total := ex_total data; rc_tax := ex_tax data;
                  rc_subtotal := ex_subtotal data;
                  rc_items := match ex_items data with Some l => l | None => [] end;
                  rc_ocrConfidence := or_else (ex_confidence data) (ex_ocrConfidence data);
                  rc_ocrEngine := or_else (ex_engine data) (ex_ocrEngine data);
                  rc_needsReview := ex_needsReview data;
                  rc_reviewReason := ex_reviewReason data;
                  rc_processedAt := JUndefined; rc_extractedAt := JUndefined |};
        td_isImported := false |}.

Definition sample_service (outcome : EngineOutcome) : OcrService :=
  {| process := fun _ => outcome; generateTransactionData := sample_generate |}.

Definition working : OcrService := sample_service (Resolves (Some sample_extracted)).

Definition failing (msg : str) : OcrService := sample_service (Rejects (Error msg)).

Definition sample_file : UploadedFile :=
  {| uf_filename := "receipt-1-2.png"; uf_originalname := "shop.png";
     uf_mimetype := "image/png"; uf_size := 3;
     uf_path := "/srv/uploads/receipts/receipt-1-2.png";
     uf_buffer := Ok ("PNG" : str) |}.

Definition sample_info : ReceiptInfo :=
  {| ri_filename := JString "receipt-1-2.png";
     ri_originalName := JString "shop.png";
     ri_mimetype := JString "image/png";
     ri_size := JNumber (Num 3);
     ri_path := JString "/srv/uploads/receipts/receipt-1-2.png" |}.

(** User 1 owns an income category; the shared defaults are absent. *)
Definition salary : Category :=
  {| cat_id := 7; cat_name := "Salary"; cat_type := "income";
     cat_userId := Some 1%N; cat_isDefault := false;
     cat_color := None; cat_icon := None |}.

Definition salary_db : DB :=
  {| categories := [salary]; transactions := []; next_id := 8 |}.

(** A temp upload of user 1 and the file system that holds it. *)
Definition temp_path : Path :=
  ["srv" : str; "uploads" : str; "temp-receipts" : str; "temp-receipt-1-2.png" : str].

Definition temp_handle : ReceiptFileInfo :=
  {| rf_tempPath := Some temp_path; rf_originalName := Some ("shop.png" : str);
     rf_mimetype := JString "image/png"; rf_size := JNumber (Num 3);
     rf_uploadedAt := JString "2024-01-05T10:00:00.000Z" |}.

Definition temp_fs : FS :=
  {| files := {[ temp_path := ("PNG" : str) ]};
     dirs := {[ ["srv" : str]; ["srv" : str; "uploads" : str];
                ["srv" : str; "uploads" : str; "temp-receipts" : str] ]} |}.

(** A file system from which the temp upload is gone. *)
Definition bare_fs : FS := {| files := ∅; dirs := ∅ |}.

Definition sample_receipt_data : ReceiptData :=
  {| rd_storeName := JString "Corner Shop"; rd_total := JNumber (Num (25 # 2));
     rd_tax := JUndefined; rd_subtotal := JUndefined; rd_items := Some [];
     rd_ocrConfidence := JNumber (Num 90); rd_ocrEngine := JString "AWS Textract";
     rd_needsReview := JBool false; rd_reviewReason := JUndefined |}.

Definition groceries : Category :=
  {| cat_id := 3; cat_name := "Groceries"; cat_type := "expense";
     cat_userId := None; cat_isDefault := true;
     cat_color := None; cat_icon := None |}.

Definition groceries_db : DB :=
  {| categories := [groceries]; transactions := []; next_id := 4 |}.

Definition expense_body (info : option ReceiptFileInfo) : CreateBody :=
  {| b_type := JString "expense"; b_amount := JNumber (Num (25 # 2));
     b_description := JString "Corner Shop"; b_categoryId := Some 3%N;
     b_categoryName := None; b_category := None; b_date := JUndefined;
     b_paymentMethod := JUndefined; b_tags := JUndefined; b_notes := JUndefined;
     b_currency := JUndefined; b_recurring := JUndefined;
     b_receiptFileInfo := info; b_receiptData := Some sample_receipt_data |}.

(** An expense filed under the income category 'Salary' by its id. *)
Definition salary_expense : CreateBody :=
  {| b_type := JString "expense"; b_amount := JNumber (Num (25 # 2));
     b_description := JString "Corner Shop"; b_categoryId := Some 7%N;
     b_categoryName := None; b_category := None; b_date := JUndefined;
     b_paymentMethod := JUndefined; b_tags := JUndefined; b_notes := JUndefined;
     b_currency := JUndefined; b_recurring := JUndefined;
     b_receiptFileInfo := None; b_receiptData := None |}.

Definition salary_by_id : Overrides :=
  {| ov_amount := JUndefined; ov_description := JUndefined;
     ov_date := JUndefined; ov_categoryName := None;
     ov_categoryId := Some 7%N |}.

Definition user1 : User := {| u_id := 1; u_currency := JUndefined |}.

Definition env1 : Env := {| now := 1704448800000%Z; random := 123456789%Z |}.

Definition env2 : Env := {| now := 1704448860000%Z; random := 987654321%Z |}.

(** A comma-separated line with a comma inside a quoted field. *)
Definition quoted_line : str :=
  "2024-01-05," ++ [dquote] ++ "Smith, John" ++ [dquote] ++ ",-5".

(** A request that names its category by id and also carries a name that
    is no valid pattern. *)
Definition tea_body : CreateBody :=
  {| b_type := JString "expense"; b_amount := JNumber (Num 5);
     b_description := JString "Tea"; b_categoryId := Some 3%N;
     b_categoryName := Some ("+1" : str); b_category := None;
     b_date := JUndefined; b_paymentMethod := JUndefined;
     b_tags := JUndefined; b_notes := JUndefined;
     b_currency := JUndefined; b_recurring := JUndefined;
     b_receiptFileInfo := None; b_receiptData := None |}.

(** The salary of user 1, filed under 'Salary', and the ledger that holds
    it. *)
Definition salary_payment : Transaction :=
  {| tx_id := 8;
     tx_data :=
       {| td_userId := 1; td_type := JString "income";
          td_amount := JNumber (Num 2000); td_description := JString "January";
          td_categoryId := 7; td_date := JString "2024-01-31";
          td_paymentMethod := JUndefined; td_tags := JUndefined;
          td_notes := JString "net"; td_currency := JString "USD";
          td_recurring := JUndefined; td_receipt := None;
          td_isImported := false |} |}.

Definition salary_ledger : Ledger :=
  {| lg_db := {| categories := [salary]; transactions := [salary_payment];
                 next_id := 9 |};
     lg_deleted := ∅; lg_status := ∅ |}.

(** A request that changes the type and nothing else. *)
Definition retype (type : str) : UpdateBody :=
  {| ub_type := JString type; ub_amount := JUndefined;
     ub_description := JUndefined; ub_categoryId := None;
     ub_categoryName := None; ub_category := None; ub_date := JUndefined;
     ub_paymentMethod := JUndefined; ub_tags := JUndefined;
     ub_notes := JUndefined; ub_currency := JUndefined;
     ub_status := JUndefined |}.

(** A request that raises the amount and names the category. *)
Definition raise_salary : UpdateBody :=
  {| ub_type := JUndefined; ub_amount := JNumber (Num 2100);
     ub_description := JUndefined; ub_categoryId := None;
     ub_categoryName := Some ("salary" : str); ub_category := None;
     ub_date := JUndefined; ub_paymentMethod := JUndefined;
     ub_tags := JUndefined; ub_notes := JUndefined;
     ub_currency := JUndefined; ub_status := JUndefined |}.

(** The statement of the example, sent under an image type. *)
Definition mislabelled_statement : HistoryFile :=
  {| hf_mimetype := "image/png"; hf_originalname := "statement.png";
     hf_text := Ok example_statement |}.

(** The name under which [env1] stores the receipt of [temp_handle], and
    the receipt that [createTransaction] attaches for it. *)
Definition stored_name : str := "receipt-1704448800000-123456789.png".

Definition stored_receipt : Receipt :=
  receipt_of temp_handle sample_receipt_data env1 stored_name
    ["srv" : str; "uploads" : str; "receipts" : str; stored_name].

Definition stored_transaction : Transaction :=
  {| tx_id := 4;
     tx_data := set_receipt (Some stored_receipt)
                  (base_data (expense_body (Some temp_handle)) user1 env1
                     groceries) |}.

Definition temp_world : World := {| db := groceries_db; fs := temp_fs |}.

(** A statement whose only data line is an expense by its description,
    written in capitals, and the record the parser makes of it. *)
Definition capital_statement : str :=
  lines ["Date,Description,Amount" : str; "2024-01-07,RENT PAYMENT,800" : str].

Definition rent_payment : Candidate :=
  {| cd_userId := 1; cd_type := "expense"; cd_amount := Num 800;
     cd_description := "RENT PAYMENT"; cd_categoryName := "Imported";
     cd_date := 1704585600000%Z; cd_isImported := true |}.

(** The texts that [isBoolean] takes for a boolean. *)
Definition boolean_word (v : str) : bool :=
  existsb (str_eqb v) ["true" : str; "false" : str; "1" : str; "0" : str].

(** * Properties *)

(** ** Strings *)

Lemma str_eqb_eq (a b : str) : str_eqb a b = true <-> a = b.
Proof. unfold str_eqb. apply bool_decide_eq_true. Qed.

Lemma str_eqb_refl (a : str) : str_eqb a a = true.
Proof. apply str_eqb_eq. reflexivity. Qed.

Lemma str_eqb_neq (a b : str) : str_eqb a b = false <-> a <> b.
Proof. unfold str_eqb. apply bool_decide_eq_false. Qed.

Lemma includes_char_In (d : ascii) (s : str) :
  includes_char d s = true <-> In d s.
Proof.
  unfold includes_char. rewrite existsb_exists. split.
  - intros (x & Hx & E). apply Ascii.eqb_eq in E. now subst.
  - intros H. exists d. split; [assumption | apply Ascii.eqb_refl].
Qed.

Lemma includes_char_remove_all (d : ascii) (cls : ascii -> bool) (s : str) :
  cls d = false ->
  includes_char d (remove_all cls s) = includes_char d s.
Proof.
  intros Hd. apply eq_true_iff_eq. rewrite !includes_char_In.
  unfold remove_all. rewrite filter_In. split.
  - tauto.
  - intros H. split; [assumption | now rewrite Hd].
Qed.

Lemma startsWith_spec (p s : str) :
  startsWith p s = true <-> exists post, s = p ++ post.
Proof.
  revert s. induction p as [|a p IH]; intros s; simpl.
  - split; [intros _; now exists s | reflexivity].
  - destruct s as [|b s].
    + split; [discriminate | intros (post & E); discriminate].
    + rewrite andb_true_iff, Ascii.eqb_eq, IH. split.
      * intros (-> & post & ->). now exists post.
      * intros (post & E). injection E as -> ->. split; [reflexivity | now exists post].
Qed.

Lemma includes_spec (p s : str) :
  includes p s = true <-> exists pre post, s = pre ++ p ++ post.
Proof.
  induction s as [|c s IH]; simpl.
  - rewrite orb_false_r, startsWith_spec. split.
    + intros (post & E). now exists [], post.
    + intros (pre & post & E). destruct pre; simpl in E.
      * now exists post.
      * discriminate.
  - rewrite orb_true_iff, startsWith_spec, IH. split.
    + intros [(post & E) | (pre & post & E)].
      * now exists [], post.
      * exists (c :: pre), post. simpl. now rewrite E.
    + intros (pre & post & E). destruct pre as [|c' pre]; simpl in E.
      * left. now exists post.
      * right. injection E as -> E. now exists pre, post.
Qed.

(** Case folding, checked against the table of the letters: a code
    unit folds to a small letter exactly when it is that letter or its
    capital. *)

Lemma letter_ofb_spec (l c : ascii) : letter_ofb l c = true <-> letter_of l c.
Proof.
  unfold letter_ofb, letter_of.
  rewrite orb_true_iff, Ascii.eqb_eq, existsb_exists. split.
  - intros [E | ([a b] & Hin & E)]; [now left | right].
    apply andb_true_iff in E as [Ea Eb]. apply Ascii.eqb_eq in Ea, Eb.
    cbn in Ea, Eb. now subst.
  - intros [E | Hin]; [now left | right].
    exists (l, c). cbn. now rewrite !Ascii.eqb_refl.
Qed.

Lemma code_units_all (c : ascii) : In c code_units.
Proof.
  unfold code_units. rewrite <- (ascii_nat_embedding c).
  apply in_map, in_seq. pose proof (nat_ascii_bounded c). lia.
Qed.

Lemma fold_to_small (l c : ascii) :
  small l -> toLowerCase_char c = l <-> letter_of l c.
Proof.
  intros Hl. rewrite <- letter_ofb_spec, <- Ascii.eqb_eq.
  assert (Htable :
    forallb (fun c => forallb (fun l =>
               Bool.eqb (Ascii.eqb (toLowerCase_char c) l) (letter_ofb l c))
             small_letters) code_units = true)
    by (vm_compute; reflexivity).
  rewrite forallb_forall in Htable. specialize (Htable c (code_units_all c)).
  rewrite forallb_forall in Htable. specialize (Htable l Hl).
  apply Bool.eqb_prop in Htable. now rewrite Htable.
Qed.

Lemma fold_to_word (word w : str) :
  Forall small word -> toLowerCase w = word <-> Forall2 letter_of word w.
Proof.
  intros Hw. revert w. induction Hw as [|l word Hl _ IH]; intros w.
  - destruct w; simpl; split; intros H;
      solve [constructor | discriminate | inversion H | reflexivity].
  - destruct w as [|c w]; simpl.
    + split; intros H; [discriminate | inversion H].
    + split.
      * intros E. injection E as E1 E2. constructor.
        -- now apply fold_to_small.
        -- now apply IH.
      * intros H. inversion H; subst. f_equal.
        -- now apply fold_to_small.
        -- now apply IH.
Qed.

Lemma includes_lower_token (word s : str) :
  Forall small word ->
  includes word (toLowerCase s) = true <-> has_token word s.
Proof.
  intros Hw. rewrite includes_spec. unfold has_token. split.
  - intros (pre & post & E). unfold toLowerCase in E.
    apply map_eq_app in E as (l1 & l2 & -> & <- & E2).
    apply map_eq_app in E2 as (w & l3 & -> & E3 & <-).
    exists l1, w, l3. split; [reflexivity|]. now apply fold_to_word.
  - intros (pre & w & post & -> & H). apply fold_to_word in H; [|exact Hw].
    exists (toLowerCase pre), (toLowerCase post).
    unfold toLowerCase in *. now rewrite !map_app, H.
Qed.

Lemma payment_small : Forall small ("payment" : str).
Proof.
  apply List.Forall_forall. intros l Hl.
  assert (H : forallb (fun l => existsb (Ascii.eqb l) small_letters)
                      ("payment" : str) = true) by reflexivity.
  rewrite forallb_forall in H. specialize (H l Hl).
  apply existsb_exists in H as (x & Hx & E). apply Ascii.eqb_eq in E.
  now subst x.
Qed.

(** ** The tabular parser *)

Lemma infer_type_expense (amountStr description : str) :
  infer_type amountStr description = ("expense" : str) <->
  has_minus amountStr \/ has_token "payment" description.
Proof.
  unfold infer_type, has_minus.
  rewrite <- includes_char_In, <- (includes_lower_token _ _ payment_small),
    <- orb_true_iff.
  destruct (_ || _); cbn; split; intros H; try reflexivity; discriminate H.
Qed.

Lemma infer_type_income (amountStr description : str) :
  infer_type amountStr description = ("income" : str) <->
  ~ (has_minus amountStr \/ has_token "payment" description).
Proof.
  rewrite <- infer_type_expense. unfold infer_type.
  destruct (_ || _); cbn; split; intros H.
  - discriminate H.
  - now contradiction H.
  - intros H'. discriminate H'.
  - reflexivity.
Qed.

Lemma amount_string_minus (field : str) :
  has_minus (amount_string field) <-> has_minus field.
Proof.
  unfold has_minus, amount_string.
  rewrite <- !includes_char_In, includes_char_remove_all; reflexivity.
Qed.

Lemma parse_line_type Date_parse uid line t :
  parse_line Date_parse uid line = Parsed t ->
  cd_type t =
    infer_type (amount_string (nth 2 (split_fields line) []))
               (nth 1 (split_fields line) []).
Proof.
  unfold parse_line.
  destruct (3 <=? length (split_fields line))%nat; [|discriminate].
  destruct (Date_parse _); [|discriminate].
  destruct (isNaN _ || is_zero _); [discriminate|].
  intros E. injection E as <-. reflexivity.
Qed.

Lemma parse_loop Date_parse uid ls acc :
  fold_left (parse_step Date_parse uid) ls acc =
  acc ++ flat_map (accepted Date_parse uid) ls.
Proof.
  revert acc. induction ls as [|l ls IH]; intros acc; simpl.
  - now rewrite app_nil_r.
  - rewrite IH. unfold parse_step, accepted.
    destruct (parse_line Date_parse uid (trim l)); try reflexivity.
    now rewrite <- app_assoc.
Qed.

Lemma parseTabularData_accepted Date_parse text uid :
  parseTabularData Date_parse text uid =
  flat_map (accepted Date_parse uid) (data_lines text).
Proof. unfold parseTabularData. now rewrite parse_loop. Qed.

Lemma parsed_record_line Date_parse text uid t :
  In t (parseTabularData Date_parse text uid) <->
  exists line, In line (data_lines text) /\
               parse_line Date_parse uid (trim line) = Parsed t.
Proof.
  rewrite parseTabularData_accepted, in_flat_map. unfold accepted.
  split; intros (line & Hin & H); exists line; split; try assumption.
  - destruct (parse_line _ _ _); simpl in H; try contradiction.
    destruct H as [-> | []]. reflexivity.
  - rewrite H. now left.
Qed.

Lemma rejected_accepted Date_parse uid line :
  rejected Date_parse uid line = true -> accepted Date_parse uid line = [].
Proof.
  unfold rejected, accepted.
  destruct (parse_line Date_parse uid (trim line)); try reflexivity.
  discriminate.
Qed.

Lemma insertMany_length tds d :
  length (fst (Transaction_insertMany tds d)) = length tds.
Proof.
  revert d. induction tds as [|td tds IH]; intros d; simpl.
  - reflexivity.
  - specialize (IH (snd (Transaction_create td d))).
    destruct (Transaction_insertMany tds _) as [ts d2]. simpl in *.
    now rewrite IH.
Qed.

(** The import loop files every record either as processed or as an
    error, and an error always names one of the records it was given. *)
Lemma import_loop beyond uid ts st :
  let st' := fold_left (import_step beyond uid) ts st in
  (length (il_processed st') + length (il_errors st') =
   length (il_processed st) + length (il_errors st) + length ts)%nat /\
  (forall t msg, In (t, msg) (il_errors st') ->
                 In (t, msg) (il_errors st) \/ In t ts).
Proof.
  revert st. induction ts as [|t ts IH]; intros st; simpl.
  - split; [lia | auto].
  - destruct (IH (import_step beyond uid st t)) as [Hlen Herr].
    split.
    + rewrite Hlen. unfold import_step.
      destruct (import_category _ _ _ _ _) as [[c d']|e]; simpl;
        rewrite length_app; simpl; lia.
    + intros t' msg Hin. destruct (Herr _ _ Hin) as [H|H]; [|auto].
      unfold import_step in H.
      destruct (import_category _ _ _ _ _) as [[c d']|e]; simpl in H; [auto|].
      apply in_app_or in H as [H|[H|[]]]; [auto|].
      injection H as -> _. auto.
Qed.

(** C1 (as stated, refuted): a statement whose second line has a zero
    amount is imported with that line dropped and an empty error list;
    and for the single data line "not-a-date,X,10" the parser returns no
    record and the import fails as a whole, with no per-line error. *)
Lemma C1_rejected_line_leaves_no_error :
  let zero_line : str := "2024-01-05,Coffee,0" in
  let rows := ["Date,Description,Amount" : str; zero_line;
               "2024-01-06,Paycheck,2000" : str] in
  let bad := ["Date,Description,Amount" : str; "not-a-date,X,10" : str] in
  In zero_line (data_lines (lines rows)) /\
  rejected iso_date 1 zero_line = true /\
  (exists saved db',
     uploadTransactionHistory iso_date strict_engine (Some (statement rows))
       1 empty_db = (HistoryImported 1 [] saved, db')) /\
  parseTabularData iso_date (lines bad) 1 = [] /\
  fst (uploadTransactionHistory iso_date strict_engine (Some (statement bad))
         1 empty_db) =
  HistoryFailed "No valid transactions found in the uploaded file".
Proof.
  cbv zeta. split; [|split; [|split; [|split]]].
  - vm_compute. left. reflexivity.
  - vm_compute. reflexivity.
  - eexists. eexists. vm_compute. reflexivity.
  - vm_compute. reflexivity.
  - vm_compute. reflexivity.
Qed.

(** C1 (amended): a line the parser rejects is skipped without stopping
    the parse and leaves no trace: the parser returns the records of the
    accepted lines and nothing else, dropping a rejected line changes
    nothing for the others, and the error list of the import only holds
    records that were parsed.  When the date "not-a-date" is invalid, the
    single data line "not-a-date,X,10" yields no record. *)
Theorem C1_rejected_lines_skipped (Date_parse : str -> option Time)
  (beyond : str -> option (str -> bool)) (uid : N) :
  Date_parse "not-a-date" = None ->
  (forall text,
     parseTabularData Date_parse text uid =
     flat_map (accepted Date_parse uid) (data_lines text)) /\
  (forall text before line after,
     data_lines text = before ++ line :: after ->
     rejected Date_parse uid line = true ->
     parseTabularData Date_parse text uid =
     flat_map (accepted Date_parse uid) (before ++ after)) /\
  (forall file text db imported errors saved db',
     hf_text file = Ok text ->
     uploadTransactionHistory Date_parse beyond (Some file) uid db =
       (HistoryImported imported errors saved, db') ->
     (forall t msg, In (t, msg) errors ->
                    In t (parseTabularData Date_parse text uid)) /\
     (imported + length errors =
      length (parseTabularData Date_parse text uid))%nat) /\
  parseTabularData Date_parse
    (lines ["Date,Description,Amount" : str; "not-a-date,X,10" : str]) uid = [].
Proof.
  intros Hdate. split; [|split; [|split]].
  - intros text. apply parseTabularData_accepted.
  - intros text before line after Hlines Hrej.
    rewrite parseTabularData_accepted, Hlines, !flat_map_app. simpl.
    now rewrite (rejected_accepted _ _ _ Hrej).
  - intros file text d imported errors saved d' Htext.
    unfold uploadTransactionHistory.
    destruct (str_eqb (hf_mimetype file) _); [discriminate|].
    rewrite Htext.
    destruct (parseTabularData Date_parse text uid) as [|t0 ts] eqn:Hts;
      [discriminate|].
    rewrite <- Hts.
    pose proof (import_loop beyond uid (parseTabularData Date_parse text uid)
                  {| il_processed := []; il_errors := []; il_db := d |})
      as [Hlen Herr].
    simpl in Hlen, Herr.
    set (st := fold_left (import_step beyond uid) _ _) in *.
    pose proof (insertMany_length (il_processed st) (il_db st)) as Hsaved.
    destruct (Transaction_insertMany (il_processed st) (il_db st)) as [sv d2].
    simpl in Hsaved. intros E. injection E as <- <- <- <-.
    split.
    + intros t msg Hin. destruct (Herr _ _ Hin) as [[]|H]. exact H.
    + rewrite Hsaved. exact Hlen.
  - vm_compute in Hdate. vm_compute. rewrite Hdate. reflexivity.
Qed.

Lemma C1_rejected_lines_skipped_witness :
  parseTabularData iso_date
    (lines ["Date,Description,Amount" : str; "not-a-date,X,10" : str]) 1 = [].
Proof.
  apply (C1_rejected_lines_skipped iso_date strict_engine 1).
  vm_compute. reflexivity.
Defined.

(** C6: a data line the parser accepts yields a record whose type is
    'expense' exactly when the third field of the line holds a minus sign
    or the second field holds the word "payment" in any case, and 'income'
    otherwise; the parser returns no other records.  On the two-line
    example, whose dates are valid, it returns the expense of 45.20 in
    Groceries and the income of 2000 in Salary. *)
Theorem C6_type_inference (Date_parse : str -> option Time) (uid : N)
  (d1 d2 : Time) :
  Date_parse "2024-01-05" = Some d1 ->
  Date_parse "2024-01-06" = Some d2 ->
  (forall text line t,
     In line (data_lines text) ->
     parse_line Date_parse uid (trim line) = Parsed t ->
     let parts := split_fields (trim line) in
     let raw_amount := nth 2 parts [] in
     let description := nth 1 parts [] in
     In t (parseTabularData Date_parse text uid) /\
     (cd_type t = ("expense" : str) <->
      has_minus raw_amount \/ has_token "payment" description) /\
     (cd_type t = ("income" : str) <->
      ~ (has_minus raw_amount \/ has_token "payment" description))) /\
  (forall text t,
     In t (parseTabularData Date_parse text uid) ->
     exists line, In line (data_lines text) /\
                  parse_line Date_parse uid (trim line) = Parsed t) /\
  parseTabularData Date_parse example_statement uid =
    [ {| cd_userId := uid; cd_type := "expense";
         cd_amount := Num (226 # 5);
         cd_description := "Grocery Store"; cd_categoryName := "Groceries";
         cd_date := d1; cd_isImported := true |};
      {| cd_userId := uid; cd_type := "income";
         cd_amount := Num 2000;
         cd_description := "Paycheck"; cd_categoryName := "Salary";
         cd_date := d2; cd_isImported := true |} ].
Proof.
  intros H1 H2. split; [|split].
  - intros text line t Hl Hp. cbv zeta. split.
    + apply parsed_record_line. now exists line.
    + rewrite (parse_line_type _ _ _ _ Hp).
      rewrite infer_type_expense, infer_type_income, amount_string_minus.
      split; reflexivity.
  - intros text t Hin. now apply parsed_record_line.
  - vm_compute in H1, H2. vm_compute. rewrite H1, H2. reflexivity.
Qed.

Lemma C6_type_inference_witness :
  map (fun t => (cd_type t, cd_amount t, cd_categoryName t))
      (parseTabularData iso_date example_statement 1) =
  [ ("expense" : str, Num (226 # 5), "Groceries" : str);
    ("income" : str, Num 2000, "Salary" : str) ] /\
  In rent_payment (parseTabularData iso_date capital_statement 1) /\
  (has_minus "800" \/ has_token "payment" "RENT PAYMENT").
Proof.
  destruct (C6_type_inference iso_date 1 1704412800000%Z 1704499200000%Z)
    as (Hline & _ & E); [vm_compute; reflexivity | vm_compute; reflexivity |].
  split; [rewrite E; reflexivity|].
  destruct (Hline capital_statement "2024-01-07,RENT PAYMENT,800" rent_payment)
    as (Hin & Hexpense & _).
  - vm_compute. left. reflexivity.
  - vm_compute. reflexivity.
  - split; [exact Hin|]. apply Hexpense. reflexivity.
Defined.

(** ** Extraction *)

Lemma extract_textract_rejected tess text file buffer e :
  uf_buffer file = Ok buffer ->
  process text file = Rejects e ->
  extract tess text (Some ("textract" : str)) file =
  recover tess "textract" file Textract (None, Some e, [Textract]).
Proof.
  intros Hb Hp. unfold extract, primary. simpl engine_or_default.
  replace (str_eqb ("textract" : str) "tesseract") with false
    by (vm_compute; reflexivity).
  simpl service. now rewrite Hb, Hp.
Qed.

Lemma upload_extract_textract_rejected tess text file buffer e :
  uf_buffer file = Ok buffer ->
  process text file = Rejects e ->
  upload_extract tess text "true" (Some ("textract" : str)) file =
  recover tess "textract" file Textract (None, Some e, [Textract]).
Proof.
  intros Hb Hp. unfold upload_extract, primary. simpl engine_or_default.
  replace (str_eqb ("true" : str) "true") with true by (vm_compute; reflexivity).
  replace (str_eqb forceOcrEngine "tesseract") with false
    by (vm_compute; reflexivity).
  replace (str_eqb ("textract" : str) "tesseract") with false
    by (vm_compute; reflexivity).
  replace (str_eqb forceOcrEngine "textract") with true
    by (vm_compute; reflexivity).
  simpl. now rewrite Hb, Hp.
Qed.

Lemma extract_tesseract_rejected tess text file e :
  process tess file = Rejects e ->
  extract tess text (Some ("tesseract" : str)) file =
  recover tess "tesseract" file Tesseract (None, Some e, [Tesseract]).
Proof.
  intros Hp. unfold extract, primary. simpl engine_or_default.
  replace (str_eqb ("tesseract" : str) "tesseract") with true
    by (vm_compute; reflexivity).
  simpl service. now rewrite Hp.
Qed.

Lemma upload_extract_tesseract_rejected tess text file e :
  process tess file = Rejects e ->
  upload_extract tess text "true" (Some ("tesseract" : str)) file =
  recover tess "tesseract" file Tesseract (None, Some e, [Tesseract]).
Proof.
  intros Hp. unfold upload_extract, primary. simpl engine_or_default.
  replace (str_eqb ("true" : str) "true") with true by (vm_compute; reflexivity).
  replace (str_eqb forceOcrEngine "tesseract") with false
    by (vm_compute; reflexivity).
  replace (str_eqb ("tesseract" : str) "tesseract") with true
    by (vm_compute; reflexivity).
  simpl. now rewrite Hp.
Qed.

(** The [catch] block when the request named 'textract'. *)
Lemma recover_textract tess file e :
  let x := recover tess "textract" file Textract (None, Some e, [Textract]) in
  calls x = [Textract; Tesseract] /\
  invocations Tesseract (calls x) = 1%nat /\
  (forall e2, process tess file = Rejects e2 ->
     extractedData x = None /\
     processingError x =
       Some ("Primary OCR failed: " ++ message e ++
             ". Fallback also failed: " ++ message e2)) /\
  (forall d, process tess file = Resolves d ->
     extractedData x = d /\ processingError x = None).
Proof.
  unfold recover.
  replace (str_eqb ("textract" : str) "textract") with true
    by (vm_compute; reflexivity).
  cbn [andb].
  destruct (process tess file) as [d|e2] eqn:Hp; cbn.
  - split; [reflexivity|]. split; [reflexivity|]. split.
    + intros e' He. discriminate He.
    + intros d' Hd. injection Hd as <-. split; reflexivity.
  - split; [reflexivity|]. split; [reflexivity|]. split.
    + intros e' He. injection He as <-. split; reflexivity.
    + intros d' Hd. discriminate Hd.
Qed.

(** The [catch] block when the request named 'tesseract'. *)
Lemma recover_tesseract tess file e :
  recover tess "tesseract" file Tesseract (None, Some e, [Tesseract]) =
  {| extractedData := None; processingError := Some (message e);
     ocrService := Some Tesseract; calls := [Tesseract] |}.
Proof.
  unfold recover.
  replace (str_eqb ("tesseract" : str) "textract") with false
    by (vm_compute; reflexivity).
  reflexivity.
Qed.

(** C3: when the request names 'textract' and the Textract call fails,
    Tesseract is invoked once, after it, and a second failure leaves a
    message with both errors; when the request names 'tesseract' and the
    Tesseract call fails, no other invocation is made and the error is
    reported.  Both hold in [extractReceiptData] and in [uploadReceipt]. *)
Theorem C3_fallback_policy (tess text : OcrService) (file : UploadedFile)
  (buffer : str) (e : Exn) :
  uf_buffer file = Ok buffer ->
  (process text file = Rejects e ->
   forall x,
     x = extract tess text (Some ("textract" : str)) file \/
     x = upload_extract tess text "true" (Some ("textract" : str)) file ->
     calls x = [Textract; Tesseract] /\
     invocations Tesseract (calls x) = 1%nat /\
     (forall e2, process tess file = Rejects e2 ->
        extractedData x = None /\
        processingError x =
          Some ("Primary OCR failed: " ++ message e ++
                ". Fallback also failed: " ++ message e2)) /\
     (forall d, process tess file = Resolves d ->
        extractedData x = d /\ processingError x = None)) /\
  (process tess file = Rejects e ->
   (forall x,
      x = extract tess text (Some ("tesseract" : str)) file \/
      x = upload_extract tess text "true" (Some ("tesseract" : str)) file ->
      calls x = [Tesseract] /\
      invocations Textract (calls x) = 0%nat /\
      extractedData x = None /\
      processingError x = Some (message e)) /\
   extractReceiptData tess text (Some file) (Some ("tesseract" : str)) =
     (ExtractFailed (Some (message e)), [Tesseract])).
Proof.
  intros Hb. split.
  - intros Hp x [-> | ->].
    + rewrite (extract_textract_rejected _ _ _ _ _ Hb Hp).
      apply recover_textract.
    + rewrite (upload_extract_textract_rejected _ _ _ _ _ Hb Hp).
      apply recover_textract.
  - intros Hp. split.
    + intros x [-> | ->].
      * rewrite (extract_tesseract_rejected _ text _ _ Hp), recover_tesseract.
        repeat split.
      * rewrite (upload_extract_tesseract_rejected _ text _ _ Hp),
          recover_tesseract.
        repeat split.
    + unfold extractReceiptData.
      rewrite (extract_tesseract_rejected _ text _ _ Hp), recover_tesseract.
      reflexivity.
Qed.

Lemma C3_fallback_policy_witness :
  calls (extract (failing "offline engine down") (failing "cloud engine down")
           (Some ("textract" : str)) sample_file) = [Textract; Tesseract] /\
  calls (extract (failing "offline engine down") (failing "cloud engine down")
           (Some ("tesseract" : str)) sample_file) = [Tesseract].
Proof.
  destruct (C3_fallback_policy (failing "offline engine down")
              (failing "cloud engine down") sample_file "PNG"
              (Error "cloud engine down") eq_refl) as [Hcloud _].
  destruct (C3_fallback_policy (failing "offline engine down")
              (failing "cloud engine down") sample_file "PNG"
              (Error "offline engine down") eq_refl) as [_ Hoffline].
  split.
  - apply (Hcloud eq_refl). left. reflexivity.
  - apply (Hoffline eq_refl). left. reflexivity.
Defined.


Lemma isIn_engines (hint : str) :
  hint <> ("tesseract" : str) -> hint <> ("textract" : str) ->
  isIn ["tesseract" : str; "textract" : str] hint = false.
Proof.
  intros H1 H2. unfold isIn. cbn [existsb].
  apply str_eqb_neq in H1, H2. now rewrite H1, H2.
Qed.



(** ** Regular expressions of plain names *)

Lemma str_eqb_cons (a b : ascii) (x y : str) :
  str_eqb (a :: x) (b :: y) = Ascii.eqb a b && str_eqb x y.
Proof.
  apply eq_true_iff_eq.
  rewrite andb_true_iff, !str_eqb_eq, Ascii.eqb_eq. split.
  - intros E. injection E as -> ->. auto.
  - intros [-> ->]. reflexivity.
Qed.

Lemma literal_not_beyond (name : str) :
  RegExp.literal name = true -> existsb RegExp.beyond_char name = false.
Proof.
  unfold RegExp.literal. induction name as [|c r IH]; simpl; [reflexivity|].
  rewrite andb_true_iff. intros [Hc Hr]. rewrite (IH Hr), orb_false_r.
  unfold RegExp.literal_char in Hc.
  apply negb_true_iff in Hc. apply orb_false_iff in Hc as [Hc _].
  apply orb_false_iff in Hc as [Hc _]. exact Hc.
Qed.

Lemma parse_literal (name : str) :
  RegExp.literal name = true ->
  forall last acc,
    RegExp.parse name last acc = Some (rev acc ++ plain_pieces name).
Proof.
  unfold RegExp.literal. induction name as [|c r IH]; simpl; intros H last acc.
  - now rewrite app_nil_r.
  - apply andb_true_iff in H as [Hc Hr].
    unfold RegExp.literal_char in Hc.
    apply negb_true_iff in Hc. apply orb_false_iff in Hc as [Hc Hdot].
    apply orb_false_iff in Hc as [_ Hq].
    rewrite Hq, Hdot, (IH Hr). simpl. now rewrite <- app_assoc.
Qed.

Lemma matches_plain (name s : str) :
  RegExp.matches (plain_pieces name) s = same_name name s.
Proof.
  unfold same_name. revert s. induction name as [|c r IH]; intros s.
  - destruct s; reflexivity.
  - destruct s as [|d s]; [reflexivity|].
    cbn [plain_pieces map RegExp.matches RegExp.atom_matches].
    rewrite str_eqb_cons. f_equal. apply IH.
Qed.

Lemma find_ext {A} (f g : A -> bool) (l : list A) :
  (forall x, f x = g x) -> find f l = find g l.
Proof.
  intros E. induction l as [|x l IH]; simpl; [reflexivity|].
  now rewrite E, IH.
Qed.

Lemma find_snoc {A} (f : A -> bool) (l : list A) (x : A) :
  find f l = None ->
  find f (l ++ [x]) = if f x then Some x else None.
Proof.
  induction l as [|y l IH]; simpl; [reflexivity|].
  destruct (f y); [discriminate | exact IH].
Qed.

(** For a plain name the constructor does not throw and the expression
    tests equality of names up to case. *)
Lemma name_regex_plain beyond (name : str) :
  RegExp.literal name = true ->
  exists test, name_regex beyond name = Ok test /\
               forall s, test s = same_name name s.
Proof.
  intros H. unfold name_regex, RegExp.anchored_i.
  rewrite (literal_not_beyond _ H), (parse_literal _ H). simpl.
  eexists. split; [reflexivity|]. apply matches_plain.
Qed.

Lemma same_name_refl (a : str) : same_name a a = true.
Proof. apply str_eqb_refl. Qed.

(** ** Category resolution *)

Lemma given_plain (hint : option str) (name : str) :
  plain_hint hint = true -> given hint = Some name ->
  RegExp.literal name = true.
Proof.
  destruct hint as [[|c r]|]; simpl; intros H E; try discriminate.
  injection E as <-. exact H.
Qed.

Lemma receipt_category_plain beyond defaults hint uid d :
  plain_hint hint = true ->
  receipt_category beyond defaults hint None uid d =
  Ok (resolve_by_name defaults hint uid d).
Proof.
  intros Hplain. unfold receipt_category, resolve_by_name.
  destruct (given hint) as [name|] eqn:Hg.
  - destruct (name_regex_plain beyond name (given_plain _ _ Hplain Hg))
      as (test & -> & Htest).
    simpl. unfold Category_findOne.
    rewrite (find_ext _ (fun c => same_name name (cat_name c) &&
                                  in_scope uid c && expense_or_both c)).
    + destruct (find _ (categories d)); [reflexivity|].
      destruct (find _ (categories d)); reflexivity.
    + intros c. now rewrite Htest.
  - simpl. unfold Category_findOne.
    destruct (find _ (categories d)); reflexivity.
Qed.

Lemma import_category_plain beyond name type uid d :
  RegExp.literal name = true ->
  import_category beyond name type uid d =
  Ok (resolve_imported name type uid d).
Proof.
  intros Hplain. unfold import_category, resolve_imported.
  destruct (name_regex_plain beyond name Hplain) as (test & -> & Htest).
  simpl. unfold Category_findOne.
  rewrite (find_ext _ (fun c => same_name name (cat_name c) && in_scope uid c)).
  - destruct (find _ (categories d)); reflexivity.
  - intros c. now rewrite Htest.
Qed.

Lemma in_scope_owner (uid id : N) name type color icon :
  in_scope uid {| cat_id := id; cat_name := name; cat_type := type;
                  cat_userId := Some uid; cat_isDefault := false;
                  cat_color := color; cat_icon := icon |} = true.
Proof. unfold in_scope. simpl. now rewrite N.eqb_refl. Qed.

Lemma name_in_In (names : list str) (c : Category) :
  In (cat_name c) names -> name_in names c = true.
Proof.
  intros H. unfold name_in. apply existsb_exists.
  exists (cat_name c). split; [exact H | apply str_eqb_refl].
Qed.

Lemma resolve_by_name_stable defaults hint uid d c d1 :
  In ("Other Expenses" : str) defaults ->
  resolve_by_name defaults hint uid d = (c, d1) ->
  resolve_by_name defaults hint uid d1 = (c, d1) /\
  (categories d1 = categories d \/ categories d1 = categories d ++ [c]).
Proof.
  intros Hdef. unfold resolve_by_name.
  set (byname := match given hint with
                 | Some name => fun l =>
                     find (fun c => same_name name (cat_name c) &&
                                    in_scope uid c && expense_or_both c) l
                 | None => fun _ => None
                 end).
  assert (Hn : forall l, match given hint with
                 | Some name =>
                     find (fun c => same_name name (cat_name c) &&
                                    in_scope uid c && expense_or_both c) l
                 | None => None
                 end = byname l)
    by (intros l; unfold byname; destruct (given hint); reflexivity).
  rewrite !Hn.
  destruct (byname (categories d)) as [c0|] eqn:Hname.
  - intros E. injection E as <- <-. rewrite Hname. auto.
  - destruct (find _ (categories d)) as [c0|] eqn:Hdflt.
    + intros E. injection E as <- <-. rewrite Hname, Hdflt. auto.
    + unfold Category_create. intros E. injection E as <- <-.
      cbn [categories]. split; [|auto].
      set (c := Build_Category (next_id d) _ _ _ _ _ _).
      assert (Hc : name_in defaults c && in_scope uid c && expense_or_both c = true).
      { rewrite (name_in_In defaults c Hdef). unfold c.
        rewrite in_scope_owner. reflexivity. }
      assert (Hby : byname (categories d ++ [c]) = Some c
                    \/ byname (categories d ++ [c]) = None).
      { unfold byname in *. destruct (given hint) as [name|]; [|auto].
        rewrite (find_snoc _ _ _ Hname).
        match goal with |- context [if ?b then _ else _] => destruct b end;
          auto. }
      destruct Hby as [-> | ->]; [reflexivity|].
      now rewrite (find_snoc _ _ _ Hdflt), Hc.
Qed.

Lemma resolve_imported_stable name type uid d c d1 :
  resolve_imported name type uid d = (c, d1) ->
  resolve_imported name type uid d1 = (c, d1) /\
  (categories d1 = categories d \/ categories d1 = categories d ++ [c]).
Proof.
  unfold resolve_imported.
  destruct (find _ (categories d)) as [c0|] eqn:Hname.
  - intros E. injection E as <- <-. rewrite Hname. auto.
  - unfold Category_create. intros E. injection E as <- <-.
    cbn [categories]. split; [|auto].
    rewrite (find_snoc _ _ _ Hname). cbn [cat_name].
    now rewrite same_name_refl, in_scope_owner.
Qed.

Lemma find_none_out_of_scope (f : Category -> bool) uid (l : list Category) :
  (forall c, In c l -> in_scope uid c = false) ->
  (forall c, f c = true -> in_scope uid c = true) ->
  find f l = None.
Proof.
  intros Hout Hf. induction l as [|c l IH]; simpl; [reflexivity|].
  destruct (f c) eqn:E.
  - specialize (Hf c E). rewrite (Hout c) in Hf; [discriminate | now left].
  - apply IH. intros c' Hin. apply Hout. now right.
Qed.

(** C4 (as stated, refuted): for the hint "A+B" the expression
    [^A+B$] does not match the name "A+B", so two successive
    resolutions of an imported record create two categories, as does the
    import of a statement with two lines in that category; for the
    hint "+1" the constructor throws, so the receipt handlers obtain no
    category at all; and the import never tries the default names: with
    the shared 'Groceries' in scope it creates 'Misc', where the receipt
    handlers return 'Groceries'. *)
Lemma C4_hint_with_metacharacters :
  (exists c1 d1 c2 d2,
     import_category strict_engine "A+B" "expense" 1 empty_db = Ok (c1, d1) /\
     import_category strict_engine "A+B" "expense" 1 d1 = Ok (c2, d2) /\
     c1 <> c2 /\
     categories d2 = [c1; c2] /\
     cat_name c1 = cat_name c2) /\
  (exists saved d',
     uploadTransactionHistory iso_date strict_engine
       (Some (statement ["Date,Description,Amount,Category" : str;
                         "2024-01-05,Lunch,-5,A+B" : str;
                         "2024-01-06,Dinner,-7,A+B" : str])) 1 empty_db =
       (HistoryImported 2 [] saved, d') /\
     map cat_name (categories d') = ["A+B" : str; "A+B" : str]) /\
  receipt_category strict_engine upload_defaults (Some ("+1" : str)) None 1
    empty_db = Throw SyntaxError /\
  receipt_category strict_engine create_defaults (Some ("+1" : str)) None 1
    empty_db = Throw SyntaxError /\
  (exists c d1,
     import_category strict_engine "Misc" "expense" 1 groceries_db = Ok (c, d1) /\
     categories d1 = [groceries; c] /\
     receipt_category strict_engine upload_defaults (Some ("Misc" : str)) None 1
       groceries_db = Ok (groceries, groceries_db)).
Proof.
  split; [|split; [|split; [|split]]]; try (vm_compute; reflexivity).
  - do 4 eexists. split; [vm_compute; reflexivity|].
    split; [vm_compute; reflexivity|].
    split; [|split; vm_compute; reflexivity].
    intros E. apply (f_equal cat_id) in E. vm_compute in E. discriminate E.
  - do 2 eexists. split; vm_compute; reflexivity.
  - do 2 eexists. split; [vm_compute; reflexivity|].
    split; vm_compute; reflexivity.
Qed.

(** C4 (amended): for a name hint without regular-expression
    metacharacters, or without a hint, and no id hint, resolution always
    returns a category.  The receipt handlers take the category of the
    owner's scope named like the hint (up to case) among those fit for
    expenses, else the first stored category bearing a default name, else
    they create 'Other Expenses' for the owner; the import takes the
    category named like the hint, else creates one of that name and of
    the record's type.  A second resolution with the same arguments
    returns the category of the first and creates nothing, so at most one
    category is created, and exactly one when the owner's scope was
    empty. *)
Theorem C4_resolution_total_and_stable
  (beyond : str -> option (str -> bool)) (hint : option str)
  (name type : str) (uid : N) (d : DB) :
  plain_hint hint = true ->
  RegExp.literal name = true ->
  (forall defaults, defaults = upload_defaults \/ defaults = create_defaults ->
   exists c d1,
     resolve_by_name defaults hint uid d = (c, d1) /\
     receipt_category beyond defaults hint None uid d = Ok (c, d1) /\
     receipt_category beyond defaults hint None uid d1 = Ok (c, d1) /\
     (categories d1 = categories d \/ categories d1 = categories d ++ [c]) /\
     ((forall c0, In c0 (categories d) -> in_scope uid c0 = false) ->
      categories d1 = categories d ++ [c])) /\
  (exists c d1,
     resolve_imported name type uid d = (c, d1) /\
     import_category beyond name type uid d = Ok (c, d1) /\
     import_category beyond name type uid d1 = Ok (c, d1) /\
     (categories d1 = categories d \/ categories d1 = categories d ++ [c]) /\
     ((forall c0, In c0 (categories d) -> in_scope uid c0 = false) ->
      categories d1 = categories d ++ [c])).
Proof.
  intros Hhint Hname. split.
  - intros defaults Hdef.
    assert (Hoe : In ("Other Expenses" : str) defaults).
    { destruct Hdef as [-> | ->]; vm_compute; tauto. }
    destruct (resolve_by_name defaults hint uid d) as [c d1] eqn:E.
    exists c, d1.
    destruct (resolve_by_name_stable _ _ _ _ _ _ Hoe E) as [Hstable Hcats].
    split; [reflexivity|].
    split; [now rewrite receipt_category_plain, E|].
    split; [now rewrite receipt_category_plain, Hstable|].
    split; [exact Hcats|].
    intros Hout. unfold resolve_by_name in E.
    rewrite (find_none_out_of_scope
               (fun c => name_in defaults c && in_scope uid c && expense_or_both c)
               uid (categories d) Hout) in E.
    + destruct (given hint) as [n|].
      * rewrite (find_none_out_of_scope
                   (fun c => same_name n (cat_name c) && in_scope uid c &&
                             expense_or_both c) uid (categories d) Hout) in E.
        -- unfold Category_create in E. injection E as <- <-. reflexivity.
        -- intros c0 H0. apply andb_true_iff in H0 as [H0 _].
           apply andb_true_iff in H0 as [_ H0]. exact H0.
      * unfold Category_create in E. injection E as <- <-. reflexivity.
    + intros c0 H0. apply andb_true_iff in H0 as [H0 _].
      apply andb_true_iff in H0 as [_ H0]. exact H0.
  - destruct (resolve_imported name type uid d) as [c d1] eqn:E.
    exists c, d1.
    destruct (resolve_imported_stable _ _ _ _ _ _ E) as [Hstable Hcats].
    split; [reflexivity|].
    split; [now rewrite import_category_plain, E|].
    split; [now rewrite import_category_plain, Hstable|].
    split; [exact Hcats|].
    intros Hout. unfold resolve_imported in E.
    rewrite (find_none_out_of_scope
               (fun c => same_name name (cat_name c) && in_scope uid c)
               uid (categories d) Hout) in E.
    + unfold Category_create in E. injection E as <- <-. reflexivity.
    + intros c0 H0. apply andb_true_iff in H0 as [_ H0]. exact H0.
Qed.

Lemma C4_resolution_total_and_stable_witness :
  exists c d1,
    receipt_category strict_engine upload_defaults (Some ("Coffee" : str)) None 1
      empty_db = Ok (c, d1) /\
    receipt_category strict_engine upload_defaults (Some ("Coffee" : str)) None 1
      d1 = Ok (c, d1) /\
    categories d1 = [c].
Proof.
  destruct (C4_resolution_total_and_stable strict_engine (Some ("Coffee" : str))
              "Coffee" "expense" 1 empty_db eq_refl eq_refl) as [Hreceipt _].
  destruct (Hreceipt upload_defaults (or_introl eq_refl))
    as (c & d1 & _ & H1 & H2 & _ & H3).
  exists c, d1. split; [exact H1|]. split; [exact H2|].
  apply H3. intros c0 [].
Defined.

(** ** Filing receipts *)

Lemma find_holds {A} (f : A -> bool) (l : list A) (x : A) :
  find f l = Some x -> In x l /\ f x = true.
Proof. apply find_some. Qed.

(** C10 (the code at the failing input): with the id of the owner's
    income category as hint, both receipt handlers resolve to that
    category, which is not fit for expenses, and [uploadReceipt] files
    the receipt under it. *)
Lemma C10_id_hint_reaches_income_category :
  receipt_category strict_engine upload_defaults (Some ("Groceries" : str))
    (Some 7%N) 1 salary_db = Ok (salary, salary_db) /\
  receipt_category strict_engine create_defaults None (Some 7%N) 1 salary_db =
    Ok (salary, salary_db) /\
  expense_or_both salary = false /\
  exists t d',
    uploadReceipt strict_engine working working (Some sample_file) None
      (Some 7%N) None None 1 salary_db =
      (UploadCreated t sample_extracted, d', [Textract]) /\
    td_categoryId (tx_data t) = cat_id salary.
Proof.
  split; [vm_compute; reflexivity|].
  split; [vm_compute; reflexivity|].
  split; [vm_compute; reflexivity|].
  do 2 eexists. split; vm_compute; reflexivity.
Qed.

(** X24: the category the receipt handlers resolve to is of type
    'expense' or 'both' whenever it comes from the name lookup, the
    default-name lookup or the creation, whatever the name hint; this
    covers every request without an id hint.  Otherwise it is the stored
    category that the id hint names. *)
Theorem X24_category_without_id_hint_fits_expenses
  (beyond : str -> option (str -> bool)) (defaults : list str)
  (categoryName : option str) (categoryId : option N) (uid : N)
  (d d1 : DB) (c : Category) :
  receipt_category beyond defaults categoryName categoryId uid d = Ok (c, d1) ->
  In c (categories d1) /\
  (categoryId = None -> expense_or_both c = true) /\
  (expense_or_both c = true \/
   exists id, categoryId = Some id /\ cat_id c = id /\ In c (categories d)).
Proof.
  unfold receipt_category, Category_findOne.
  assert (Hrest : forall d1 c,
    match find (fun c => name_in defaults c && in_scope uid c &&
                         expense_or_both c) (categories d) with
    | Some c => Ok (c, d)
    | None => Ok (Category_create "Other Expenses" "expense"
                    (Some ("#6366F1" : str)) (Some ("shopping-bag" : str)) uid d)
    end = Ok (c, d1) ->
    In c (categories d1) /\ expense_or_both c = true).
  { intros d2 c2. destruct (find _ (categories d)) as [c0|] eqn:Hf.
    - intros E. injection E as <- <-.
      apply find_holds in Hf as [Hin Hf]. split; [exact Hin|].
      now apply andb_true_iff in Hf as [_ Hf].
    - unfold Category_create. intros E. injection E as <- <-.
      cbn [categories]. split; [|reflexivity].
      apply in_or_app. right. now left. }
  destruct categoryId as [id|].
  - assert (Hid : forall r,
      bind (Ok r) (fun category =>
        match (match category with
               | Some c => Some c
               | None => find (fun c => name_in defaults c && in_scope uid c &&
                                        expense_or_both c) (categories d)
               end) with
        | Some c => Ok (c, d)
        | None => Ok (Category_create "Other Expenses" "expense"
                        (Some ("#6366F1" : str)) (Some ("shopping-bag" : str)) uid d)
        end) = Ok (c, d1) ->
      r = find (fun c => (cat_id c =? id)%N && in_scope uid c) (categories d) ->
      In c (categories d1) /\
      (expense_or_both c = true \/
       exists id0, Some id = Some id0 /\ cat_id c = id0 /\ In c (categories d))).
    { intros r E Hr. simpl in E. destruct r as [c0|].
      - injection E as <- <-. symmetry in Hr.
        apply find_holds in Hr as [Hin Hf]. split; [exact Hin|]. right.
        exists id. split; [reflexivity|]. split; [|exact Hin].
        apply andb_true_iff in Hf as [Hf _]. now apply N.eqb_eq in Hf.
      - destruct (Hrest _ _ E) as [Hin Hexp]. auto. }
    intros E.
    assert (Hgoal : In c (categories d1) /\
      (expense_or_both c = true \/
       exists id0, Some id = Some id0 /\ cat_id c = id0 /\ In c (categories d))).
    { destruct (given categoryName); exact (Hid _ E eq_refl). }
    destruct Hgoal as [Hin Hor]. split; [exact Hin|].
    split; [discriminate | exact Hor].
  - destruct (given categoryName) as [name|].
    + destruct (name_regex beyond name) as [test|e]; simpl; [|discriminate].
      destruct (find (fun c => test (cat_name c) && in_scope uid c &&
                               expense_or_both c) (categories d))
        as [c0|] eqn:Hf; cbn.
      * intros E. injection E as <- <-.
        apply find_holds in Hf as [Hin Hf].
        apply andb_true_iff in Hf as [_ Hf]. auto.
      * intros E. destruct (Hrest _ _ E) as [Hin Hexp]. auto.
    + simpl. intros E. destruct (Hrest _ _ E) as [Hin Hexp]. auto.
Qed.

Lemma X24_category_without_id_hint_fits_expenses_witness :
  expense_or_both groceries = true.
Proof.
  apply (X24_category_without_id_hint_fits_expenses strict_engine upload_defaults
           (Some ("groceries" : str)) None 1 groceries_db groceries_db groceries).
  - vm_compute. reflexivity.
  - reflexivity.
Defined.

(** The check of [createTransaction]: a category of another type than the
    transaction's, and not 'both', is answered with a 400 and nothing is
    written. *)
Lemma createTransaction_rejects_conflict beyond body user env w c :
  lookup_category beyond body user (db w) = Ok (inl c) ->
  type_conflict c (b_type body) = true ->
  createTransaction beyond body user env w =
  (CategoryConflict (cat_name c) (b_type body), w).
Proof.
  intros Hc Ht. unfold createTransaction. now rewrite Hc, Ht.
Qed.

Lemma type_conflict_spec (c : Category) (t : str) :
  type_conflict c (JString t) = true <->
  cat_type c <> ("both" : str) /\ cat_type c <> t.
Proof.
  unfold type_conflict.
  rewrite andb_true_iff, !negb_true_iff, !str_eqb_neq. reflexivity.
Qed.

(** C2 (the code at the failing input): user 1 owns the income category
    'Salary'.  Given its id, [uploadReceipt] and
    [createTransactionFromReceipt] store an expense under it, where
    [createTransaction] refuses the same pairing. *)
Lemma C2_receipt_handlers_skip_type_check :
  (exists t d',
     uploadReceipt strict_engine working working (Some sample_file) None
       (Some 7%N) None None 1 salary_db =
       (UploadCreated t sample_extracted, d', [Textract]) /\
     transactions d' = [t] /\
     td_categoryId (tx_data t) = cat_id salary /\
     type_conflict salary (td_type (tx_data t)) = true) /\
  (exists t d',
     createTransactionFromReceipt iso_date strict_engine working working
       (Some sample_extracted) (Some sample_info) salary_by_id 1 salary_db =
       (FromReceiptCreated t, d') /\
     transactions d' = [t] /\
     td_categoryId (tx_data t) = cat_id salary /\
     type_conflict salary (td_type (tx_data t)) = true) /\
  createTransaction strict_engine salary_expense user1 env1
    {| db := salary_db; fs := temp_fs |} =
  (CategoryConflict "Salary" (JString "expense"),
   {| db := salary_db; fs := temp_fs |}).
Proof.
  split; [|split].
  - do 2 eexists. split; [vm_compute; reflexivity|].
    split; [reflexivity|]. split; reflexivity.
  - do 2 eexists. split; [vm_compute; reflexivity|].
    split; [reflexivity|]. split; reflexivity.
  - apply (createTransaction_rejects_conflict strict_engine salary_expense
             user1 env1 _ salary); reflexivity.
Qed.

(** ** Overrides *)

Lemma apply_overrides_fields Date_parse (o : Overrides) (td : TransactionData) :
  let td' := apply_overrides Date_parse o td in
  td_amount td' =
    (if truthy (ov_amount o) then JNumber (parseFloat_value (ov_amount o))
     else td_amount td) /\
  td_description td' =
    (if truthy (ov_description o) then ov_description o
     else td_description td) /\
  td_date td' =
    (if truthy (ov_date o) then JDate (new_Date Date_parse (ov_date o))
     else td_date td) /\
  td_receipt td' = td_receipt td.
Proof.
  unfold apply_overrides.
  destruct (truthy (ov_amount o)), (truthy (ov_description o)),
    (truthy (ov_date o)); repeat split.
Qed.

Lemma attach_file_info_fields info td td' :
  attach_file_info info td = Ok td' ->
  td_amount td' = td_amount td /\
  td_description td' = td_description td /\
  td_date td' = td_date td.
Proof.
  unfold attach_file_info. destruct (td_receipt td); [|discriminate].
  intros E. injection E as <-. repeat split.
Qed.

(** C5 (as stated, refuted): the override amount 0 is set and does not
    reach the transaction, which keeps the extracted total 12.5. *)
Lemma C5_zero_amount_override_is_dropped :
  let zero := {| ov_amount := JNumber (Num 0); ov_description := JUndefined;
                 ov_date := JUndefined; ov_categoryName := None;
                 ov_categoryId := None |} in
  exists t d',
    createTransactionFromReceipt iso_date strict_engine working working
      (Some sample_extracted) (Some sample_info) zero 1 groceries_db =
      (FromReceiptCreated t, d') /\
    td_amount (tx_data t) = ex_total sample_extracted /\
    td_amount (tx_data t) <> ov_amount zero.
Proof.
  cbv zeta. do 2 eexists. split; [vm_compute; reflexivity|].
  split; [reflexivity|]. cbn. intros E. discriminate E.
Qed.

(** C5 (amended): in the transaction that
    [createTransactionFromReceipt] creates, an override amount that is
    truthy (not absent, 0, NaN or the empty string) replaces the generated
    amount by its [parseFloat] value, which for a number is the number
    itself; a truthy description and a truthy date replace the generated
    ones likewise.  A falsy override leaves the generated value. *)
Theorem C5_truthy_overrides_win
  (Date_parse : str -> option Time) (beyond : str -> option (str -> bool))
  (tess text : OcrService) (data : Extracted) (info : ReceiptInfo)
  (o : Overrides) (uid : N) (d d' : DB) (t : Transaction) :
  createTransactionFromReceipt Date_parse beyond tess text
    (Some data) (Some info) o uid d = (FromReceiptCreated t, d') ->
  exists c generated,
    generateTransactionData (service_of_extracted tess text data)
      data uid (cat_id c) = Ok generated /\
    td_amount (tx_data t) =
      (if truthy (ov_amount o) then JNumber (parseFloat_value (ov_amount o))
       else td_amount generated) /\
    (forall n, ov_amount o = JNumber n -> truthy (JNumber n) = true ->
               td_amount (tx_data t) = ov_amount o) /\
    td_description (tx_data t) =
      (if truthy (ov_description o) then ov_description o
       else td_description generated) /\
    td_date (tx_data t) =
      (if truthy (ov_date o) then JDate (new_Date Date_parse (ov_date o))
       else td_date generated).
Proof.
  unfold createTransactionFromReceipt.
  destruct (receipt_category _ _ _ _ _ _) as [[c d1]|e]; [|discriminate].
  destruct (generateTransactionData _ data uid (cat_id c)) as [g|e] eqn:Hg;
    simpl; [|discriminate].
  destruct (attach_file_info info _) as [td|e] eqn:Hat; [|discriminate].
  unfold Transaction_create. intros E. injection E as <- <-.
  cbn [tx_data].
  destruct (attach_file_info_fields _ _ _ Hat) as (Ha & Hd & Hdt).
  destruct (apply_overrides_fields Date_parse o g) as (Ha' & Hd' & Hdt' & _).
  exists c, g. split; [exact Hg|].
  rewrite Ha, Hd, Hdt, Ha', Hd', Hdt'.
  split; [reflexivity|]. split; [|split; reflexivity].
  intros n Hn Ht. rewrite Hn.
  change (truthy (JNumber n)) with
    (match n with NaN => false | Inf _ => true
                | Num q => negb (Qeq_bool q 0) end).
  rewrite Ht. reflexivity.
Qed.

Lemma C5_truthy_overrides_win_witness :
  let o := {| ov_amount := JString "19.99"; ov_description := JString "Lunch";
              ov_date := JString "2024-01-07"; ov_categoryName := None;
              ov_categoryId := None |} in
  exists t d',
    createTransactionFromReceipt iso_date strict_engine working working
      (Some sample_extracted) (Some sample_info) o 1 groceries_db =
      (FromReceiptCreated t, d') /\
    td_amount (tx_data t) = JNumber (Num (1999 # 100)) /\
    td_description (tx_data t) = JString "Lunch".
Proof.
  cbv zeta. do 2 eexists. split; [vm_compute; reflexivity|].
  match goal with
  | |- td_amount (tx_data ?t) = _ /\ _ =>
      destruct (C5_truthy_overrides_win iso_date strict_engine working working
                  sample_extracted sample_info
                  {| ov_amount := JString "19.99"; ov_description := JString "Lunch";
                     ov_date := JString "2024-01-07"; ov_categoryName := None;
                     ov_categoryId := None |} 1 groceries_db
                  (snd (Transaction_create (tx_data t) groceries_db)) t
                  ltac:(vm_compute; reflexivity))
        as (c & g & _ & Ha & _ & Hd & _)
  end.
  split; [rewrite Ha | rewrite Hd]; vm_compute; reflexivity.
Defined.

(** ** Promotion of a temp receipt file *)

Lemma permanent_name_not_temp (env : Env) (originalName : str) (dir : Path) :
  startsWith "temp-receipt-"
    (List.last (dir ++ [permanentFilename env originalName]) []) = false.
Proof. rewrite last_last. reflexivity. Qed.

Lemma mkdirSync_files (p : Path) (f f' : FS) :
  mkdirSync p f = Ok f' -> files f' = files f.
Proof.
  unfold mkdirSync. destruct (existsb _ _); [discriminate|].
  intros E. injection E as <-. reflexivity.
Qed.

(** What a successful promotion did. *)
Lemma promote_succeeded info env f name path f1 :
  promoteReceiptFile info env f = (Ok (name, path), f1) ->
  exists tempPath originalName content,
    rf_tempPath info = Some tempPath /\
    rf_originalName info = Some originalName /\
    name = permanentFilename env originalName /\
    path = permanentDir tempPath ++ [name] /\
    files f !! tempPath = Some content /\
    files f1 = <[path := content]> (delete tempPath (files f)) /\
    is_dir (permanentDir tempPath) f1 = true.
Proof.
  unfold promoteReceiptFile.
  destruct (rf_tempPath info) as [tempPath|]; [|discriminate].
  destruct (if existsSync _ f then Ok f else mkdirSync _ f) as [f0|e] eqn:Hdir;
    [|discriminate].
  destruct (rf_originalName info) as [originalName|]; [|discriminate].
  assert (Hfiles : files f0 = files f).
  { destruct (existsSync _ f).
    - injection Hdir as <-. reflexivity.
    - exact (mkdirSync_files _ _ _ Hdir). }
  unfold renameSync.
  destruct (files f0 !! tempPath) as [content|] eqn:Hsrc; [|discriminate].
  unfold dirname. rewrite removelast_last.
  destruct (is_dir (permanentDir tempPath) f0) eqn:Hd; cbn [negb];
    [|discriminate].
  destruct (bool_decide _); [discriminate|].
  intros E. injection E as <- <- <-.
  exists tempPath, originalName, content.
  rewrite <- Hfiles. repeat split; try assumption; reflexivity.
Qed.

(** C9: once a handle issued by the temp storage has been promoted, a
    second promotion of the same handle fails with ENOENT, whatever name
    it would have generated, and leaves the file system as it was: the
    file of the first promotion is still there with the content of the
    temp file, and the transaction of the second request is created
    without a receipt. *)
Theorem C9_second_promotion_fails (info : ReceiptFileInfo) (env1 env2 : Env)
  (f f1 : FS) (name1 : str) (path1 : Path) :
  is_temp_handle info = true ->
  promoteReceiptFile info env1 f = (Ok (name1, path1), f1) ->
  promoteReceiptFile info env2 f1 = (Throw ENOENT, f1) /\
  (exists tempPath content,
     rf_tempPath info = Some tempPath /\
     files f !! tempPath = Some content /\
     files f1 !! path1 = Some content /\
     files f1 !! tempPath = None) /\
  (forall body td,
     b_receiptFileInfo body = Some info ->
     with_receipt body env2 f1 td = (td, f1)).
Proof.
  intros Htemp Hfirst.
  destruct (promote_succeeded _ _ _ _ _ _ Hfirst)
    as (tempPath & originalName & content & Hp & Ho & -> & -> & Hsrc & Hf1 & Hdir).
  assert (Hne : permanentDir tempPath ++ [permanentFilename env1 originalName]
                <> tempPath).
  { intros E. unfold is_temp_handle in Htemp. rewrite Hp, <- E in Htemp.
    rewrite permanent_name_not_temp in Htemp. discriminate. }
  assert (Hgone : files f1 !! tempPath = None).
  { rewrite Hf1, lookup_insert_ne by exact Hne. apply lookup_delete_eq. }
  assert (Hsecond : promoteReceiptFile info env2 f1 = (Throw ENOENT, f1)).
  { unfold promoteReceiptFile. rewrite Hp, Ho.
    unfold existsSync. rewrite Hdir, orb_true_r.
    unfold renameSync. now rewrite Hgone. }
  split; [exact Hsecond|]. split.
  - exists tempPath, content. repeat split; try assumption.
    rewrite Hf1. apply lookup_insert_eq.
  - intros body td Hb. unfold with_receipt. rewrite Hb, Hsecond.
    destruct (b_receiptData body); reflexivity.
Qed.

Lemma C9_second_promotion_fails_witness :
  let f1 := snd (promoteReceiptFile temp_handle env1 temp_fs) in
  promoteReceiptFile temp_handle env2 f1 = (Throw ENOENT, f1).
Proof.
  cbv zeta.
  apply (C9_second_promotion_fails temp_handle env1 env2 temp_fs _
           ("receipt-1704448800000-123456789.png" : str)
           ["srv" : str; "uploads" : str; "receipts" : str;
            "receipt-1704448800000-123456789.png" : str]).
  - reflexivity.
  - vm_compute. reflexivity.
Defined.

(** ** Creating a transaction with a receipt *)

Lemma set_receipt_base body user env c r :
  set_receipt None (set_receipt (Some r) (base_data body user env c)) =
  base_data body user env c.
Proof. reflexivity. Qed.

(** C8: when the category passes the checks and the move of the temp file
    fails, for whatever reason, [createTransaction] still answers 201:
    the transaction written is the one prepared before the move, without
    a receipt; where the move succeeds the transaction is the same one
    with the receipt attached, all other fields equal. *)
Theorem C8_move_failure_does_not_block
  (beyond : str -> option (str -> bool)) (body : CreateBody) (user : User)
  (env : Env) (w : World) (category : Category) (info : ReceiptFileInfo)
  (data : ReceiptData) (e : Exn) (f' : FS) :
  lookup_category beyond body user (db w) = Ok (inl category) ->
  type_conflict category (b_type body) = false ->
  b_receiptFileInfo body = Some info ->
  b_receiptData body = Some data ->
  promoteReceiptFile info env (fs w) = (Throw e, f') ->
  let base := base_data body user env category in
  createTransaction beyond body user env w =
    (Created {| tx_id := next_id (db w); tx_data := base |},
     {| db := snd (Transaction_create base (db w)); fs := f' |}) /\
  td_receipt base = None /\
  (forall f2 f2' name path,
     promoteReceiptFile info env f2 = (Ok (name, path), f2') ->
     exists receipt,
       let full := set_receipt (Some receipt) base in
       createTransaction beyond body user env {| db := db w; fs := f2 |} =
         (Created {| tx_id := next_id (db w); tx_data := full |},
          {| db := snd (Transaction_create full (db w)); fs := f2' |}) /\
       set_receipt None full = base).
Proof.
  intros Hc Ht Hi Hd Hfail. cbv zeta. split; [|split].
  - unfold createTransaction, with_receipt.
    rewrite Hc, Ht, Hi, Hd, Hfail. reflexivity.
  - reflexivity.
  - intros f2 f2' name path Hok.
    exists (receipt_of info data env name path). split; [|reflexivity].
    unfold createTransaction, with_receipt. cbn [db fs].
    rewrite Hc, Ht, Hi, Hd, Hok. reflexivity.
Qed.

Lemma C8_move_failure_does_not_block_witness :
  exists t w',
    createTransaction strict_engine (expense_body (Some temp_handle)) user1 env1
      {| db := groceries_db; fs := bare_fs |} = (Created t, w') /\
    td_receipt (tx_data t) = None /\
    transactions (db w') = [t].
Proof.
  destruct (C8_move_failure_does_not_block strict_engine
              (expense_body (Some temp_handle)) user1 env1
              {| db := groceries_db; fs := bare_fs |} groceries temp_handle
              sample_receipt_data ENOENT
              (snd (promoteReceiptFile temp_handle env1 bare_fs)))
    as (Hcreate & Hnone & _).
  - reflexivity.
  - reflexivity.
  - reflexivity.
  - reflexivity.
  - vm_compute. reflexivity.
  - do 2 eexists. split; [exact Hcreate|]. split; reflexivity.
Defined.

(** * Further properties *)

(** ** Records of the tabular parser *)

Lemma abs_positive (x : JSNum) :
  isNaN (JS.abs x) || is_zero (JS.abs x) = false ->
  positive_amount (JS.abs x).
Proof.
  destruct x as [| neg | q]; simpl; try discriminate; [reflexivity|].
  intros H. destruct (Qeq_bool (Qabs q) 0) eqn:E; [discriminate|].
  apply Qeq_bool_neq in E.
  destruct (Qle_lt_or_eq _ _ (Qabs_nonneg q)) as [Hlt | Heq]; [exact Hlt|].
  exfalso. apply E. symmetry. exact Heq.
Qed.

Lemma parse_line_amount Date_parse uid line t :
  parse_line Date_parse uid line = Parsed t ->
  positive_amount (cd_amount t) /\ cd_userId t = uid /\ cd_isImported t = true.
Proof.
  unfold parse_line.
  destruct (3 <=? length (split_fields line))%nat; [|discriminate].
  destruct (Date_parse _); [|discriminate].
  destruct (isNaN _ || is_zero _) eqn:E; [discriminate|].
  intros H. injection H as <-. simpl. split; [|split; reflexivity].
  apply abs_positive. exact E.
Qed.

Lemma parsed_records Date_parse text uid t :
  In t (parseTabularData Date_parse text uid) ->
  positive_amount (cd_amount t) /\ cd_userId t = uid /\
  cd_isImported t = true.
Proof.
  intros Hin. apply parsed_record_line in Hin as (line & _ & Hp).
  exact (parse_line_amount _ _ _ _ Hp).
Qed.

(** X1: whatever the statement, the amount of every record the parser
    returns is a magnitude above zero (possibly Infinity), never NaN, zero
    or negative; the record carries the importing user and the imported
    flag. *)
Theorem X1_records_have_positive_amounts (Date_parse : str -> option Time)
  (text : str) (uid : N) :
  Forall (fun t => positive_amount (cd_amount t) /\ cd_userId t = uid /\
                   cd_isImported t = true)
         (parseTabularData Date_parse text uid).
Proof.
  apply List.Forall_forall. intros t Hin.
  exact (parsed_records _ _ _ _ Hin).
Qed.

Lemma trim_nil : trim [] = [].
Proof. reflexivity. Qed.

(** X2: the first non-blank line is never read as data.  A readable
    statement that is no PDF and has at most one non-blank line - an
    empty file, a lone header, a lone data row - fails with 'No valid
    transactions found' and leaves the store as it was. *)
Theorem X2_import_needs_a_line_after_the_first
  (Date_parse : str -> option Time) (beyond : str -> option (str -> bool))
  (f : HistoryFile) (text : str) (uid : N) (d : DB) :
  hf_text f = Ok text ->
  hf_mimetype f <> ("application/pdf" : str) ->
  (length (nonblank_lines text) <= 1)%nat ->
  parseTabularData Date_parse text uid = [] /\
  uploadTransactionHistory Date_parse beyond (Some f) uid d =
    (HistoryFailed "No valid transactions found in the uploaded file", d).
Proof.
  intros Ht Hm Hl.
  assert (Hp : parseTabularData Date_parse text uid = []).
  { unfold parseTabularData.
    destruct (nonblank_lines text) as [|l [|l' ls]]; simpl in *;
      try reflexivity; lia. }
  split; [exact Hp|].
  unfold uploadTransactionHistory.
  apply str_eqb_neq in Hm. rewrite Hm, Ht, Hp. reflexivity.
Qed.

Lemma X2_import_needs_a_line_after_the_first_witness :
  uploadTransactionHistory iso_date strict_engine
    (Some (statement ["2024-01-05,Coffee,-4.50,Food" : str])) 1 groceries_db =
  (HistoryFailed "No valid transactions found in the uploaded file", groceries_db).
Proof.
  apply (X2_import_needs_a_line_after_the_first iso_date strict_engine
           (statement ["2024-01-05,Coffee,-4.50,Food" : str])
           ("2024-01-05,Coffee,-4.50,Food" : str) 1 groceries_db).
  - reflexivity.
  - intros E. vm_compute in E. discriminate E.
  - vm_compute. lia.
Defined.

(** ** Fields of a comma-separated line *)

Lemma split_length (d : ascii) (s : str) :
  length (split d s) = S (occurrences d s).
Proof.
  unfold occurrences. induction s as [|c r IH]; simpl; [reflexivity|].
  destruct (Ascii.eqb c d); simpl.
  - now rewrite IH.
  - destruct (split d r) as [|f fs]; simpl in *; [discriminate | exact IH].
Qed.

Lemma split_fields_free (d : ascii) (s : str) :
  Forall (fun f => ~ In d f) (split d s).
Proof.
  induction s as [|c r IH]; simpl.
  - constructor; [intros [] | constructor].
  - destruct (Ascii.eqb c d) eqn:E.
    + constructor; [intros [] | exact IH].
    + destruct (split d r) as [|f fs]; [constructor; [|constructor]|].
      * intros [-> | []]. now rewrite Ascii.eqb_refl in E.
      * inversion IH as [|? ? Hf Hfs]; subst. constructor; [|exact Hfs].
        intros [-> | H]; [now rewrite Ascii.eqb_refl in E | exact (Hf H)].
Qed.

Lemma trimStart_In (c : ascii) (s : str) : In c (trimStart s) -> In c s.
Proof.
  induction s as [|a r IH]; simpl; [tauto|].
  destruct (is_ws a); simpl; auto.
Qed.

Lemma trim_In (c : ascii) (s : str) : In c (trim s) -> In c s.
Proof.
  unfold trim, trimEnd. intros H.
  apply in_rev in H. apply trimStart_In in H. apply in_rev in H.
  now apply trimStart_In.
Qed.

(** X3: a line that holds a comma is cut at every comma, quoted or not:
    it has one field more than it has commas, and no field holds a comma
    or a double quote. *)
Theorem X3_comma_line_is_cut_at_every_comma (line : str) :
  includes_char "," line = true ->
  length (split_fields line) = S (occurrences "," line) /\
  Forall (fun p => ~ In ","%char p /\ ~ In dquote p) (split_fields line).
Proof.
  intros H. unfold split_fields. rewrite H. split.
  - now rewrite length_map, split_length.
  - apply List.Forall_map.
    eapply List.Forall_impl; [|apply (split_fields_free "," line)].
    intros f Hf. unfold remove_all. split.
    + intros Hin. apply filter_In in Hin as [Hin _]. apply trim_In in Hin.
      exact (Hf Hin).
    + intros Hin. apply filter_In in Hin as [_ Hq].
      now rewrite Ascii.eqb_refl in Hq.
Qed.

Lemma X3_comma_line_is_cut_at_every_comma_witness :
  length (split_fields quoted_line) = 4%nat.
Proof.
  rewrite (proj1 (X3_comma_line_is_cut_at_every_comma quoted_line eq_refl)).
  reflexivity.
Defined.

(** ** What an import writes *)

Lemma import_category_result beyond name type uid d c d' :
  import_category beyond name type uid d = Ok (c, d') ->
  In c (categories d') /\ in_scope uid c = true /\
  transactions d' = transactions d /\
  (d' = d \/ (categories d' = categories d ++ [c] /\ cat_userId c = Some uid)).
Proof.
  unfold import_category.
  destruct (name_regex beyond name) as [test|e]; simpl; [|discriminate].
  unfold Category_findOne.
  destruct (find _ (categories d)) as [c0|] eqn:Hf.
  - intros E. injection E as <- <-. apply find_holds in Hf as [Hin Hf].
    apply andb_true_iff in Hf as [_ Hs]. auto.
  - unfold Category_create. intros E. injection E as <- <-. cbn.
    split; [apply in_or_app; right; now left|].
    split; [unfold in_scope; cbn; now rewrite N.eqb_refl|]. auto.
Qed.

Lemma imported_for_mono uid d d' new td :
  categories d' = categories d ++ new ->
  imported_for uid d td -> imported_for uid d' td.
Proof.
  intros Hc (Hu & Hi & Hr & c & Hin & Hid & Hs).
  repeat split; try assumption. exists c. rewrite Hc.
  split; [apply in_or_app; now left | auto].
Qed.

Lemma import_loop_effects beyond uid ts st :
  Forall (fun t => cd_userId t = uid /\ cd_isImported t = true) ts ->
  Forall (imported_for uid (il_db st)) (il_processed st) ->
  let st' := fold_left (import_step beyond uid) ts st in
  transactions (il_db st') = transactions (il_db st) /\
  Forall (imported_for uid (il_db st')) (il_processed st') /\
  exists new,
    categories (il_db st') = categories (il_db st) ++ new /\
    Forall (fun c => cat_userId c = Some uid) new /\
    (length new + length (il_processed st) <= length (il_processed st'))%nat.
Proof.
  revert st. induction ts as [|t ts IH]; intros st Hts Hst; simpl.
  - split; [reflexivity|]. split; [exact Hst|].
    exists []. rewrite app_nil_r. repeat split; [constructor | simpl; lia].
  - apply List.Forall_cons_iff in Hts as [[Hu Hi] Hts'].
    destruct (import_category beyond (cd_categoryName t) (cd_type t)
                uid (il_db st)) as [[c d1]|e] eqn:Hc.
    + destruct (import_category_result _ _ _ _ _ _ _ Hc)
        as (Hin & Hs & Htx & Hgrow).
      assert (Hcats : exists one, categories d1 = categories (il_db st) ++ one /\
                Forall (fun c => cat_userId c = Some uid) one /\
                (length one <= 1)%nat).
      { destruct Hgrow as [-> | [Hcat Hown]].
        - exists []. rewrite app_nil_r. repeat split; [constructor | simpl; lia].
        - exists [c]. repeat split; [exact Hcat | | simpl; lia].
          constructor; [exact Hown | constructor]. }
      destruct Hcats as (one & Hone & Hown & Hlen).
      set (st1 := {| il_processed := il_processed st ++
                                       [candidate_data t (cat_id c)];
                     il_errors := il_errors st; il_db := d1 |}).
      assert (Hstep : import_step beyond uid st t = st1)
        by (unfold import_step; now rewrite Hc).
      rewrite Hstep.
      destruct (IH st1 Hts') as (Htx' & Hall & new & Hnew & Hnown & Hnlen).
      { unfold st1. cbn [il_db il_processed]. apply Forall_app. split.
        - eapply List.Forall_impl; [|exact Hst].
          intros td. apply (imported_for_mono _ _ _ _ _ Hone).
        - constructor; [|constructor].
          unfold imported_for, candidate_data. cbn.
          repeat split; try assumption; try reflexivity. now exists c. }
      cbn [st1 il_db il_processed] in Htx', Hnew, Hnlen.
      split; [now rewrite Htx'|]. split; [exact Hall|].
      exists (one ++ new). rewrite Hnew, Hone, <- app_assoc.
      split; [reflexivity|]. split; [apply Forall_app; now split|].
      rewrite length_app in *. cbn [length] in Hnlen. lia.
    + set (st1 := {| il_processed := il_processed st;
                     il_errors := il_errors st ++ [(t, message e)];
                     il_db := il_db st |}).
      assert (Hstep : import_step beyond uid st t = st1)
        by (unfold import_step; now rewrite Hc).
      rewrite Hstep.
      destruct (IH st1 Hts' Hst) as (Htx' & Hall & new & Hnew & Hnown & Hnlen).
      cbn [st1 il_db il_processed] in Htx', Hnew, Hnlen.
      split; [exact Htx'|]. split; [exact Hall|].
      exists new. auto.
Qed.

Lemma insertMany_effects tds d ts d' :
  Transaction_insertMany tds d = (ts, d') ->
  transactions d' = transactions d ++ ts /\
  categories d' = categories d /\
  map tx_data ts = tds.
Proof.
  revert d ts d'. induction tds as [|td tds IH]; intros d ts d'; simpl.
  - intros E. injection E as <- <-. now rewrite app_nil_r.
  - destruct (Transaction_insertMany tds _) as [ts1 d2] eqn:E1.
    intros E. injection E as <- <-.
    destruct (IH _ _ _ E1) as (Ht & Hc & Hm). cbn in Ht, Hc.
    rewrite Ht, Hc, <- app_assoc. cbn. rewrite Hm. auto.
Qed.

(** X4: an import that is answered with 201 only adds to the store.  The
    transactions it saves are appended in order; each belongs to the
    importing user, is flagged as imported, has no receipt and refers to
    a category of the resulting store that the user may use.  The
    categories it creates, at most one per saved transaction, belong to
    the user; no stored document is changed or removed. *)
Theorem X4_import_only_appends (Date_parse : str -> option Time)
  (beyond : str -> option (str -> bool)) (file : option HistoryFile)
  (uid : N) (d d' : DB) (imported : nat) (errors : list (Candidate * str))
  (saved : list Transaction) :
  uploadTransactionHistory Date_parse beyond file uid d =
    (HistoryImported imported errors saved, d') ->
  imported = length saved /\
  transactions d' = transactions d ++ saved /\
  Forall (fun t => imported_for uid d' (tx_data t)) saved /\
  exists new,
    categories d' = categories d ++ new /\
    Forall (fun c => cat_userId c = Some uid) new /\
    (length new <= length saved)%nat.
Proof.
  unfold uploadTransactionHistory.
  destruct file as [f|]; [|discriminate].
  destruct (str_eqb (hf_mimetype f) _); [discriminate|].
  destruct (hf_text f) as [text|e]; [|discriminate].
  assert (Hrec : Forall (fun t => positive_amount (cd_amount t) /\
                                  cd_userId t = uid /\ cd_isImported t = true)
                        (parseTabularData Date_parse text uid))
    by (apply List.Forall_forall; intros t0 Ht0;
        exact (parsed_records _ _ _ _ Ht0)).
  destruct (parseTabularData Date_parse text uid) as [|t0 ts] eqn:Hts;
    [discriminate|].
  rewrite <- Hts in *. clear Hts t0 ts.
  set (st0 := {| il_processed := []; il_errors := []; il_db := d |}).
  destruct (import_loop_effects beyond uid
              (parseTabularData Date_parse text uid) st0)
    as (Htx & Hall & new & Hnew & Hown & Hlen).
  { eapply List.Forall_impl; [|exact Hrec]. intros t (_ & Hu & Hi). auto. }
  { constructor. }
  set (st := fold_left (import_step beyond uid) _ st0) in *.
  destruct (Transaction_insertMany (il_processed st) (il_db st))
    as [sv d2] eqn:Hins.
  destruct (insertMany_effects _ _ _ _ Hins) as (Ht2 & Hc2 & Hm).
  intros E. injection E as <- <- <- <-.
  cbn [il_db il_processed length] in *.
  split; [reflexivity|]. split; [now rewrite Ht2, Htx|]. split.
  - rewrite <- Hm in Hall.
    apply (proj1 (List.Forall_map tx_data _ sv)) in Hall.
    eapply List.Forall_impl; [|exact Hall]. intros t.
    apply (imported_for_mono uid (il_db st) d2 []).
    now rewrite app_nil_r.
  - exists new. rewrite Hc2. split; [exact Hnew|]. split; [exact Hown|].
    rewrite <- (length_map tx_data sv), Hm. lia.
Qed.

Lemma X4_import_only_appends_witness :
  match uploadTransactionHistory iso_date strict_engine
          (Some (statement ["Date,Description,Amount,Category" : str;
                            "2024-01-05,Grocery Store,-45.20,Groceries" : str;
                            "2024-01-06,Paycheck,2000,Salary" : str]))
          1 groceries_db with
  | (HistoryImported imported _ saved, d') =>
      imported = length saved /\
      transactions d' = transactions groceries_db ++ saved
  | _ => False
  end.
Proof.
  destruct (uploadTransactionHistory _ _ _ _ _) as [[| m |n errs saved] d']
    eqn:E; try (vm_compute in E; discriminate E).
  destruct (X4_import_only_appends _ _ _ _ _ _ _ _ _ E) as (Hn & Ht & _).
  split; assumption.
Defined.

(** X5: an import that has no record to work on - no file, a PDF, an
    unreadable file, a text without a valid record - is answered with an
    error, never with 201, and writes nothing: it fails before the first
    access to the store. *)
Theorem X5_failed_import_writes_nothing (Date_parse : str -> option Time)
  (beyond : str -> option (str -> bool)) (file : option HistoryFile)
  (uid : N) (d : DB) :
  nothing_to_import Date_parse uid file ->
  exists r,
    uploadTransactionHistory Date_parse beyond file uid d = (r, d) /\
    forall imported errors saved, r <> HistoryImported imported errors saved.
Proof.
  unfold nothing_to_import, uploadTransactionHistory.
  destruct file as [f|];
    [|intros _; eexists; split; [reflexivity | discriminate]].
  destruct (str_eqb (hf_mimetype f) _) eqn:Hpdf;
    [intros _; eexists; split; [reflexivity | discriminate]|].
  apply str_eqb_neq in Hpdf. intros [Hp | Hp]; [contradiction|].
  destruct (hf_text f) as [text|e];
    [|eexists; split; [reflexivity | discriminate]].
  rewrite Hp. eexists; split; [reflexivity | discriminate].
Qed.

Lemma X5_failed_import_writes_nothing_witness :
  snd (uploadTransactionHistory iso_date strict_engine
         (Some (statement ["Date,Description,Amount" : str])) 1 groceries_db) =
  groceries_db.
Proof.
  destruct (X5_failed_import_writes_nothing iso_date strict_engine
              (Some (statement ["Date,Description,Amount" : str])) 1
              groceries_db) as (r & E & _).
  - right. vm_compute. reflexivity.
  - now rewrite E.
Defined.

(** ** Engine invocations *)

(** The extraction block of [uploadReceipt] is the one of
    [extractReceiptData] behind the [autoProcess] switch: the forced
    engine changes nothing. *)
Lemma upload_extract_extract tess text autoProcess hint file :
  upload_extract tess text autoProcess hint file =
  if str_eqb autoProcess "true" then extract tess text hint file
  else {| extractedData := None; processingError := None;
          ocrService := None; calls := [] |}.
Proof.
  unfold upload_extract, extract.
  replace (str_eqb forceOcrEngine "tesseract") with false
    by (vm_compute; reflexivity).
  replace (str_eqb forceOcrEngine "textract") with true
    by (vm_compute; reflexivity).
  cbn [orb]. destruct (str_eqb autoProcess "true"); [|reflexivity].
  destruct (str_eqb (engine_or_default hint) "tesseract"); reflexivity.
Qed.

Lemma not_both_engines (e : str) :
  str_eqb e "tesseract" = true -> str_eqb e "textract" = false.
Proof.
  intros H. apply str_eqb_eq in H. subst e. vm_compute. reflexivity.
Qed.

Ltac engine_cases tess text file :=
  repeat match goal with
         | |- context [process tess file] =>
             let o := fresh "o" in
             destruct (process tess file) as [[?|]|?] eqn:?
         | |- context [process text file] =>
             destruct (process text file) as [[?|]|?] eqn:?
         | |- context [uf_buffer file] =>
             destruct (uf_buffer file) eqn:?
         end.

Lemma extract_trace tess text hint file :
  let x := extract tess text hint file in
  sequential_trace (calls x) /\
  match extractedData x with
  | Some d => produced_by tess text file (calls x) d
  | None => True
  end.
Proof.
  unfold extract, recover, primary, sequential_trace, produced_by.
  destruct (str_eqb (engine_or_default hint) "tesseract") eqn:Ht.
  - rewrite (not_both_engines _ Ht). cbn [service andb].
    engine_cases tess text file; cbn; intuition auto.
  - cbn [service].
    destruct (str_eqb (engine_or_default hint) "textract");
      engine_cases tess text file; cbn; intuition auto.
Qed.

Lemma process_stored_trace tess text e file :
  let r := process_stored tess text e file in
  sequential_trace (snd r) /\
  match fst r with
  | Ok (Some d) => produced_by tess text file (snd r) d
  | _ => True
  end.
Proof.
  unfold process_stored, sequential_trace, produced_by.
  destruct (str_eqb e "tesseract"); [|destruct (str_eqb e "textract")];
    engine_cases tess text file; cbn; intuition auto.
Qed.

(** X6: whatever the request and whatever the engines do, the three
    receipt handlers invoke the engines one after the other and none
    twice: the invocations are none, Tesseract alone, Textract alone, or
    Textract followed by Tesseract.  Tesseract is never followed by
    Textract. *)
Theorem X6_engines_run_in_sequence (tess text : OcrService)
  (file : UploadedFile) (hint : option str) (autoProcess : str)
  (stored : bool) :
  sequential_trace (snd (extractReceiptData tess text (Some file) hint)) /\
  sequential_trace (calls (upload_extract tess text autoProcess hint file)) /\
  sequential_trace (snd (processUploadedReceipt tess text stored file hint)).
Proof.
  split; [|split].
  - unfold extractReceiptData.
    destruct (extract_trace tess text hint file) as [H _].
    destruct (extractedData _) as [d|]; [destruct (processingError _)|];
      exact H.
  - rewrite upload_extract_extract. destruct (str_eqb autoProcess "true").
    + apply extract_trace.
    + now left.
  - unfold processUploadedReceipt. destruct stored; cbn [negb]; [|now left].
    destruct (process_stored_trace tess text (engine_or_default hint) file)
      as [H _].
    destruct (process_stored _ _ _ _) as [[[d|]|e] trace];
      [destruct (ex_items d)| |]; exact H.
Qed.

(** X7: success is never made up.  The data that [extractReceiptData]
    or [processUploadedReceipt] answer with, and the data that
    [uploadReceipt] files or hands back for review, is what one of the
    invoked engines returned for the file; [processUploadedReceipt]
    moreover answers with success only for data that has items. *)
Theorem X7_extracted_data_comes_from_an_engine (tess text : OcrService)
  (file : UploadedFile) (hint : option str) (autoProcess : str)
  (stored : bool) :
  (let (r, trace) := extractReceiptData tess text (Some file) hint in
   match r with
   | ExtractSucceeded d => produced_by tess text file trace d
   | _ => True
   end) /\
  (let x := upload_extract tess text autoProcess hint file in
   match extractedData x with
   | Some d => produced_by tess text file (calls x) d
   | None => True
   end) /\
  (let (r, trace) := processUploadedReceipt tess text stored file hint in
   match r with
   | ProcessSucceeded d =>
       produced_by tess text file trace d /\ ex_items d <> None
   | _ => True
   end).
Proof.
  split; [|split].
  - unfold extractReceiptData.
    destruct (extract_trace tess text hint file) as [_ H].
    destruct (extractedData _) as [d|]; [destruct (processingError _)|];
      try exact I. exact H.
  - cbv zeta. rewrite upload_extract_extract.
    destruct (str_eqb autoProcess "true"); [|exact I].
    apply extract_trace.
  - unfold processUploadedReceipt. destruct stored; cbn [negb]; [|exact I].
    destruct (process_stored_trace tess text (engine_or_default hint) file)
      as [_ H].
    destruct (process_stored _ _ _ _) as [[[d|]|e] trace]; try exact I.
    cbn [fst snd] in H. destruct (ex_items d) eqn:Hi; [|exact I].
    split; [exact H | congruence].
Qed.

Lemma process_trace tess text file hint :
  snd (processUploadedReceipt tess text true file hint) =
  snd (process_stored tess text (engine_or_default hint) file).
Proof.
  unfold processUploadedReceipt. cbn [negb].
  destruct (process_stored _ _ _ _) as [[[d|]|e] trace]; cbn;
    try destruct (ex_items d); reflexivity.
Qed.



(** ** What the receipt handlers write *)

Lemma receipt_category_effects beyond defaults categoryName categoryId uid
  d c d1 :
  receipt_category beyond defaults categoryName categoryId uid d = Ok (c, d1) ->
  transactions d1 = transactions d /\
  (d1 = d \/ (categories d1 = categories d ++ [c] /\ fallback_category uid c)).
Proof.
  unfold receipt_category.
  match goal with |- context [bind ?m _] => destruct m as [[c0|]|e] end;
    simpl; try discriminate.
  - intros E. injection E as <- <-. auto.
  - unfold Category_findOne. destruct (find _ (categories d)) as [c0|].
    + intros E. injection E as <- <-. auto.
    + unfold Category_create. intros E. injection E as <- <-. cbn.
      split; [reflexivity|]. right. split; [reflexivity|].
      repeat split.
Qed.

(** X9: [uploadReceipt] only adds to the store: at most one category,
    which is then 'Other Expenses' of type expense and of the user, and
    at most one transaction; with a 201 answer the transaction added is
    the one of the answer.  When [autoProcess] is not 'true' no engine is
    invoked and nothing is written. *)
Theorem X9_upload_writes_at_most_one_of_each
  (beyond : str -> option (str -> bool)) (tess text : OcrService)
  (file : UploadedFile) (categoryName : option str) (categoryId : option N)
  (autoProcess hint : option str) (uid : N) (d : DB) :
  let '(r, d', trace) :=
    uploadReceipt beyond tess text (Some file) categoryName categoryId
      autoProcess hint uid d in
  (exists cs ts,
     categories d' = categories d ++ cs /\
     transactions d' = transactions d ++ ts /\
     (length cs <= 1)%nat /\
     Forall (fallback_category uid) cs /\
     (length ts <= 1)%nat /\
     match r with UploadCreated t _ => ts = [t] | _ => True end) /\
  (forall a, autoProcess = Some a -> a <> ("true" : str) ->
     r = UploadReview None None /\ d' = d /\ trace = []).
Proof.
  unfold uploadReceipt.
  set (a := match autoProcess with Some a => a | None => "true" : str end).
  set (info := Build_ReceiptInfo _ _ _ _ _).
  rewrite upload_extract_extract.
  assert (Hnone : forall data err, exists cs ts : list _,
            categories d = categories d ++ cs /\
            transactions d = transactions d ++ ts /\
            (length cs <= 1)%nat /\ Forall (fallback_category uid) cs /\
            (length ts <= 1)%nat /\
            match UploadReview data err with
            | UploadCreated t _ => ts = [t]
            | _ => True
            end).
  { intros data err. exists [], []. rewrite !app_nil_r.
    repeat split; try (simpl; lia). constructor. }
  destruct (str_eqb a "true") eqn:Ha.
  - assert (Hauto : forall a0, autoProcess = Some a0 -> a0 <> ("true" : str) ->
                    False).
    { intros a0 -> Hne. apply str_eqb_eq in Ha. exact (Hne Ha). }
    destruct (extractedData (extract tess text hint file)) as [data|];
      [destruct (processingError (extract tess text hint file))|].
    + split; [apply (Hnone None None) | intros a0 H1 H2; destruct (Hauto a0 H1 H2)].
    + unfold file_receipt, db_after_failure.
      destruct (receipt_category beyond upload_defaults categoryName
                  categoryId uid d) as [[c d1]|e] eqn:Hc; simpl.
      * destruct (receipt_category_effects _ _ _ _ _ _ _ _ Hc)
          as (Htx & Hgrow).
        assert (Hcs : exists cs, categories d1 = categories d ++ cs /\
                  (length cs <= 1)%nat /\ Forall (fallback_category uid) cs).
        { destruct Hgrow as [-> | [Hcat Hfb]].
          - exists []. rewrite app_nil_r. repeat split; [simpl; lia | constructor].
          - exists [c]. repeat split; [exact Hcat | simpl; lia |].
            constructor; [exact Hfb | constructor]. }
        destruct Hcs as (cs & Hcat & Hlen & Hfb).
        assert (Hfail : exists cs ts : list _,
                  categories d1 = categories d ++ cs /\
                  transactions d1 = transactions d ++ ts /\
                  (length cs <= 1)%nat /\ Forall (fallback_category uid) cs /\
                  (length ts <= 1)%nat /\ True).
        { exists cs, []. rewrite app_nil_r.
          repeat split; try assumption. simpl; lia. }
        destruct (generateTransactionData _ data uid (cat_id c)) as [td|e];
          simpl.
        -- destruct (attach_file_info info td) as [td'|e]; simpl.
           ++ destruct (ex_items data);
                (split; [|intros a0 H1 H2; destruct (Hauto a0 H1 H2)]);
                exists cs; eexists; rewrite Htx;
              repeat split; try eassumption; try reflexivity;
                try (simpl; lia).
           ++ split; [exact Hfail|intros a0 H1 H2; destruct (Hauto a0 H1 H2)].
        -- split; [exact Hfail|intros a0 H1 H2; destruct (Hauto a0 H1 H2)].
      * split; [apply (Hnone None None) | intros a0 H1 H2; destruct (Hauto a0 H1 H2)].
    + split; [apply (Hnone None None) | intros a0 H1 H2; destruct (Hauto a0 H1 H2)].
  - cbn. split; [apply (Hnone None None) | auto].
Qed.

(** ** Requests to create a transaction *)

(** X10: a request that [createTransaction] answers with 400 or 404 -
    no category given, category not found, type conflict - has no
    effect: nothing is written and the temp receipt file is not moved.
    Nor has a request whose category name, used without id, is no valid
    pattern: the exception of the constructor leaves the handler before
    anything is touched. *)
Theorem X10_rejected_creation_has_no_effect
  (beyond : str -> option (str -> bool)) (body : CreateBody) (user : User)
  (env : Env) (w : World) :
  match createTransaction beyond body user env w with
  | (Created _, _) | (ServerError _, _) => True
  | (_, w') => w' = w
  end /\
  (forall name e,
     providedCategoryName body = Some name -> b_categoryId body = None ->
     name_regex beyond name = Throw e ->
     createTransaction beyond body user env w = (ServerError e, w)).
Proof.
  unfold createTransaction. split.
  - destruct (lookup_category beyond body user (db w)) as [[c|r]|e].
    + destruct (type_conflict c (b_type body)); [reflexivity|].
      destruct (with_receipt _ _ _ _). exact I.
    + destruct r; first [reflexivity | exact I].
    + exact I.
  - intros name e Hn Hid Hre. unfold lookup_category.
    rewrite Hn, Hid, Hre. reflexivity.
Qed.

Lemma lookup_category_by_id beyond body user d id :
  b_categoryId body = Some id ->
  lookup_category beyond body user d =
  match find (fun c => (cat_id c =? id)%N && in_scope (u_id user) c)
             (categories d) with
  | Some c => Ok (inl c)
  | None => Ok (inr CategoryNotFound)
  end.
Proof.
  intros H. unfold lookup_category, Category_findOne. rewrite H.
  destruct (providedCategoryName body); reflexivity.
Qed.

(** X11: when the request carries a category id, the names it carries
    are not looked at: the answer and the effect are those of the request
    without names, whatever the regular-expression engine, so that a name
    that is no valid pattern does no harm. *)
Theorem X11_category_id_takes_precedence
  (beyond beyond' : str -> option (str -> bool)) (body : CreateBody)
  (user : User) (env : Env) (w : World) (id : N) :
  b_categoryId body = Some id ->
  createTransaction beyond body user env w =
  createTransaction beyond' (without_names body) user env w.
Proof.
  intros H. unfold createTransaction.
  rewrite (lookup_category_by_id beyond body user (db w) id H).
  rewrite (lookup_category_by_id beyond' (without_names body) user (db w) id H).
  reflexivity.
Qed.

Lemma X11_category_id_takes_precedence_witness :
  fst (createTransaction strict_engine tea_body user1 env1
         {| db := groceries_db; fs := temp_fs |}) <>
  ServerError SyntaxError.
Proof.
  rewrite (X11_category_id_takes_precedence strict_engine strict_engine
             tea_body user1 env1 {| db := groceries_db; fs := temp_fs |} 3
             eq_refl).
  vm_compute. intros E. discriminate E.
Defined.

Lemma lookup_category_found beyond body user d c :
  lookup_category beyond body user d = Ok (inl c) ->
  In c (categories d) /\ in_scope (u_id user) c = true.
Proof.
  unfold lookup_category, Category_findOne.
  destruct (providedCategoryName body) as [name|], (b_categoryId body) as [id|];
    try discriminate.
  - destruct (find _ (categories d)) as [c0|] eqn:Hf; [|discriminate].
    intros E. injection E as <-. apply find_holds in Hf as [Hin Hf].
    now apply andb_true_iff in Hf as [_ Hs].
  - destruct (name_regex beyond name) as [test|e]; simpl; [|discriminate].
    destruct (find _ (categories d)) as [c0|] eqn:Hf; [|discriminate].
    intros E. injection E as <-. apply find_holds in Hf as [Hin Hf].
    now apply andb_true_iff in Hf as [_ Hs].
  - destruct (find _ (categories d)) as [c0|] eqn:Hf; [|discriminate].
    intros E. injection E as <-. apply find_holds in Hf as [Hin Hf].
    now apply andb_true_iff in Hf as [_ Hs].
Qed.

Lemma with_receipt_fields body env f td :
  let td' := fst (with_receipt body env f td) in
  td_userId td' = td_userId td /\ td_type td' = td_type td /\
  td_categoryId td' = td_categoryId td /\ td_amount td' = td_amount td.
Proof.
  unfold with_receipt.
  destruct (b_receiptFileInfo body) as [info|]; [|repeat split].
  destruct (b_receiptData body) as [data|]; [|repeat split].
  destruct (promoteReceiptFile info env f) as [[[n p]|e] f']; repeat split.
Qed.

(** X12: a transaction that [createTransaction] creates is appended to
    the store, which is otherwise unchanged; it belongs to the requesting
    user, has the type and the amount of the request, and is filed under
    a category of the store that the user may use and whose type is
    'both' or the type of the transaction. *)
Theorem X12_created_transaction_fits_its_category
  (beyond : str -> option (str -> bool)) (body : CreateBody) (user : User)
  (env : Env) (w w' : World) (t : Transaction) :
  createTransaction beyond body user env w = (Created t, w') ->
  transactions (db w') = transactions (db w) ++ [t] /\
  categories (db w') = categories (db w) /\
  td_userId (tx_data t) = u_id user /\
  td_type (tx_data t) = b_type body /\
  td_amount (tx_data t) = b_amount body /\
  exists c,
    In c (categories (db w)) /\ cat_id c = td_categoryId (tx_data t) /\
    in_scope (u_id user) c = true /\
    (cat_type c = ("both" : str) \/ b_type body = JString (cat_type c)).
Proof.
  unfold createTransaction.
  destruct (lookup_category beyond body user (db w)) as [[c|r]|e] eqn:Hl.
  - destruct (type_conflict c (b_type body)) eqn:Hc; [discriminate|].
    pose proof (with_receipt_fields body env (fs w)
                  (base_data body user env c)) as (Hu & Ht & Hi & Ha).
    destruct (with_receipt _ _ _ _) as [td f']. cbn [fst] in *.
    unfold Transaction_create. intros E. injection E as <- <-. cbn.
    destruct (lookup_category_found _ _ _ _ _ Hl) as [Hin Hs].
    repeat split; try assumption.
    exists c. repeat split; try assumption; [now rewrite Hi|].
    unfold type_conflict in Hc. apply andb_false_iff in Hc as [Hc | Hc].
    + left. apply negb_false_iff, str_eqb_eq in Hc. exact Hc.
    + right. apply negb_false_iff in Hc.
      destruct (b_type body) as [| | | |s|]; try discriminate.
      apply str_eqb_eq in Hc. now rewrite Hc.
  - destruct r; try discriminate.
    intros E. injection E as <- <-.
    (* the lookup answers with an error only *)
    exfalso. unfold lookup_category, Category_findOne in Hl.
    destruct (providedCategoryName body), (b_categoryId body);
      try destruct (name_regex beyond _); simpl in Hl;
      try destruct (find _ _); discriminate.
  - discriminate.
Qed.

Lemma X12_created_transaction_fits_its_category_witness :
  let t := {| tx_id := 4;
              tx_data := base_data (expense_body None) user1 env1 groceries |} in
  exists c, In c (categories groceries_db) /\
            cat_id c = td_categoryId (tx_data t).
Proof.
  cbv zeta.
  destruct (X12_created_transaction_fits_its_category strict_engine
              (expense_body None) user1 env1
              {| db := groceries_db; fs := bare_fs |}
              {| db := snd (Transaction_create
                              (base_data (expense_body None) user1 env1 groceries)
                              groceries_db);
                 fs := bare_fs |}
              {| tx_id := 4;
                 tx_data := base_data (expense_body None) user1 env1 groceries |})
    as (_ & _ & _ & _ & _ & c & Hin & Hid & _).
  - reflexivity.
  - exists c. split; assumption.
Defined.

(** ** The files a promotion touches *)

Lemma promote_dirs_files info env f :
  let (r, f') := promoteReceiptFile info env f in
  dirs f ⊆ dirs f' /\
  match r with
  | Throw _ => files f' = files f
  | Ok _ => True
  end.
Proof.
  unfold promoteReceiptFile.
  destruct (rf_tempPath info) as [tempPath|]; [|split; [set_solver | reflexivity]].
  assert (Hmk : forall f0,
            (if existsSync (permanentDir tempPath) f then Ok f
             else mkdirSync (permanentDir tempPath) f) = Ok f0 ->
            dirs f ⊆ dirs f0 /\ files f0 = files f).
  { intros f0. destruct (existsSync _ f).
    - intros E. injection E as <-. split; [set_solver | reflexivity].
    - unfold mkdirSync. destruct (existsb _ _); [discriminate|].
      intros E. injection E as <-. cbn. split; [set_solver | reflexivity]. }
  destruct (if existsSync _ f then Ok f else mkdirSync _ f) as [f0|e];
    [|split; [set_solver | reflexivity]].
  destruct (Hmk f0 eq_refl) as [Hd Hf].
  destruct (rf_originalName info) as [originalName|]; [|split; assumption].
  unfold renameSync.
  destruct (files f0 !! tempPath); [|split; assumption].
  destruct (negb _); [split; assumption|].
  destruct (bool_decide _); [split; assumption|].
  cbn. split; [exact Hd | exact I].
Qed.

(** X13: the promotion of a temp path that is no directory never removes
    a directory, and it touches no file but the temp file and the
    permanent one: on failure every file is as before; on success the
    permanent path holds the content the temp path held, the temp path is
    gone, and every other path is as before. *)
Theorem X13_promotion_touches_two_paths (info : ReceiptFileInfo) (env : Env)
  (f : FS) :
  (forall tempPath, rf_tempPath info = Some tempPath ->
                    is_dir tempPath f = false) ->
  let (r, f') := promoteReceiptFile info env f in
  dirs f ⊆ dirs f' /\
  match r with
  | Throw _ => files f' = files f
  | Ok (name, path) =>
      exists tempPath content,
        rf_tempPath info = Some tempPath /\
        files f !! tempPath = Some content /\
        files f' !! path = Some content /\
        (path <> tempPath -> files f' !! tempPath = None) /\
        forall p : Path, p <> tempPath -> p <> path ->
                         files f' !! p = files f !! p
  end.
Proof.
  intros _. pose proof (promote_dirs_files info env f) as H.
  destruct (promoteReceiptFile info env f) as [[[name path]|e] f'] eqn:E;
    destruct H as [Hd Hf]; (split; [exact Hd|]); [|exact Hf].
  destruct (promote_succeeded _ _ _ _ _ _ E)
    as (tempPath & originalName & content & Hp & _ & _ & _ & Hsrc & Hf1 & _).
  exists tempPath, content. rewrite Hf1.
  split; [exact Hp|]. split; [exact Hsrc|].
  split; [apply lookup_insert_eq|]. split.
  - intros Hne. rewrite lookup_insert_ne by exact Hne. apply lookup_delete_eq.
  - intros p H1 H2.
    rewrite lookup_insert_ne by (intros E'; apply H2; now symmetry).
    apply lookup_delete_ne. intros E'. apply H1. now symmetry.
Qed.

Lemma X13_promotion_touches_two_paths_witness :
  dirs temp_fs ⊆ dirs (snd (promoteReceiptFile temp_handle env1 temp_fs)).
Proof.
  pose proof (X13_promotion_touches_two_paths temp_handle env1 temp_fs) as H.
  destruct (promoteReceiptFile temp_handle env1 temp_fs) as [r f'].
  apply H. intros tempPath E. injection E as <-. vm_compute. reflexivity.
Defined.

(** ** Updating a transaction *)

Lemma or_else_or_keep (v old : JSValue) : or_else v old = or_keep v old.
Proof. reflexivity. Qed.

Lemma new_category_checked beyond body uid t d id :
  new_category beyond body uid t d = Ok (inl (Some id)) ->
  exists c, In c (categories d) /\ cat_id c = id /\ in_scope uid c = true /\
            type_conflict c (or_keep (ub_type body) (td_type (tx_data t))) = false.
Proof.
  unfold new_category, Category_findOne. rewrite or_else_or_keep.
  set (ty := or_keep _ _).
  destruct (match given (ub_categoryName body) with
            | Some n => Some n
            | None => given (ub_category body)
            end) as [name|], (ub_categoryId body) as [cid|].
  - destruct (cid =? _)%N; [discriminate|].
    destruct (find _ (categories d)) as [c|] eqn:Hf; [|discriminate].
    destruct (type_conflict c ty) eqn:Hc; [discriminate|].
    intros E. injection E as <-. apply find_holds in Hf as [Hin Hf].
    apply andb_true_iff in Hf as [Hid Hs]. apply N.eqb_eq in Hid.
    exists c. auto.
  - destruct (name_regex beyond name) as [test|e]; simpl; [|discriminate].
    destruct (find _ (categories d)) as [c|] eqn:Hf; [|discriminate].
    destruct (type_conflict c ty) eqn:Hc; [discriminate|].
    intros E. injection E as <-. apply find_holds in Hf as [Hin Hf].
    apply andb_true_iff in Hf as [_ Hs]. exists c. auto.
  - destruct (cid =? _)%N; [discriminate|].
    destruct (find _ (categories d)) as [c|] eqn:Hf; [|discriminate].
    destruct (type_conflict c ty) eqn:Hc; [discriminate|].
    intros E. injection E as <-. apply find_holds in Hf as [Hin Hf].
    apply andb_true_iff in Hf as [Hid Hs]. apply N.eqb_eq in Hid.
    exists c. auto.
  - discriminate.
Qed.

Lemma new_category_no_update beyond body uid t d r :
  new_category beyond body uid t d = Ok (inr r) ->
  forall t', r <> Updated t'.
Proof.
  unfold new_category, Category_findOne.
  destruct (match given (ub_categoryName body) with
            | Some n => Some n
            | None => given (ub_category body)
            end) as [name|], (ub_categoryId body) as [cid|].
  - destruct (cid =? _)%N; [discriminate|].
    destruct (find _ (categories d)) as [c|];
      [destruct (type_conflict c _)|];
      intros E t' Hr; subst r; discriminate E.
  - destruct (name_regex beyond name) as [test|e]; simpl; [|discriminate].
    destruct (find _ (categories d)) as [c|];
      [destruct (type_conflict c _)|];
      intros E t' Hr; subst r; discriminate E.
  - destruct (cid =? _)%N; [discriminate|].
    destruct (find _ (categories d)) as [c|];
      [destruct (type_conflict c _)|];
      intros E t' Hr; subst r; discriminate E.
  - discriminate.
Qed.

(** X14: when [updateTransaction] changes the category of a transaction,
    the new category is one of the store that the user may use, and its
    type is 'both' or the type the transaction has after the update (the
    type of the request if there is one, else the stored type).  The
    update keeps the id, the owner and the receipt. *)
Theorem X14_category_change_is_checked
  (beyond : str -> option (str -> bool)) (id : N) (body : UpdateBody)
  (uid : N) (l l' : Ledger) (t' : Transaction) :
  updateTransaction beyond id body uid l = (Updated t', l') ->
  exists t,
    find (live_transaction id uid l) (transactions (lg_db l)) = Some t /\
    tx_id t' = tx_id t /\
    td_userId (tx_data t') = td_userId (tx_data t) /\
    td_receipt (tx_data t') = td_receipt (tx_data t) /\
    td_type (tx_data t') = or_keep (ub_type body) (td_type (tx_data t)) /\
    (td_categoryId (tx_data t') = td_categoryId (tx_data t) \/
     exists c, In c (categories (lg_db l)) /\
               cat_id c = td_categoryId (tx_data t') /\
               in_scope uid c = true /\
               type_conflict c (td_type (tx_data t')) = false).
Proof.
  unfold updateTransaction.
  destruct (find _ (transactions (lg_db l))) as [t|] eqn:Hf; [|discriminate].
  destruct (new_category beyond body uid t (lg_db l)) as [[nc|r]|e] eqn:Hn;
    try discriminate.
  - intros E. injection E as <- <-. exists t. cbn.
    repeat split. destruct nc as [cid|]; [right | now left].
    exact (new_category_checked _ _ _ _ _ _ Hn).
  - destruct r; try discriminate.
    destruct (new_category_no_update _ _ _ _ _ _ Hn t0 eq_refl).
Qed.

Lemma X14_category_change_is_checked_witness :
  exists t,
    find (live_transaction 8 1 salary_ledger)
         (transactions (lg_db salary_ledger)) = Some t /\
    tx_id (fst (Transaction_create
                  (updated_data raise_salary (Some 7%N) (tx_data salary_payment))
                  (lg_db salary_ledger))) = 9%N.
Proof.
  destruct (X14_category_change_is_checked strict_engine 8 raise_salary 1
              salary_ledger
              (snd (updateTransaction strict_engine 8 raise_salary 1
                      salary_ledger))
              {| tx_id := 8;
                 tx_data := updated_data raise_salary (Some 7%N)
                              (tx_data salary_payment) |})
    as (t & Hf & _).
  - vm_compute. reflexivity.
  - exists t. split; [exact Hf | reflexivity].
Defined.

(** X15: when the request names no category, or names by id the category
    the transaction already has, [updateTransaction] makes no type check:
    the update is accepted and a type in the request replaces the stored
    one, whatever the type of the category. *)
Theorem X15_type_change_alone_is_not_checked
  (beyond : str -> option (str -> bool)) (id : N) (body : UpdateBody)
  (uid : N) (l : Ledger) (t : Transaction) :
  find (live_transaction id uid l) (transactions (lg_db l)) = Some t ->
  (given (ub_categoryName body) = None /\ given (ub_category body) = None /\
   ub_categoryId body = None) \/
  ub_categoryId body = Some (td_categoryId (tx_data t)) ->
  exists l',
    updateTransaction beyond id body uid l =
      (Updated {| tx_id := tx_id t;
                  tx_data := updated_data body None (tx_data t) |}, l') /\
    td_categoryId (updated_data body None (tx_data t)) =
      td_categoryId (tx_data t) /\
    td_type (updated_data body None (tx_data t)) =
      or_keep (ub_type body) (td_type (tx_data t)).
Proof.
  intros Hf Hc. unfold updateTransaction. rewrite Hf.
  assert (Hn : new_category beyond body uid t (lg_db l) = Ok (inl None)).
  { unfold new_category. destruct Hc as [(H1 & H2 & H3) | H3]; rewrite H3.
    - now rewrite H1, H2.
    - rewrite N.eqb_refl.
      destruct (match given (ub_categoryName body) with
                | Some n => Some n
                | None => given (ub_category body)
                end); reflexivity. }
  rewrite Hn. eexists. split; [reflexivity|]. split; reflexivity.
Qed.

Lemma X15_type_change_alone_is_not_checked_witness :
  exists t' l',
    updateTransaction strict_engine 8 (retype "expense") 1 salary_ledger =
      (Updated t', l') /\
    td_categoryId (tx_data t') = cat_id salary /\
    type_conflict salary (td_type (tx_data t')) = true.
Proof.
  destruct (X15_type_change_alone_is_not_checked strict_engine 8
              (retype "expense") 1 salary_ledger salary_payment eq_refl)
    as (l' & Hu & _ & _).
  - left. repeat split.
  - do 2 eexists. split; [exact Hu|]. split; reflexivity.
Defined.

Lemma save_first_ids (found : Transaction -> bool) (t' : Transaction)
  (l : list Transaction) :
  (forall t, found t = true -> tx_id t = tx_id t') ->
  map tx_id (save_first found t' l) = map tx_id l /\
  forall t0, In t0 (save_first found t' l) -> t0 = t' \/ In t0 l.
Proof.
  intros Hid. induction l as [|t r [IH1 IH2]]; simpl; [split; [reflexivity | tauto]|].
  destruct (found t) eqn:E; simpl.
  - rewrite (Hid t E). split; [reflexivity|]. intros t0 [<- | H]; auto.
  - rewrite IH1. split; [reflexivity|].
    intros t0 [<- | H]; [auto|]. destruct (IH2 t0 H); auto.
Qed.

(** X16: an update that is not accepted - transaction not found or
    soft-deleted, category not found, type conflict, invalid pattern -
    changes nothing.  An accepted one rewrites one transaction in place:
    the categories, the soft-deleted set and the ids of the transactions,
    in their order, are as before, and every other transaction is
    untouched. *)
Theorem X16_update_rewrites_one_transaction
  (beyond : str -> option (str -> bool)) (id : N) (body : UpdateBody)
  (uid : N) (l : Ledger) :
  match updateTransaction beyond id body uid l with
  | (Updated t', l') =>
      categories (lg_db l') = categories (lg_db l) /\
      lg_deleted l' = lg_deleted l /\
      map tx_id (transactions (lg_db l')) = map tx_id (transactions (lg_db l)) /\
      forall t0, In t0 (transactions (lg_db l')) ->
                 t0 = t' \/ In t0 (transactions (lg_db l))
  | (_, l') => l' = l
  end.
Proof.
  unfold updateTransaction.
  destruct (find _ (transactions (lg_db l))) as [t|] eqn:Hf; [|reflexivity].
  destruct (new_category beyond body uid t (lg_db l)) as [[nc|r]|e] eqn:Hn;
    [| |reflexivity].
  - cbn. split; [reflexivity|]. split; [reflexivity|].
    apply save_first_ids. intros t0 H0. cbn.
    apply find_holds in Hf as [_ Hf]. unfold live_transaction in *.
    apply andb_true_iff in Hf as [Hf _]. apply andb_true_iff in Hf as [Hf _].
    apply andb_true_iff in H0 as [H0 _]. apply andb_true_iff in H0 as [H0 _].
    apply N.eqb_eq in Hf, H0. congruence.
  - destruct r; try reflexivity.
    destruct (new_category_no_update _ _ _ _ _ _ Hn t0 eq_refl).
Qed.

(** ** Initial categories *)

Lemma insertMany_inserted docs uid d :
  Category_insertMany docs uid d =
  (inserted_categories (next_id d) uid docs,
   {| categories := categories d ++ inserted_categories (next_id d) uid docs;
      transactions := transactions d;
      next_id := N.of_nat (length docs) + next_id d |}).
Proof.
  revert d. induction docs as [|[[[name type] color] icon] rest IH]; intros d.
  - simpl. rewrite app_nil_r. now destruct d.
  - cbn [Category_insertMany Category_create]. rewrite IH.
    cbn [categories transactions next_id inserted_categories length].
    rewrite <- app_assoc.
    replace (N.of_nat (length rest) + N.succ (next_id d))%N
      with (N.of_nat (S (length rest)) + next_id d)%N by lia.
    reflexivity.
Qed.

Lemma inserted_owned id uid docs :
  Forall (fun c => cat_userId c = Some uid /\ cat_isDefault c = false)
         (inserted_categories id uid docs).
Proof.
  revert id. induction docs as [|[[[name type] color] icon] rest IH];
    intros id; simpl; constructor; auto.
Qed.

Lemma inserted_names id uid docs :
  map (fun c => (cat_name c, cat_type c)) (inserted_categories id uid docs) =
  map (fun doc => (fst (fst (fst doc)), snd (fst (fst doc)))) docs.
Proof.
  revert id. induction docs as [|[[[name type] color] icon] rest IH];
    intros id; simpl; [reflexivity|]. now rewrite IH.
Qed.

Lemma owned_app uid d cs :
  owned_categories uid
    {| categories := categories d ++ cs; transactions := transactions d;
       next_id := N.of_nat (length cs) + next_id d |} =
  owned_categories uid d ++
  List.filter (fun c => match cat_userId c with
                        | Some u => (u =? uid)%N
                        | None => false
                        end) cs.
Proof. unfold owned_categories. cbn. apply List.filter_app. Qed.

Lemma owned_all uid cs :
  Forall (fun c => cat_userId c = Some uid /\ cat_isDefault c = false) cs ->
  List.filter (fun c => match cat_userId c with
                        | Some u => (u =? uid)%N
                        | None => false
                        end) cs = cs.
Proof.
  induction 1 as [|c cs [Hu _] _ IH]; simpl; [reflexivity|].
  now rewrite Hu, N.eqb_refl, IH.
Qed.

(** X17: initialization is one-shot.  For a user who owns no category it
    appends the twelve default categories, in the order of the list, as
    categories of that user, and touches nothing else; a second call is
    answered with 400 and changes nothing. *)
Theorem X17_initialization_is_one_shot (uid : N) (d : DB) :
  owned_categories uid d = [] ->
  exists created d',
    initializeDefaultCategories uid d = (Initialized created, d') /\
    categories d' = categories d ++ created /\
    transactions d' = transactions d /\
    length created = 12%nat /\
    map (fun c => (cat_name c, cat_type c)) created =
      map (fun doc => (fst (fst (fst doc)), snd (fst (fst doc))))
          defaultCategories /\
    Forall (fun c => cat_userId c = Some uid /\ cat_isDefault c = false)
           created /\
    initializeDefaultCategories uid d' = (AlreadyInitialized, d').
Proof.
  intros Hnone. unfold initializeDefaultCategories at 1.
  rewrite Hnone. cbn [length Nat.ltb Nat.leb]. rewrite insertMany_inserted.
  set (created := inserted_categories (next_id d) uid defaultCategories).
  do 2 eexists. split; [reflexivity|]. cbn [categories transactions].
  split; [reflexivity|]. split; [reflexivity|].
  split; [reflexivity|]. split; [apply inserted_names|].
  split; [apply inserted_owned|].
  unfold initializeDefaultCategories.
  replace (N.of_nat (length defaultCategories)) with
    (N.of_nat (length created)) by reflexivity.
  rewrite owned_app, Hnone, (owned_all uid created (inserted_owned _ _ _)).
  reflexivity.
Qed.

Lemma X17_initialization_is_one_shot_witness :
  exists created d',
    initializeDefaultCategories 1 groceries_db = (Initialized created, d') /\
    initializeDefaultCategories 1 d' = (AlreadyInitialized, d').
Proof.
  destruct (X17_initialization_is_one_shot 1 groceries_db eq_refl)
    as (created & d' & H1 & _ & _ & _ & _ & _ & H2).
  exists created, d'. split; assumption.
Defined.

Lemma owned_refuses uid d c :
  In c (categories d) -> cat_userId c = Some uid ->
  initializeDefaultCategories uid d = (AlreadyInitialized, d).
Proof.
  intros Hin Hu. unfold initializeDefaultCategories.
  assert (Hown : In c (owned_categories uid d)).
  { unfold owned_categories. apply filter_In. split; [exact Hin|].
    now rewrite Hu, N.eqb_refl. }
  destruct (owned_categories uid d); [destruct Hown | reflexivity].
Qed.

(** X18: a category made on the way blocks the initialization.  Once a
    receipt handler or the import has created a category for a user,
    [initializeDefaultCategories] answers 400 for that user and the
    default categories are not created. *)
Theorem X18_created_category_blocks_initialization
  (beyond : str -> option (str -> bool)) (defaults : list str)
  (categoryName : option str) (categoryId : option N) (name type : str)
  (uid : N) (d d1 : DB) (c : Category) :
  d1 <> d ->
  receipt_category beyond defaults categoryName categoryId uid d = Ok (c, d1) \/
  import_category beyond name type uid d = Ok (c, d1) ->
  initializeDefaultCategories uid d1 = (AlreadyInitialized, d1).
Proof.
  intros Hne [H | H].
  - destruct (receipt_category_effects _ _ _ _ _ _ _ _ H)
      as (_ & [-> | [Hcat (_ & _ & Hu)]]); [now contradiction Hne|].
    apply (owned_refuses uid d1 c); [|exact Hu].
    rewrite Hcat. apply in_or_app. right. now left.
  - destruct (import_category_result _ _ _ _ _ _ _ H)
      as (Hin & _ & _ & [-> | [_ Hu]]); [now contradiction Hne|].
    exact (owned_refuses uid d1 c Hin Hu).
Qed.

Lemma X18_created_category_blocks_initialization_witness :
  initializeDefaultCategories 1
    (snd (Category_create "Other Expenses" "expense" (Some ("#6366F1" : str))
            (Some ("shopping-bag" : str)) 1 empty_db)) =
  (AlreadyInitialized,
   snd (Category_create "Other Expenses" "expense" (Some ("#6366F1" : str))
          (Some ("shopping-bag" : str)) 1 empty_db)).
Proof.
  apply (X18_created_category_blocks_initialization strict_engine
           upload_defaults None None "" "" 1 empty_db _
           (fst (Category_create "Other Expenses" "expense"
                   (Some ("#6366F1" : str)) (Some ("shopping-bag" : str))
                   1 empty_db))).
  - intros E. apply (f_equal next_id) in E. vm_compute in E. discriminate E.
  - left. vm_compute. reflexivity.
Defined.

Lemma find_after_out_of_scope (f : Category -> bool) uid
  (l1 l2 : list Category) :
  (forall c, In c l1 -> in_scope uid c = false) ->
  (forall c, f c = true -> in_scope uid c = true) ->
  find f (l1 ++ l2) = find f l2.
Proof.
  intros Hout Hf. induction l1 as [|c l1 IH]; simpl; [reflexivity|].
  destruct (f c) eqn:E.
  - specialize (Hf c E). rewrite (Hout c) in Hf; [discriminate | now left].
  - apply IH. intros c' Hin. apply Hout. now right.
Qed.

Lemma find_default_inserted (names : list str) id uid docs :
  find (fun c => name_in names c && in_scope uid c && expense_or_both c)
       (inserted_categories id uid docs) =
  find (fun c => name_in names c && expense_or_both c)
       (inserted_categories id uid docs).
Proof.
  revert id. induction docs as [|[[[name type] color] icon] rest IH];
    intros id; [reflexivity|].
  cbn [inserted_categories find]. rewrite IH.
  unfold in_scope at 1. cbn [cat_userId cat_isDefault].
  now rewrite N.eqb_refl, andb_true_r.
Qed.

(** X19: what a first receipt is filed under after the initialization.
    For a user with no category in scope before, a receipt uploaded
    without category hints after the initialization is filed under the
    user's new 'Food & Dining', and a transaction created from extracted
    data under the user's new 'Shopping'; neither creates a category. *)
Theorem X19_first_receipt_after_initialization
  (beyond : str -> option (str -> bool)) (uid : N) (d d' : DB)
  (created : list Category) :
  (forall c, In c (categories d) -> in_scope uid c = false) ->
  initializeDefaultCategories uid d = (Initialized created, d') ->
  exists food shop,
    receipt_category beyond upload_defaults None None uid d' = Ok (food, d') /\
    receipt_category beyond create_defaults None None uid d' = Ok (shop, d') /\
    In food created /\ cat_name food = ("Food & Dining" : str) /\
    In shop created /\ cat_name shop = ("Shopping" : str).
Proof.
  intros Hout Hinit. unfold initializeDefaultCategories in Hinit.
  destruct (0 <? length (owned_categories uid d))%nat; [discriminate|].
  rewrite insertMany_inserted in Hinit.
  assert (Hfood : exists food,
    find (fun c => name_in upload_defaults c && expense_or_both c)
         (inserted_categories (next_id d) uid defaultCategories) = Some food /\
    cat_name food = ("Food & Dining" : str))
    by (eexists; split; vm_compute; reflexivity).
  assert (Hshop : exists shop,
    find (fun c => name_in create_defaults c && expense_or_both c)
         (inserted_categories (next_id d) uid defaultCategories) = Some shop /\
    cat_name shop = ("Shopping" : str))
    by (eexists; split; vm_compute; reflexivity).
  destruct Hfood as (food & Hf & Hfn), Hshop as (shop & Hs & Hsn).
  rewrite <- (find_default_inserted upload_defaults) in Hf.
  rewrite <- (find_default_inserted create_defaults) in Hs.
  set (cs := inserted_categories (next_id d) uid defaultCategories) in *.
  injection Hinit as <- <-. exists food, shop.
  assert (Hscope : forall names c,
    name_in names c && in_scope uid c && expense_or_both c = true ->
    in_scope uid c = true).
  { intros names c H. apply andb_true_iff in H as [H _].
    now apply andb_true_iff in H as [_ H]. }
  repeat split;
    try exact Hfn; try exact Hsn;
    try exact (proj1 (find_some _ _ Hf)); try exact (proj1 (find_some _ _ Hs)).
  - unfold receipt_category, Category_findOne. cbn [given categories].
    rewrite (find_after_out_of_scope _ uid _ _ Hout (Hscope upload_defaults)).
    now rewrite Hf.
  - unfold receipt_category, Category_findOne. cbn [given categories].
    rewrite (find_after_out_of_scope _ uid _ _ Hout (Hscope create_defaults)).
    now rewrite Hs.
Qed.

Lemma X19_first_receipt_after_initialization_witness :
  exists food shop,
    receipt_category strict_engine upload_defaults None None 1
      (snd (initializeDefaultCategories 1 empty_db)) =
      Ok (food, snd (initializeDefaultCategories 1 empty_db)) /\
    cat_name food = ("Food & Dining" : str) /\
    cat_name shop = ("Shopping" : str).
Proof.
  destruct (X19_first_receipt_after_initialization strict_engine 1 empty_db
              (snd (initializeDefaultCategories 1 empty_db))
              (inserted_categories 1 1 defaultCategories))
    as (food & shop & H1 & _ & _ & H2 & _ & H3).
  - intros c [].
  - vm_compute. reflexivity.
  - exists food, shop. exact (conj H1 (conj H2 H3)).
Defined.

(** ** The upload route of the import *)

(** X20: the import route refuses the files it is meant for.  The
    route filters with the receipt filter, so a file of any of the types
    that the history filter lists (text/csv, text/plain, ...) is refused
    with the invalid-file-type error before the handler runs, and nothing
    is stored. *)
Theorem X20_import_route_refuses_csv_types (Date_parse : str -> option Time)
  (beyond : str -> option (str -> bool)) (within_limit : bool)
  (f : HistoryFile) (uid : N) (d : DB) :
  In (hf_mimetype f) history_types ->
  historyFileFilter (hf_mimetype f) (hf_originalname f) = true /\
  transaction_history_route Date_parse beyond within_limit (Some f) uid d =
  (Refused InvalidFileType, d).
Proof.
  intros Hin. unfold transaction_history_route, historyFileFilter.
  assert (Hno : fileFilter (hf_mimetype f) = false).
  { simpl in Hin.
    repeat (destruct Hin as [<- | Hin]; [reflexivity|]). destruct Hin. }
  rewrite Hno. split; [|reflexivity].
  apply orb_true_iff. left. apply existsb_exists.
  exists (hf_mimetype f). split; [exact Hin | apply str_eqb_refl].
Qed.

Lemma X20_import_route_refuses_csv_types_witness :
  transaction_history_route iso_date strict_engine true
    (Some (statement [])) 1 empty_db = (Refused InvalidFileType, empty_db).
Proof.
  apply (X20_import_route_refuses_csv_types iso_date strict_engine true
           (statement []) 1 empty_db).
  left. reflexivity.
Defined.

(** X21: what the import route can import.  Whenever the route answers
    with an import, the file was declared as one of the six image types
    of the receipt filter and was within the size limit; a PDF passes the
    filter but always fails in the handler. *)
Theorem X21_import_route_imports_from_images
  (Date_parse : str -> option Time) (beyond : str -> option (str -> bool))
  (within_limit : bool) (f : HistoryFile) (uid : N) (d d' : DB)
  (imported : nat) (errors : list (Candidate * str)) (saved : list Transaction) :
  transaction_history_route Date_parse beyond within_limit (Some f) uid d =
  (Handled (HistoryImported imported errors saved), d') ->
  In (hf_mimetype f) receipt_types /\
  hf_mimetype f <> ("application/pdf" : str) /\
  within_limit = true.
Proof.
  unfold transaction_history_route.
  destruct (fileFilter (hf_mimetype f)) eqn:Hf; [|discriminate].
  destruct within_limit; [|discriminate]. cbn [negb].
  intros H. split; [|split; [|reflexivity]].
  - unfold fileFilter in Hf. apply existsb_exists in Hf as (m & Hin & Hm).
    apply str_eqb_eq in Hm. now subst m.
  - intros Hpdf. unfold uploadTransactionHistory in H.
    rewrite Hpdf, str_eqb_refl in H. discriminate H.
Qed.

Lemma X21_import_route_imports_from_images_witness :
  In (hf_mimetype mislabelled_statement) receipt_types /\
  fst (transaction_history_route iso_date strict_engine true
         (Some mislabelled_statement) 1 empty_db) <> Refused InvalidFileType.
Proof.
  destruct (transaction_history_route iso_date strict_engine true
              (Some mislabelled_statement) 1 empty_db) as [r d'] eqn:E.
  destruct r as [e|[| |n errs sv]]; try (vm_compute in E; discriminate E).
  destruct (X21_import_route_imports_from_images _ _ _ _ _ _ _ _ _ _ E)
    as (H1 & _ & _).
  split; [exact H1 | discriminate].
Defined.

(** ** Fetching a receipt file *)

Lemma has_receipt_file_spec (uid : N) (filename : str) (t : Transaction) :
  (td_userId (tx_data t) =? uid)%N && has_receipt_file filename t = true <->
  names_receipt uid filename t.
Proof.
  unfold names_receipt, has_receipt_file.
  rewrite andb_true_iff, N.eqb_eq. split.
  - intros [Hu Hr]. split; [exact Hu|].
    destruct (td_receipt (tx_data t)) as [r|]; [|discriminate].
    destruct (rc_filename r) as [| | | |s|] eqn:Hn; try discriminate.
    apply str_eqb_eq in Hr. subst s. now exists r.
  - intros [Hu (r & -> & ->)]. split; [exact Hu | apply str_eqb_refl].
Qed.

Lemma split_plain (s : str) : plain s -> split "/" s = [s].
Proof.
  induction 1 as [|c s Hc _ IH]; [reflexivity|].
  simpl. destruct (Ascii.eqb_spec c "/"); [contradiction|]. now rewrite IH.
Qed.

Lemma join_simple (dir : Path) (name : str) :
  simple_name name -> join_segment dir name = dir ++ [name].
Proof.
  intros (_ & H0 & H1 & H2). unfold join_segment.
  apply str_eqb_neq in H0, H1, H2. now rewrite H2, H1, H0.
Qed.

(** X22: a receipt file is sent only to a user who has a transaction
    that names it.  The file is sent, or the sending fails, only when
    the store holds a transaction of the requesting user whose receipt
    carries the requested file name; the path sent is a regular file, the
    join of uploads/receipts and the requested name.  The answer is 403
    exactly when that path exists and the user has no such transaction,
    and 404 exactly when it does not exist.  For a name without
    separator that is no dot name the path is the file of that name in
    uploads/receipts; the name '../x' leads to the file x of the uploads
    directory itself. *)
Theorem X22_receipt_file_needs_an_own_transaction (uploads : Path)
  (filename : str) (uid : N) (w : World) :
  let receiptPath := path_join (uploads ++ ["receipts" : str]) filename in
  match getReceiptFile uploads filename uid w with
  | FileSent p =>
      p = receiptPath /\ is_file p (fs w) = true /\
      exists t, In t (transactions (db w)) /\ names_receipt uid filename t
  | FileError =>
      exists t, In t (transactions (db w)) /\ names_receipt uid filename t
  | FileDenied =>
      existsSync receiptPath (fs w) = true /\
      forall t, In t (transactions (db w)) -> ~ names_receipt uid filename t
  | FileNotFound => existsSync receiptPath (fs w) = false
  end /\
  (simple_name filename ->
   receiptPath = uploads ++ ["receipts" : str; filename]) /\
  (forall name, simple_name name ->
     path_join (uploads ++ ["receipts" : str]) ("../" ++ name) =
     uploads ++ [name]).
Proof.
  cbv zeta. split; [|split].
  - unfold getReceiptFile.
    set (p := path_join (uploads ++ ["receipts" : str]) filename).
    destruct (existsSync p (fs w)) eqn:He; cbn [negb]; [|reflexivity].
    destruct (find _ (transactions (db w))) as [t|] eqn:Hf.
    + apply find_holds in Hf as [Hin Ht]. apply has_receipt_file_spec in Ht.
      unfold sendFile. destruct (existsb _ p); [now exists t|].
      destruct (is_file p (fs w)) eqn:Hfile; [|now exists t].
      split; [reflexivity|]. split; [exact Hfile | now exists t].
    + split; [reflexivity|]. intros t Hin Ht.
      apply has_receipt_file_spec in Ht.
      now rewrite (find_none _ _ Hf t Hin) in Ht.
  - intros Hs. unfold path_join. rewrite (split_plain _ (proj1 Hs)).
    cbn [fold_left]. rewrite (join_simple _ _ Hs). now rewrite <- app_assoc.
  - intros name Hs. unfold path_join.
    replace (split "/" ("../" ++ name)) with [(".." : str); name]
      by (cbn; now rewrite (split_plain _ (proj1 Hs))).
    cbn [fold_left]. unfold join_segment at 2.
    replace (str_eqb (".." : str) "..") with true by (vm_compute; reflexivity).
    rewrite removelast_last. apply (join_simple _ _ Hs).
Qed.

(** Generated file names. *)

Lemma plain_uint (u : Decimal.uint) :
  plain (list_ascii_of_string (NilEmpty.string_of_uint u)).
Proof.
  induction u; simpl; constructor; solve [discriminate | assumption].
Qed.

Lemma plain_decimal (z : Z) : plain (decimal_string z).
Proof.
  unfold decimal_string, NilZero.string_of_int, NilZero.string_of_uint.
  destruct (Z.to_int z) as [u|u].
  - destruct u; try apply plain_uint. repeat constructor. discriminate.
  - simpl. constructor; [discriminate|].
    destruct u; try apply plain_uint. repeat constructor. discriminate.
Qed.

Lemma plain_ext_scan (r acc : str) : plain acc -> plain (ext_scan r acc).
Proof.
  revert acc. induction r as [|c before IH]; intros acc Hacc; [constructor|].
  destruct c as [[] [] [] [] [] [] [] []];
    try (apply IH; constructor; [discriminate | exact Hacc]);
    try (constructor; fail).
  destruct before as [|c2 r2]; [constructor|].
  destruct c2 as [[] [] [] [] [] [] [] []];
    try (constructor; [discriminate | exact Hacc]);
    try (constructor; fail).
  destruct r2 as [|c3 r3].
  - destruct acc; constructor; [discriminate | exact Hacc].
  - destruct c3 as [[] [] [] [] [] [] [] []];
      try (constructor; [discriminate | exact Hacc]);
      destruct acc; constructor; solve [discriminate | exact Hacc].
Qed.

Lemma plain_app (a b : str) : plain a -> plain b -> plain (a ++ b).
Proof. intros Ha Hb. apply Forall_app. now split. Qed.

Lemma plain_permanentFilename (env : Env) (originalName : str) :
  plain (permanentFilename env originalName).
Proof.
  unfold permanentFilename, extname.
  repeat apply plain_app;
    try apply plain_decimal; try (apply plain_ext_scan; constructor);
    repeat constructor; discriminate.
Qed.

Lemma path_join_generated (dir : Path) (env : Env) (originalName : str) :
  path_join dir (permanentFilename env originalName) =
  dir ++ [permanentFilename env originalName].
Proof.
  unfold path_join. rewrite (split_plain _ (plain_permanentFilename _ _)).
  reflexivity.
Qed.

Lemma find_exists {A} (f : A -> bool) (l : list A) (x : A) :
  In x l -> f x = true -> exists y, find f l = Some y.
Proof.
  intros Hin Hx. destruct (find f l) as [y|] eqn:E; [now exists y|].
  rewrite (find_none _ _ E x Hin) in Hx. discriminate.
Qed.

(** X23: a receipt attached at creation can be fetched by its owner.
    When [createTransaction] stores a transaction with a receipt, for a
    temp file whose permanent directory is uploads/receipts and an
    uploads directory without dot-led components, [getReceiptFile]
    answers the owner's request for the stored file name with the
    permanent file, which holds the content of the temp file. *)
Theorem X23_attached_receipt_can_be_fetched
  (beyond : str -> option (str -> bool)) (body : CreateBody) (user : User)
  (env : Env) (w w' : World) (t : Transaction) (r : Receipt)
  (info : ReceiptFileInfo) (tempPath uploads : Path) :
  createTransaction beyond body user env w = (Created t, w') ->
  td_receipt (tx_data t) = Some r ->
  b_receiptFileInfo body = Some info ->
  rf_tempPath info = Some tempPath ->
  permanentDir tempPath = uploads ++ ["receipts" : str] ->
  existsb (startsWith ".") uploads = false ->
  exists name,
    rc_filename r = JString name /\
    getReceiptFile uploads name (u_id user) w' =
      FileSent (uploads ++ ["receipts" : str; name]) /\
    files (fs w') !! (uploads ++ ["receipts" : str; name]) =
      files (fs w) !! tempPath.
Proof.
  intros Hcreate Hr Hinfo Htemp Hdir Hdots.
  unfold createTransaction in Hcreate.
  destruct (lookup_category beyond body user (db w)) as [[c|resp]|e] eqn:Hl;
    [| |discriminate].
  2:{ injection Hcreate as -> <-.
      unfold lookup_category, Category_findOne in Hl.
      destruct (providedCategoryName body), (b_categoryId body);
        try destruct (name_regex beyond _); simpl in Hl;
        try destruct (find _ _); discriminate. }
  destruct (type_conflict c (b_type body)); [discriminate|].
  unfold with_receipt in Hcreate. rewrite Hinfo in Hcreate.
  destruct (b_receiptData body) as [data|].
  2:{ injection Hcreate as <- <-. discriminate Hr. }
  destruct (promoteReceiptFile info env (fs w)) as [[[name path]|e] f'] eqn:Hp.
  2:{ injection Hcreate as <- <-. discriminate Hr. }
  injection Hcreate as <- <-. cbn in Hr. injection Hr as <-.
  destruct (promote_succeeded _ _ _ _ _ _ Hp)
    as (tempPath' & originalName & content & Hp' & _ & -> & -> & Hsrc & Hf1 & _).
  rewrite Htemp in Hp'. injection Hp' as <-. rewrite Hdir in *.
  set (name := permanentFilename env originalName) in *.
  exists name. split; [reflexivity|].
  assert (Hpath : (uploads ++ ["receipts" : str]) ++ [name] =
                  uploads ++ ["receipts" : str; name])
    by now rewrite <- app_assoc.
  rewrite Hpath in *.
  assert (Hfile : files f' !! (uploads ++ ["receipts" : str; name]) =
                  Some content) by (rewrite Hf1; apply lookup_insert_eq).
  split; [|cbn [fs]; now rewrite Hfile, Hsrc].
  assert (Hjoin : path_join (uploads ++ ["receipts" : str]) name =
                  uploads ++ ["receipts" : str; name])
    by (unfold name; now rewrite path_join_generated, <- app_assoc).
  unfold getReceiptFile. rewrite Hjoin. cbn [fs db].
  unfold existsSync, is_file. rewrite Hfile. cbn [orb negb].
  edestruct (find_exists
               (fun t => (td_userId (tx_data t) =? u_id user)%N &&
                         has_receipt_file name t)) as [y ->].
  - cbn [transactions Transaction_create snd]. apply in_or_app. right. now left.
  - cbn. rewrite N.eqb_refl. apply str_eqb_refl.
  - unfold sendFile, is_file. rewrite Hfile.
    rewrite existsb_app, Hdots. reflexivity.
Qed.


Lemma X23_attached_receipt_can_be_fetched_witness :
  getReceiptFile ["srv" : str; "uploads" : str] stored_name 1
    (snd (createTransaction strict_engine (expense_body (Some temp_handle))
            user1 env1 temp_world)) =
  FileSent ["srv" : str; "uploads" : str; "receipts" : str; stored_name].
Proof.
  destruct (X23_attached_receipt_can_be_fetched strict_engine
              (expense_body (Some temp_handle)) user1 env1 temp_world
              (snd (createTransaction strict_engine
                      (expense_body (Some temp_handle)) user1 env1 temp_world))
              stored_transaction stored_receipt temp_handle temp_path
              ["srv" : str; "uploads" : str])
    as (name & Hn & H & _);
    [ | reflexivity | reflexivity | reflexivity | reflexivity | reflexivity | ].
  - exact (@eq_refl _ (createTransaction strict_engine
                         (expense_body (Some temp_handle)) user1 env1
                         temp_world)
           <: createTransaction strict_engine (expense_body (Some temp_handle))
                user1 env1 temp_world =
              (Created stored_transaction,
               snd (createTransaction strict_engine
                      (expense_body (Some temp_handle)) user1 env1
                      temp_world))).
  - injection Hn as <-. exact H.
Defined.
